(** * SRS channel and noise estimator (srs_estimator_generic_impl.cpp)

    A shallow embedding of [srs_estimator_generic_impl::compensate_phase_shift]
    and [srs_estimator_generic_impl::estimate], with the arithmetic the C++
    code runs on: [float] is IEEE-754 binary32, [double] is binary64, both
    through the Standard Library's executable [SpecFloat] operations
    (round to nearest, ties to even), and [unsigned] is 32-bit wrap-around
    on [Z]. *)

From Stdlib Require Import ZArith Lia Bool Ascii.
From Stdlib Require Import SpecFloat.
From stdpp Require Import gmap list strings pretty.

(** ** Machine arithmetic *)

Module Num.

Local Open Scope Z_scope.

(** [unsigned]: arithmetic modulo 2^32. *)
Definition u32 (z : Z) : Z := z mod 2 ^ 32.

(** [float] (binary32) and [double] (binary64) share the carrier
    [spec_float]; the operations fix the format. *)
Definition float : Type := spec_float.
Definition double : Type := spec_float.

Definition fadd : float -> float -> float := SFadd 24 128.
Definition fsub : float -> float -> float := SFsub 24 128.
Definition fmul : float -> float -> float := SFmul 24 128.
Definition fdiv : float -> float -> float := SFdiv 24 128.
Definition fsqrt : float -> float := SFsqrt 24 128.
Definition fneg : float -> float := SFopp.
Definition fltb : float -> float -> bool := SFltb.
Definition fleb : float -> float -> bool := SFleb.

Definition dadd : double -> double -> double := SFadd 53 1024.
Definition dmul : double -> double -> double := SFmul 53 1024.
Definition ddiv : double -> double -> double := SFdiv 53 1024.
Definition dneg : double -> double := SFopp.
Definition dltb : double -> double -> bool := SFltb.
Definition dleb : double -> double -> bool := SFleb.

(** [static_cast<float>(n)] and [static_cast<double>(n)] of an integer. *)
Definition float_of_Z (z : Z) : float := binary_normalize 24 128 z 0 false.
Definition double_of_Z (z : Z) : double := binary_normalize 53 1024 z 0 false.

(** Conversions between the two formats: widening is exact, narrowing
    rounds to nearest. *)
Definition convert_format (prec emax : Z) (x : spec_float) : spec_float :=
  match x with
  | S754_finite s m e => binary_round prec emax s m e
  | _ => x
  end.
Definition double_of_float : float -> double := convert_format 53 1024.
Definition float_of_double : double -> float := convert_format 24 128.

Definition fzero : float := S754_zero false.
Definition fone : float := float_of_Z 1.
Definition dzero : double := S754_zero false.
Definition d_one : double := double_of_Z 1.

(** [std::max(a, b)] is [(a < b) ? b : a] and [std::min(a, b)] is
    [(b < a) ? b : a]; with a NaN operand every comparison is false and
    the first argument comes back. *)
Definition std_max (a b : spec_float) : spec_float := if SFltb a b then b else a.
Definition std_min (a b : spec_float) : spec_float := if SFltb b a then b else a.

(** [std::numeric_limits<double>::min()] is the smallest positive
    normalised double, 2^-1022; [max()] is the largest finite double;
    [lowest()], which the code does not use, is the most negative one. *)
Definition numeric_limits_double_min : double := S754_finite false (2 ^ 52) (-1074).
Definition numeric_limits_double_max : double := SFmax_float 53 1024.
Definition numeric_limits_double_lowest : double := SFopp numeric_limits_double_max.

(** The literal [0.01F]. *)
Definition f_0_01 : float := S754_finite false 10737418 (-30).

(** Modelled from the spec: [TWOPI], the "2π" of the phase ramp.  The
    header that declares it is not part of the sources; it is the
    binary32 constant [2.0F * static_cast<float>(M_PI)]. *)
Definition TWOPI : float := S754_finite false 13176795 (-21).

Definition is_nan (x : spec_float) : bool :=
  match x with S754_nan => true | _ => false end.

(** [std::isfinite]. *)
Definition is_finite (x : spec_float) : bool :=
  match x with
  | S754_zero _ | S754_finite _ _ _ => true
  | S754_infinity _ | S754_nan => false
  end.

(** [std::round] on a finite value, as an integer: nearest integer,
    halfway cases away from zero. *)
Definition round_half_away (s : bool) (m : positive) (e : Z) : Z :=
  let mag :=
    match e with
    | Zneg p =>
        let d := 2 ^ Zpos p in
        let q := Zpos m / d in
        if d <=? 2 * (Zpos m mod d) then q + 1 else q
    | _ => Zpos m * 2 ^ e
    end in
  if s then - mag else mag.

(** [std::round]: the integer a finite argument rounds to; NaN and the
    infinities round to themselves and have none. *)
Definition std_round (x : float) : option Z :=
  match x with
  | S754_zero _ => Some 0
  | S754_finite s m e => Some (round_half_away s m e)
  | _ => None
  end.

(** [static_cast<int>(std::round(x))].  The language defines the
    conversion only when the rounded value fits an [int]; outside that
    range, and for NaN and the infinities, the model returns what the
    x86-64 conversion instruction returns, [INT_MIN]. *)
Definition INT_MIN : Z := - 2 ^ 31.
Definition INT_MAX : Z := 2 ^ 31 - 1.

Definition round_to_int (x : float) : Z :=
  match std_round x with
  | Some r => if (INT_MIN <=? r) && (r <=? INT_MAX) then r else INT_MIN
  | None => INT_MIN
  end.

End Num.
Export Num.

(** ** Complex samples: [cf_t = std::complex<float>] *)

Record cf_t : Type := Cf { re : float; im : float }.

Definition czero : cf_t := Cf fzero fzero.

Definition cadd (a b : cf_t) : cf_t := Cf (fadd (re a) (re b)) (fadd (im a) (im b)).
Definition csub (a b : cf_t) : cf_t := Cf (fsub (re a) (re b)) (fsub (im a) (im b)).

(** Complex product by the component formula the vector kernels use. *)
Definition cmul (a b : cf_t) : cf_t :=
  Cf (fsub (fmul (re a) (re b)) (fmul (im a) (im b)))
     (fadd (fmul (re a) (im b)) (fmul (im a) (re b))).

Definition cconj (a : cf_t) : cf_t := Cf (re a) (fneg (im a)).

(** [complex * float], [float * complex] and [complex / float] act on
    both components. *)
Definition cscale (h : float) (a : cf_t) : cf_t := Cf (fmul (re a) h) (fmul (im a) h).
Definition cdivf (a : cf_t) (h : float) : cf_t := Cf (fdiv (re a) h) (fdiv (im a) h).

(** [std::norm]. *)
Definition cnorm (a : cf_t) : float := fadd (fmul (re a) (re a)) (fmul (im a) (im a)).

Definition cf_finite (a : cf_t) : bool := is_finite (re a) && is_finite (im a).
Definition cf_has_nan (a : cf_t) : bool := is_nan (re a) || is_nan (im a).

(** ** Vector kernels ([srsvec])

    The kernels are declared in headers that are not part of the sources;
    each is written out element by element, with sums taken from the first
    element to the last.  The output argument comes first, as in
    [srsvec::prod_conj(mean_lse, mean_lse, sequence)]. *)

Module srsvec.

(** Modelled from the spec: [srsvec::add(z, x, y)], "subsequent symbols
    add": [z = x + y]. *)
Definition add (x y : list cf_t) : list cf_t := zip_with cadd x y.

(** Modelled from the spec: [srsvec::subtract(z, x, y)], "subtract it
    from the matching noise-helper buffer": [z = x - y]. *)
Definition subtract (x y : list cf_t) : list cf_t := zip_with csub x y.

(** Modelled from the spec: [srsvec::prod(z, x, y)], "multiply element n
    by" the exponential: [z = x * y]. *)
Definition prod (x y : list cf_t) : list cf_t := zip_with cmul x y.

(** Modelled from the spec: [srsvec::prod_conj(z, x, y)], "multiply the
    summed raw buffer element-wise by the conjugate of p's pilot
    sequence": [z = x * conj(y)]. *)
Definition prod_conj (x y : list cf_t) : list cf_t :=
  zip_with (fun a b => cmul a (cconj b)) x y.

(** Modelled from the spec: [srsvec::sc_prod(z, x, h)] with a real
    factor, "scale by 1/num_symbols". *)
Definition sc_prod (x : list cf_t) (h : float) : list cf_t := cscale h <$> x.

(** Modelled from the spec: [srsvec::sc_prod(z, x, h)] with a complex
    factor, "pilot_sequence(p) × num_symbols × coefficient". *)
Definition sc_prod_c (x : list cf_t) (h : cf_t) : list cf_t := (fun a => cmul a h) <$> x.

(** Modelled from the spec: [srsvec::copy(dst, src)], "first symbol is a
    direct copy". *)
Definition copy (src : list cf_t) : list cf_t := src.

(** Modelled from the spec: [srsvec::mean], "the arithmetic mean of the
    compensated least-squares buffer over subcarriers". *)
Definition mean (x : list cf_t) : cf_t :=
  cdivf (foldl cadd czero x) (float_of_Z (Z.of_nat (length x))).

(** Modelled from the spec: [srsvec::average_power], "average power":
    the mean squared magnitude, zero for an empty span. *)
Definition average_power (x : list cf_t) : float :=
  match x with
  | [] => fzero
  | _ => fdiv (foldl (fun acc a => fadd acc (cnorm a)) fzero x)
              (float_of_Z (Z.of_nat (length x)))
  end.

End srsvec.

(** ** Data model *)

(** [srs_information], as [get_srs_information] returns it.  The comb
    size field is [comb_size] in the source. *)
Record srs_information : Type := {
  sequence_length : nat;
  sequence_group : nat;
  sequence_number : nat;
  n_cs : nat;
  n_cs_max : nat;
  mapping_initial_subcarrier : nat;
  info_comb_size : nat
}.

(** The fields of [config.resource] that [estimate] reads itself. *)
Record srs_resource_configuration : Type := {
  nof_antenna_ports : nat;
  nof_symbols : nat;
  start_symbol : nat;
  comb_size : nat
}.

(** [config.context] enters [estimate] only as the text
    [fmt::format("{}", config.context.value())]; the formatter is not part
    of the sources, so the request carries that text. *)
Record srs_estimator_configuration : Type := {
  numerology : nat;
  resource : srs_resource_configuration;
  ports : list nat;
  context : option string
}.

Record time_alignment_measurement : Type := {
  ta_time_alignment : double;
  ta_resolution : double;
  ta_min : double;
  ta_max : double
}.

(** Modelled from the spec: [srs_channel_matrix], "a dense matrix of
    complex coefficients indexed by (receive-port, transmit-port)": one
    row per receive port.  A matrix is created with value-initialised
    (zero) coefficients; [set_coefficient] stores one entry and leaves
    the shape, [*=] scales every entry. *)
Abbreviation srs_channel_matrix := (list (list cf_t)) (only parsing).

Definition new_channel_matrix (nof_rx_ports nof_tx_ports : nat) : srs_channel_matrix :=
  replicate nof_rx_ports (replicate nof_tx_ports czero).

Definition set_coefficient (coefficient : cf_t) (i_rx_port i_tx_port : nat)
    (m : srs_channel_matrix) : srs_channel_matrix :=
  alter (fun row : list cf_t => <[i_tx_port := coefficient]> row) i_rx_port m.

Definition get_coefficient (m : srs_channel_matrix) (i_rx_port i_tx_port : nat) : option cf_t :=
  m !! i_rx_port ≫= fun row => row !! i_tx_port.

(** [channel_matrix *= h]. *)
Definition scale_matrix (h : float) (m : srs_channel_matrix) : srs_channel_matrix :=
  (fun row : list cf_t => cscale h <$> row) <$> m.

Definition has_shape (m : srs_channel_matrix) (nof_rx_ports nof_tx_ports : nat) : Prop :=
  length m = nof_rx_ports ∧ Forall (fun row => length row = nof_tx_ports) m.

(** Modelled from the spec: "then convert to dB".  [convert_power_to_dB]
    is declared outside the sources; a value in decibels is kept as the
    conversion applied to its linear power. *)
Inductive decibel : Type := convert_power_to_dB (power : float).

Record srs_estimator_result : Type := {
  channel_matrix : srs_channel_matrix;
  time_alignment : time_alignment_measurement;
  noise_variance : float;
  epre_dB : decibel;
  rsrp_dB : decibel
}.

(** The collaborators held in [deps]. *)
Record dependencies : Type := {
  (** [sequence_generator->generate(sequence, group, number, n_cs, n_cs_max)],
      on a span of the given length. *)
  sequence_generator : nat -> nat -> nat -> nat -> nat -> list cf_t;
  (** [ta_estimator->estimate(port_lse, comb_size, scs, max_ta)]. *)
  ta_estimator : list (list cf_t) -> nat -> nat -> double -> time_alignment_measurement
}.

Record srs_estimator_generic_impl : Type := {
  deps : dependencies;
  max_nof_prb : nat;
  cexp_table : list cf_t
}.

(** Modelled from the spec: the Resource Grid Reader, "returns the
    complex samples received on a comb-sampled set of subcarriers for one
    OFDM symbol, one receive antenna".  A grid maps (port, symbol,
    subcarrier) to a sample. *)
Definition resource_grid_reader : Type := nat -> nat -> nat -> cf_t.

Definition grid_get (grid : resource_grid_reader)
    (size port l k_init stride : nat) : list cf_t :=
  (fun i => grid port l (k_init + stride * i)%nat) <$> seq 0 size.

(** Modelled from the spec: the "subcarrier_spacing_Hz" of the request,
    in kHz as [scs_to_khz(to_subcarrier_spacing(numerology))] returns it:
    15 kHz times 2 to the numerology.  Neither function is part of the
    sources; a subcarrier spacing is kept as its numerology. *)
Definition scs_to_khz (scs : nat) : Z := (15 * 2 ^ Z.of_nat scs)%Z.

(** ** Identity extraction for the CSI collector

    [estimate] recovers the RNTI from the formatted context:
    [context_str.find("rnti=0x")], [substr(rnti_pos + 7)], then
    [std::stoul(rnti_hex, nullptr, 16)] narrowed to [uint16_t]. *)

Module Rnti.

Local Open Scope Z_scope.

Definition isspace (c : ascii) : bool :=
  let n := Z.of_nat (nat_of_ascii c) in (n =? 32) || ((9 <=? n) && (n <=? 13)).

Definition hex_digit (c : ascii) : option Z :=
  let n := Z.of_nat (nat_of_ascii c) in
  if (48 <=? n) && (n <=? 57) then Some (n - 48)
  else if (97 <=? n) && (n <=? 102) then Some (n - 87)
  else if (65 <=? n) && (n <=? 70) then Some (n - 55)
  else None.

Fixpoint skip_space (s : string) : string :=
  match s with
  | String c s' => if isspace c then skip_space s' else s
  | EmptyString => s
  end.

(** The digits of the longest hexadecimal prefix. *)
Fixpoint hex_prefix (s : string) : list Z :=
  match s with
  | String c s' =>
      match hex_digit c with
      | Some d => d :: hex_prefix s'
      | None => []
      end
  | EmptyString => []
  end.

Definition hex_value (ds : list Z) : Z := foldl (fun acc d => 16 * acc + d) 0 ds.

Definition ULONG_MAX : Z := 2 ^ 64 - 1.

(** [std::stoul(str, nullptr, 16)]: leading white space, an optional
    sign, an optional [0x] prefix, then hexadecimal digits.  [None] stands
    for a thrown exception: [std::invalid_argument] when nothing converts,
    [std::out_of_range] when the digits exceed [unsigned long]. *)
Definition stoul_16 (str : string) : option Z :=
  let s := skip_space str in
  let '(negative, s) :=
    match s with
    | String "-"%char s' => (true, s')
    | String "+"%char s' => (false, s')
    | _ => (false, s)
    end in
  let '(prefixed, s) :=
    match s with
    | String "0"%char (String "x"%char s') => (true, s')
    | String "0"%char (String "X"%char s') => (true, s')
    | _ => (false, s)
    end in
  match hex_prefix s with
  | [] => if prefixed then Some 0 else None
  | ds =>
      let v := hex_value ds in
      if ULONG_MAX <? v then None
      else Some (if negative then (- v) mod 2 ^ 64 else v)
  end.

(** The text after the first [rnti=0x], as [substr(rnti_pos + 7)]
    returns it. *)
Definition rnti_hex_at (context_str : string) (rnti_pos : nat) : string :=
  String.substring (rnti_pos + 7) (String.length context_str - (rnti_pos + 7)) context_str.

(** The RNTI the collector files a record under, or [None] on each of
    the four [continue] paths of the collection block. *)
Definition extract_rnti (context : option string) : option Z :=
  match context with
  | None => None
  | Some context_str =>
      match String.index 0 "rnti=0x" context_str with
      | None => None
      | Some rnti_pos =>
          let rnti_hex := rnti_hex_at context_str rnti_pos in
          match stoul_16 rnti_hex with
          | None => None
          | Some v =>
              let rnti_value := v mod 2 ^ 16 in
              if rnti_value =? 0 then None else Some rnti_value
          end
      end
  end.

(** The [uint16_t] value parsed behind the first [rnti=0x] token of a
    formatted context; [None] when the token is missing or does not
    parse. *)
Definition parsed_rnti (context_str : string) : option Z :=
  match String.index 0 "rnti=0x" context_str with
  | None => None
  | Some rnti_pos => (fun v => v mod 2 ^ 16) <$> stoul_16 (rnti_hex_at context_str rnti_pos)
  end.

(** The requests on which the collection block leaves the loop pass
    early: no context, no parseable token, or a parsed RNTI of zero. *)
Definition collection_skipped (context : option string) : Prop :=
  context = None
  ∨ (∃ context_str, context = Some context_str ∧ parsed_rnti context_str = None)
  ∨ (∃ context_str, context = Some context_str ∧ parsed_rnti context_str = Some 0).

End Rnti.
Export Rnti.

(** One record offered to the collector: the header fields and the
    per-tone samples (subcarrier index, symbol index, sample).  The time
    stamp and the outcome of the file operations belong to the
    environment and are not part of the record. *)
Record csi_record : Type := {
  rec_rnti : Z;
  rec_rx_port : Z;
  rec_tx_port : Z;
  rec_num_tones : Z;
  rec_samples : list (Z * Z * cf_t)
}.

(** ** Phase-shift compensation *)

(** Modelled from the spec: [cexp_table.generate(cexp, phase_indices)],
    "the phase argument is mapped to a table index by ... mod
    table_size": each index selects the table entry at the index modulo
    the table size. *)
Definition cexp_table_generate (table : list cf_t) (indices : list Z) : list cf_t :=
  (fun idx => default czero (table !! Z.to_nat (idx mod Z.of_nat (length table)))) <$> indices.

(** [cexp_table_size]: the number of entries the table is built with. *)
Definition cexp_table_size (est : srs_estimator_generic_impl) : Z :=
  Z.of_nat (length (cexp_table est)).

(** The argument of [std::round] for element [n]. *)
Definition scaled_phase (table_size : Z) (phase_shift_subcarrier phase_shift_offset : float)
    (n : nat) : float :=
  fdiv (fmul (float_of_Z table_size)
             (fadd (fmul (float_of_Z (Z.of_nat n)) phase_shift_subcarrier) phase_shift_offset))
       TWOPI.

(** The value stored in [phase_indices[n]]: the rounded phase as an
    [int], stored into an [unsigned]. *)
Definition phase_index (table_size : Z) (phase_shift_subcarrier phase_shift_offset : float)
    (n : nat) : Z :=
  u32 (round_to_int (scaled_phase table_size phase_shift_subcarrier phase_shift_offset n)).

Definition compensate_phase_shift (est : srs_estimator_generic_impl)
    (mean_lse : list cf_t) (phase_shift_subcarrier phase_shift_offset : float) : list cf_t :=
  let sequence_length := length mean_lse in
  let phase_indices :=
    phase_index (cexp_table_size est) phase_shift_subcarrier phase_shift_offset
      <$> seq 0 sequence_length in
  let cexp := cexp_table_generate (cexp_table est) phase_indices in
  srsvec.prod cexp mean_lse.

(** ** [srs_estimator_generic_impl::estimate] *)

(** The local variables of [estimate] that live across its loops. *)
Record locals : Type := {
  (** [temp_lse], one view per (receive-port index, antenna port). *)
  temp_lse : gmap (nat * nat) (list cf_t);
  (** [all_sequences], one view per antenna port. *)
  all_sequences : gmap nat (list cf_t);
  (** [temp_noise], one view per (parity, receive-port index). *)
  temp_noise : gmap (nat * nat) (list cf_t);
  epre : float;
  (** [result.time_alignment] and [result.channel_matrix]. *)
  result_time_alignment : time_alignment_measurement;
  result_channel_matrix : srs_channel_matrix;
  noise_var : float;
  rsrp : float;
  (** The records offered to the CSI collector, oldest first. *)
  csi_log : list csi_record
}.

(** The locals without the collector's records. *)
Definition without_log (st : locals) : locals :=
  {| temp_lse := temp_lse st;
     all_sequences := all_sequences st;
     temp_noise := temp_noise st;
     epre := epre st;
     result_time_alignment := result_time_alignment st;
     result_channel_matrix := result_channel_matrix st;
     noise_var := noise_var st;
     rsrp := rsrp st;
     csi_log := [] |}.

(** The request with another context. *)
Definition set_context (config : srs_estimator_configuration) (ctx : option string)
    : srs_estimator_configuration :=
  {| numerology := numerology config;
     resource := resource config;
     ports := ports config;
     context := ctx |}.

(** [get_view] on a tensor of spans of [size] samples; the tensors start
    out zeroed. *)
Definition get_view {K} `{Countable K} (size : nat) (t : gmap K (list cf_t)) (k : K) : list cf_t :=
  default (replicate size czero) (t !! k).

(** Combine time alignment measurements (the four assignments after the
    call to the time-alignment estimator). *)
Definition combine_time_alignment (acc ta_meas : time_alignment_measurement)
    : time_alignment_measurement :=
  {| ta_time_alignment := dadd (ta_time_alignment acc) (ta_time_alignment ta_meas);
     ta_resolution := std_max (ta_resolution acc) (ta_resolution ta_meas);
     ta_min := std_max (ta_min acc) (ta_min ta_meas);
     ta_max := std_min (ta_max acc) (ta_max ta_meas) |}.

(** "Prepare results." *)
Definition initial_time_alignment : time_alignment_measurement :=
  {| ta_time_alignment := dzero;
     ta_resolution := dzero;
     ta_min := numeric_limits_double_min;
     ta_max := numeric_limits_double_max |}.

Section Estimate.

(** [get_srs_information] is declared outside the sources; the
    development is parametric in it. *)
Variable get_srs_information : srs_resource_configuration -> nat -> srs_information.

Variable est : srs_estimator_generic_impl.
Variable grid : resource_grid_reader.
Variable config : srs_estimator_configuration.

Definition nof_rx_ports : nat := length (ports config).
Definition cfg_nof_antenna_ports : nat := nof_antenna_ports (resource config).
Definition cfg_nof_symbols : nat := nof_symbols (resource config).
Definition cfg_start_symbol : nat := start_symbol (resource config).
Definition cfg_comb_size : nat := comb_size (resource config).
Definition scs : nat := numerology config.

Definition common_info : srs_information := get_srs_information (resource config) 0.

(** "Sequence length is common for all ports and symbols." *)
Definition common_sequence_length : nat := sequence_length common_info.

(** "Maximum measurable delay due to cyclic shift." *)
Definition max_ta : double :=
  ddiv d_one
    (double_of_Z
       (u32 (u32 (u32 (Z.of_nat (n_cs_max common_info) * scs_to_khz scs) * 1000)
             * Z.of_nat cfg_comb_size))).

Definition info_port0 : srs_information := get_srs_information (resource config) 0.

Definition interleaved_pilots : bool :=
  (cfg_nof_antenna_ports =? 4) && (n_cs_max info_port0 / 2 <=? n_cs info_port0).

(** The first index of the [temp_noise] view of an antenna port. *)
Definition noise_parity (i_antenna_port : nat) : nat :=
  if interleaved_pilots then i_antenna_port mod 2 else 0.

(** The condition guarding the noise-helper updates in both loops. *)
Definition feeds_noise (i_antenna_port : nat) : bool :=
  (i_antenna_port =? 0) || (interleaved_pilots && (i_antenna_port =? 1)).

Definition initial_locals : locals :=
  {| temp_lse := ∅;
     all_sequences := ∅;
     temp_noise := ∅;
     epre := fzero;
     result_time_alignment := initial_time_alignment;
     result_channel_matrix := new_channel_matrix nof_rx_ports cfg_nof_antenna_ports;
     noise_var := fzero;
     rsrp := fzero;
     csi_log := [] |}.

(** *** The transmit-port loop *)

(** "Extract sequence for all symbols and average LSE": one pass of the
    symbol loop, on the views [mean_lse] and [noise_help] and on [epre]. *)
Definition symbol_step (info : srs_information) (i_antenna_port i_rx_port : nat)
    (acc : list cf_t * list cf_t * float) (i_symbol : nat) : list cf_t * list cf_t * float :=
  let '(mean_lse, noise_help, epre) := acc in
  let rx_sequence :=
    grid_get grid (sequence_length info) i_rx_port i_symbol
      (mapping_initial_subcarrier info) (info_comb_size info) in
  let '(noise_help, epre) :=
    if feeds_noise i_antenna_port
    then (srsvec.add rx_sequence noise_help, fadd epre (srsvec.average_power rx_sequence))
    else (noise_help, epre) in
  let mean_lse :=
    if i_symbol =? cfg_start_symbol
    then srsvec.copy rx_sequence
    else srsvec.add rx_sequence mean_lse in
  (mean_lse, noise_help, epre).

(** The factor [1.0 / static_cast<float>(nof_symbols)], a [double]
    narrowed to the [float] parameter of [sc_prod]. *)
Definition symbol_scaling : float :=
  float_of_double (ddiv d_one (double_of_float (float_of_Z (Z.of_nat cfg_nof_symbols)))).

(** One pass of the receive-port loop for antenna port [i_antenna_port];
    [port_lse] collects the slices handed to the time-alignment
    estimator. *)
Definition rx_port_step (info : srs_information) (sequence : list cf_t) (i_antenna_port : nat)
    (acc : locals * list (list cf_t)) (i_rx_port_index : nat) : locals * list (list cf_t) :=
  let '(st, port_lse) := acc in
  let i_rx_port := default 0 (ports config !! i_rx_port_index) in
  let mean_lse := get_view common_sequence_length (temp_lse st) (i_rx_port_index, i_antenna_port) in
  let noise_help :=
    get_view common_sequence_length (temp_noise st) (noise_parity i_antenna_port, i_rx_port_index) in
  let '(mean_lse, noise_help, epre') :=
    foldl (symbol_step info i_antenna_port i_rx_port) (mean_lse, noise_help, epre st)
      (seq cfg_start_symbol cfg_nof_symbols) in
  let mean_lse := srsvec.prod_conj mean_lse sequence in
  let mean_lse :=
    if 1 <? cfg_nof_symbols then srsvec.sc_prod mean_lse symbol_scaling else mean_lse in
  ({| temp_lse := <[(i_rx_port_index, i_antenna_port) := mean_lse]> (temp_lse st);
      all_sequences := all_sequences st;
      temp_noise := <[(noise_parity i_antenna_port, i_rx_port_index) := noise_help]> (temp_noise st);
      epre := epre';
      result_time_alignment := result_time_alignment st;
      result_channel_matrix := result_channel_matrix st;
      noise_var := noise_var st;
      rsrp := rsrp st;
      csi_log := csi_log st |},
   <[i_rx_port_index := mean_lse]> port_lse).

(** One pass of "Iterate transmit ports". *)
Definition antenna_port_step (st : locals) (i_antenna_port : nat) : locals :=
  let info := get_srs_information (resource config) i_antenna_port in
  let sequence :=
    sequence_generator (deps est) common_sequence_length
      (sequence_group info) (sequence_number info) (n_cs info) (n_cs_max info) in
  let st :=
    {| temp_lse := temp_lse st;
       all_sequences := <[i_antenna_port := sequence]> (all_sequences st);
       temp_noise := temp_noise st;
       epre := epre st;
       result_time_alignment := result_time_alignment st;
       result_channel_matrix := result_channel_matrix st;
       noise_var := noise_var st;
       rsrp := rsrp st;
       csi_log := csi_log st |} in
  let '(st, port_lse) :=
    foldl (rx_port_step info sequence i_antenna_port)
      (st, replicate nof_rx_ports (replicate common_sequence_length czero))
      (seq 0 nof_rx_ports) in
  let ta_meas := ta_estimator (deps est) port_lse (info_comb_size info) scs max_ta in
  {| temp_lse := temp_lse st;
     all_sequences := all_sequences st;
     temp_noise := temp_noise st;
     epre := epre st;
     result_time_alignment := combine_time_alignment (result_time_alignment st) ta_meas;
     result_channel_matrix := result_channel_matrix st;
     noise_var := noise_var st;
     rsrp := rsrp st;
     csi_log := csi_log st |}.

Definition after_antenna_ports : locals :=
  foldl antenna_port_step initial_locals (seq 0 cfg_nof_antenna_ports).

(** "Average time alignment across all paths." *)
Definition average_time_alignment (t : time_alignment_measurement) : time_alignment_measurement :=
  {| ta_time_alignment :=
       ddiv (ta_time_alignment t) (double_of_Z (Z.of_nat cfg_nof_antenna_ports));
     ta_resolution := ta_resolution t;
     ta_min := ta_min t;
     ta_max := ta_max t |}.

Definition after_time_alignment : locals :=
  let st := after_antenna_ports in
  {| temp_lse := temp_lse st;
     all_sequences := all_sequences st;
     temp_noise := temp_noise st;
     epre := epre st;
     result_time_alignment := average_time_alignment (result_time_alignment st);
     result_channel_matrix := result_channel_matrix st;
     noise_var := noise_var st;
     rsrp := rsrp st;
     csi_log := csi_log st |}.

(** *** The compensation loop *)

(** "Calculate subcarrier phase shift in radians": a [double] product
    narrowed to [float]. *)
Definition phase_shift_subcarrier (time_alignment : double) : float :=
  float_of_double
    (dmul (dmul (dmul (dmul (double_of_float TWOPI) time_alignment)
                      (double_of_Z (scs_to_khz scs)))
                (double_of_Z 1000))
          (double_of_Z (Z.of_nat cfg_comb_size))).

(** "Calculate the initial phase shift in radians." *)
Definition phase_shift_offset (phase_shift_subcarrier : float) (info : srs_information) : float :=
  fdiv (fmul phase_shift_subcarrier (float_of_Z (Z.of_nat (mapping_initial_subcarrier info))))
       (float_of_Z (Z.of_nat cfg_comb_size)).

(** The record the collection block writes for one port pair: the
    header fields as [uint16_t] and one sample per tone. *)
Definition make_csi_record (rnti_value : Z) (i_rx_port i_antenna_port : nat)
    (info : srs_information) (mean_lse : list cf_t) : csi_record :=
  {| rec_rnti := rnti_value;
     rec_rx_port := (Z.of_nat i_rx_port mod 2 ^ 16)%Z;
     rec_tx_port := (Z.of_nat i_antenna_port mod 2 ^ 16)%Z;
     rec_num_tones := (Z.of_nat (length mean_lse) mod 2 ^ 16)%Z;
     rec_samples :=
       imap (fun tone_idx h_complex =>
               (((u32 (Z.of_nat (mapping_initial_subcarrier info)
                       + u32 (Z.of_nat tone_idx * Z.of_nat cfg_comb_size))) mod 2 ^ 16)%Z,
                (Z.of_nat cfg_start_symbol mod 2 ^ 16)%Z,
                h_complex))
            mean_lse |}.

(** One pass of the inner loop of "Compensate time alignment and
    estimate channel coefficients".  Every [continue] of the collection
    block leaves the pass right after the compensation of [mean_lse]. *)
Definition coefficient_step (i_rx_port : nat) (st : locals) (i_antenna_port : nat) : locals :=
  let mean_lse := get_view common_sequence_length (temp_lse st) (i_rx_port, i_antenna_port) in
  let info := get_srs_information (resource config) i_antenna_port in
  let pss := phase_shift_subcarrier (ta_time_alignment (result_time_alignment st)) in
  let pso := phase_shift_offset pss info in
  let mean_lse := compensate_phase_shift est mean_lse pss pso in
  let temp_lse' := <[(i_rx_port, i_antenna_port) := mean_lse]> (temp_lse st) in
  match extract_rnti (context config) with
  | None =>
      {| temp_lse := temp_lse';
         all_sequences := all_sequences st;
         temp_noise := temp_noise st;
         epre := epre st;
         result_time_alignment := result_time_alignment st;
         result_channel_matrix := result_channel_matrix st;
         noise_var := noise_var st;
         rsrp := rsrp st;
         csi_log := csi_log st |}
  | Some rnti_value =>
      let csi_log' :=
        csi_log st ++ [make_csi_record rnti_value i_rx_port i_antenna_port info mean_lse] in
      let coefficient := srsvec.mean mean_lse in
      let noise_help :=
        get_view common_sequence_length (temp_noise st) (noise_parity i_antenna_port, i_rx_port) in
      let noise_help :=
        if feeds_noise i_antenna_port
        then compensate_phase_shift est noise_help pss pso
        else noise_help in
      let recovered_signal :=
        srsvec.sc_prod_c (get_view common_sequence_length (all_sequences st) i_antenna_port)
          (cscale (float_of_Z (Z.of_nat cfg_nof_symbols)) coefficient) in
      let noise_help := srsvec.subtract noise_help recovered_signal in
      {| temp_lse := temp_lse';
         all_sequences := all_sequences st;
         temp_noise := <[(noise_parity i_antenna_port, i_rx_port) := noise_help]> (temp_noise st);
         epre := epre st;
         result_time_alignment := result_time_alignment st;
         result_channel_matrix :=
           set_coefficient coefficient i_rx_port i_antenna_port (result_channel_matrix st);
         noise_var := noise_var st;
         rsrp := fadd (rsrp st) (cnorm coefficient);
         csi_log := csi_log' |}
  end.

(** [srsvec::average_power(noise_help) * noise_help.size()]. *)
Definition residual_power (noise_help : list cf_t) : float :=
  fmul (srsvec.average_power noise_help) (float_of_Z (Z.of_nat (length noise_help))).

(** One pass of the outer loop: all antenna ports, then the noise
    contribution of this receive port. *)
Definition rx_port_coefficients_step (st : locals) (i_rx_port : nat) : locals :=
  let st := foldl (coefficient_step i_rx_port) st (seq 0 cfg_nof_antenna_ports) in
  let noise_var' :=
    fadd (noise_var st)
         (residual_power (get_view common_sequence_length (temp_noise st) (0, i_rx_port))) in
  let noise_var' :=
    if interleaved_pilots
    then fadd noise_var'
              (residual_power (get_view common_sequence_length (temp_noise st) (1, i_rx_port)))
    else noise_var' in
  {| temp_lse := temp_lse st;
     all_sequences := all_sequences st;
     temp_noise := temp_noise st;
     epre := epre st;
     result_time_alignment := result_time_alignment st;
     result_channel_matrix := result_channel_matrix st;
     noise_var := noise_var';
     rsrp := rsrp st;
     csi_log := csi_log st |}.

Definition after_coefficients : locals :=
  foldl rx_port_coefficients_step after_time_alignment (seq 0 nof_rx_ports).

(** *** Normalisation and the returned value *)

Definition nof_estimates : Z :=
  if interleaved_pilots then 2%Z else Z.of_nat cfg_nof_antenna_ports.

Definition correction_factor : Z := if interleaved_pilots then 2%Z else 1%Z.

(** The [unsigned] divisor of [noise_var]. *)
Definition noise_divisor : Z :=
  u32 (u32 (u32 (u32 (Z.of_nat cfg_nof_symbols * Z.of_nat common_sequence_length) - nof_estimates)
            * correction_factor)
       * Z.of_nat nof_rx_ports).

(** [noise_var] after [noise_var /= ...]. *)
Definition normalized_noise_var : float :=
  fdiv (noise_var after_coefficients) (float_of_Z noise_divisor).

(** [noise_std]; [rsrp] is read before its own normalisation. *)
Definition noise_std : float :=
  std_max (fsqrt normalized_noise_var) (fmul (fsqrt (rsrp after_coefficients)) f_0_01).

(** The factor of [result.channel_matrix *= 1 / noise_std]. *)
Definition normalization_factor : float := fdiv fone noise_std.

Definition normalized_epre : float :=
  fdiv (epre after_coefficients)
       (float_of_Z (u32 (u32 (Z.of_nat cfg_nof_symbols * correction_factor)
                         * Z.of_nat nof_rx_ports))).

Definition normalized_rsrp : float :=
  fdiv (rsrp after_coefficients)
       (float_of_Z (u32 (Z.of_nat cfg_nof_antenna_ports * Z.of_nat nof_rx_ports))).

Definition estimate : srs_estimator_result :=
  {| channel_matrix :=
       scale_matrix normalization_factor (result_channel_matrix after_coefficients);
     time_alignment := result_time_alignment after_coefficients;
     noise_variance := normalized_noise_var;
     epre_dB := convert_power_to_dB normalized_epre;
     rsrp_dB := convert_power_to_dB normalized_rsrp |}.

(** The records the call offers to the CSI collector. *)
Definition estimate_csi_log : list csi_record := csi_log after_coefficients.

End Estimate.

(** ** The statements of the specification *)

Section Specification.

Variable get_srs_information : srs_resource_configuration -> nat -> srs_information.
Variable est : srs_estimator_generic_impl.
Variable grid : resource_grid_reader.
Variable config : srs_estimator_configuration.

(** The comb-sampled received values of one OFDM symbol for the pair
    (antenna port, receive-port index). *)
Definition received_symbol (i_antenna_port i_rx_port_index i_symbol : nat) : list cf_t :=
  let info := get_srs_information (resource config) i_antenna_port in
  grid_get grid (sequence_length info) (default 0 (ports config !! i_rx_port_index)) i_symbol
    (mapping_initial_subcarrier info) (info_comb_size info).

(** "First symbol is a direct copy, subsequent symbols add." *)
Definition summed_symbols (i_antenna_port i_rx_port_index : nat) : list cf_t :=
  let first := start_symbol (resource config) in
  foldl (fun raw i_symbol => srsvec.add (received_symbol i_antenna_port i_rx_port_index i_symbol) raw)
        (received_symbol i_antenna_port i_rx_port_index first)
        (seq (S first) (nof_symbols (resource config) - 1)).

(** The pilot sequence of an antenna port. *)
Definition pilot_sequence (i_antenna_port : nat) : list cf_t :=
  let info := get_srs_information (resource config) i_antenna_port in
  sequence_generator (deps est) (sequence_length (get_srs_information (resource config) 0))
    (sequence_group info) (sequence_number info) (n_cs info) (n_cs_max info).

(** "Multiply the summed raw buffer element-wise by the conjugate of p's
    pilot sequence ...; if more than one symbol was summed, scale by
    1/num_symbols." *)
Definition least_squares_buffer (i_antenna_port i_rx_port_index : nat) : list cf_t :=
  let lse :=
    srsvec.prod_conj (summed_symbols i_antenna_port i_rx_port_index)
      (pilot_sequence i_antenna_port) in
  if 1 <? nof_symbols (resource config)
  then srsvec.sc_prod lse
         (float_of_double
            (ddiv d_one
               (double_of_float (float_of_Z (Z.of_nat (nof_symbols (resource config)))))))
  else lse.

(** The measurement the time-alignment estimator returns for one
    antenna port, from the least-squares buffers of all receive ports. *)
Definition port_measurement (i_antenna_port : nat) : time_alignment_measurement :=
  ta_estimator (deps est)
    ((fun i_rx_port_index => least_squares_buffer i_antenna_port i_rx_port_index)
       <$> seq 0 (length (ports config)))
    (info_comb_size (get_srs_information (resource config) i_antenna_port))
    (numerology config)
    (max_ta get_srs_information config).

(** The per-port measurements in port order. *)
Definition port_measurements : list time_alignment_measurement :=
  port_measurement <$> seq 0 (nof_antenna_ports (resource config)).

(** Modelled from the spec: the Configuration Validator
    ([srs_validator_generic_impl]) is not part of the sources.  A request
    is structurally valid when its symbols fit the slot ("start symbol +
    symbol count exceeds slot length" is a violation), the numbers of
    symbols and antenna ports are one, two or four and the comb is two or
    four (a supported "antenna/comb combination"), the receive ports are
    "unique, bounded" and at least one, every port shares the common
    sequence length, within the scratch capacity, and the samples of one
    receive port outnumber the channel coefficients estimated from them.
    [max_seq_length] and [max_nof_rx_ports] are the capacities the
    estimator's buffers are declared with. *)
Record valid_request (max_seq_length max_nof_rx_ports : nat) : Prop := {
  valid_symbol_range :
    start_symbol (resource config) + nof_symbols (resource config) ≤ 14;
  valid_nof_symbols : nof_symbols (resource config) ∈ [1; 2; 4];
  valid_nof_antenna_ports : nof_antenna_ports (resource config) ∈ [1; 2; 4];
  valid_comb_size : comb_size (resource config) ∈ [2; 4];
  valid_ports_nonempty : 0 < length (ports config);
  valid_ports_unique : NoDup (ports config);
  valid_ports_bounded : length (ports config) ≤ max_nof_rx_ports;
  valid_common_length :
    ∀ i_antenna_port, i_antenna_port < nof_antenna_ports (resource config) →
      sequence_length (get_srs_information (resource config) i_antenna_port)
      = sequence_length (get_srs_information (resource config) 0);
  valid_sequence_length :
    sequence_length (get_srs_information (resource config) 0) ≤ max_seq_length;
  valid_degrees_of_freedom :
    (nof_estimates get_srs_information config
     < Z.of_nat (nof_symbols (resource config))
       * Z.of_nat (sequence_length (get_srs_information (resource config) 0)))%Z
}.

End Specification.

(** ** Concrete requests

    The synthetic scenario of the specification: one transmit and one
    receive port, comb 4, sequence length 144, one symbol, pilots all
    [1+0j], received samples all [2+0j], zero timing offset. *)

Module Scenario.

Definition cf_of_Z (a b : Z) : cf_t := Cf (float_of_Z a) (float_of_Z b).

Definition info : srs_information :=
  {| sequence_length := 144;
     sequence_group := 0;
     sequence_number := 0;
     n_cs := 0;
     n_cs_max := 12;
     mapping_initial_subcarrier := 0;
     info_comb_size := 4 |}.

Definition get_srs_information (_ : srs_resource_configuration) (_ : nat) : srs_information :=
  info.

(** Unit pilots, and a time-alignment estimator that reports no offset
    within the measurable window [-max_ta, max_ta]. *)
Definition collaborators : dependencies :=
  {| sequence_generator := fun size _ _ _ _ => replicate size (cf_of_Z 1 0);
     ta_estimator := fun _ _ _ max_ta =>
       {| ta_time_alignment := dzero;
          ta_resolution := ddiv max_ta (double_of_Z 1024);
          ta_min := dneg max_ta;
          ta_max := max_ta |} |}.

(** A four-entry exponential table: 1, j, -1, -j. *)
Definition estimator : srs_estimator_generic_impl :=
  {| deps := collaborators;
     max_nof_prb := 275;
     cexp_table := [cf_of_Z 1 0; cf_of_Z 0 1; cf_of_Z (-1) 0; cf_of_Z 0 (-1)] |}.

Definition grid_twos : resource_grid_reader := fun _ _ _ => cf_of_Z 2 0.
Definition grid_zeros : resource_grid_reader := fun _ _ _ => czero.

Definition srs_resource : srs_resource_configuration :=
  {| nof_antenna_ports := 1; nof_symbols := 1; start_symbol := 13; comb_size := 4 |}.

Definition request (rx_ports : list nat) (ctx : option string) : srs_estimator_configuration :=
  {| numerology := 0; resource := srs_resource; ports := rx_ports; context := ctx |}.

(** The same resource over two symbols, and a four-port resource whose
    cyclic shift makes the pilots interleaved. *)
Definition srs_resource_two_symbols : srs_resource_configuration :=
  {| nof_antenna_ports := 1; nof_symbols := 2; start_symbol := 12; comb_size := 4 |}.

Definition info_interleaved : srs_information :=
  {| sequence_length := 144;
     sequence_group := 0;
     sequence_number := 0;
     n_cs := 6;
     n_cs_max := 12;
     mapping_initial_subcarrier := 0;
     info_comb_size := 4 |}.

Definition srs_resource_four_ports : srs_resource_configuration :=
  {| nof_antenna_ports := 4; nof_symbols := 1; start_symbol := 13; comb_size := 4 |}.

Definition with_context : option string := Some "sector_id=0 rnti=0x4601"%string.
Definition without_context : option string := None.

(** A request over the two symbols 12 and 13, and a grid whose samples
    are [2+0j] in symbol 12 and [4+0j] in every other symbol. *)
Definition request_two_symbols (rx_ports : list nat) (ctx : option string)
    : srs_estimator_configuration :=
  {| numerology := 0; resource := srs_resource_two_symbols; ports := rx_ports;
     context := ctx |}.

Definition grid_two_levels : resource_grid_reader :=
  fun _ l _ => if l =? 12 then cf_of_Z 2 0 else cf_of_Z 4 0.

Definition max_seq_length : nat := 1650.
Definition max_nof_rx_ports : nat := 4.

End Scenario.

(** ** The coefficient loop, pair by pair *)

Section CoefficientLoop.

Variable get_srs_information : srs_resource_configuration -> nat -> srs_information.
Variable est : srs_estimator_generic_impl.
Variable grid : resource_grid_reader.
Variable config : srs_estimator_configuration.

(** The slot-level time alignment the compensation uses: the value of
    [result.time_alignment.time_alignment] after its division by the
    number of antenna ports. *)
Definition final_time_alignment : double :=
  ta_time_alignment
    (result_time_alignment (after_time_alignment get_srs_information est grid config)).

(** The least-squares buffer of a pair after [compensate_phase_shift],
    with the phase ramp of the final time alignment and the offset of the
    antenna port's initial subcarrier. *)
Definition compensated_lse (i_antenna_port i_rx_port : nat) : list cf_t :=
  let pss := phase_shift_subcarrier config final_time_alignment in
  compensate_phase_shift est
    (least_squares_buffer get_srs_information est grid config i_antenna_port i_rx_port)
    pss
    (phase_shift_offset config pss (get_srs_information (resource config) i_antenna_port)).

(** The records of one call in the order the loops produce them:
    receive ports outermost, antenna ports innermost. *)
Definition collected_records (rnti_value : Z) : list csi_record :=
  i_rx_port ← seq 0 (length (ports config));
  (fun i_antenna_port =>
     make_csi_record config rnti_value i_rx_port i_antenna_port
       (get_srs_information (resource config) i_antenna_port)
       (compensated_lse i_antenna_port i_rx_port))
    <$> seq 0 (nof_antenna_ports (resource config)).

End CoefficientLoop.

(** ** The powers behind the returned RSRP and EPRE *)

Section Powers.

Variable get_srs_information : srs_resource_configuration -> nat -> srs_information.
Variable est : srs_estimator_generic_impl.
Variable grid : resource_grid_reader.
Variable config : srs_estimator_configuration.

(** The squared magnitudes of the wideband coefficients of all pairs,
    added up in the order of the loops: receive ports outermost. *)
Definition coefficient_power : float :=
  foldl (fun acc i_rx_port =>
           foldl (fun acc i_antenna_port =>
                    fadd acc
                      (cnorm (srsvec.mean
                                (compensated_lse get_srs_information est grid config
                                   i_antenna_port i_rx_port))))
                 acc (seq 0 (nof_antenna_ports (resource config))))
        fzero (seq 0 (length (ports config))).

(** The average powers of the received sequences of the antenna ports
    that feed the noise helper (port 0, and port 1 when the pilots are
    interleaved), added up in the order of the loops: antenna ports
    outermost, then receive ports, then symbols. *)
Definition received_power : float :=
  foldl (fun acc i_antenna_port =>
           if feeds_noise get_srs_information config i_antenna_port
           then
             foldl (fun acc i_rx_port_index =>
                      foldl (fun acc i_symbol =>
                               fadd acc
                                 (srsvec.average_power
                                    (received_symbol get_srs_information grid config
                                       i_antenna_port i_rx_port_index i_symbol)))
                            acc
                            (seq (start_symbol (resource config))
                                 (nof_symbols (resource config))))
                   acc (seq 0 (length (ports config)))
           else acc)
        fzero (seq 0 (nof_antenna_ports (resource config))).

End Powers.

(** ** The residual behind the returned noise variance *)

Section Residual.

Variable get_srs_information : srs_resource_configuration -> nat -> srs_information.
Variable est : srs_estimator_generic_impl.
Variable grid : resource_grid_reader.
Variable config : srs_estimator_configuration.

(** The received sequences of an antenna port, added up over the
    symbols onto a zeroed noise helper. *)
Definition symbols_added (i_antenna_port i_rx_port_index : nat) (noise_help : list cf_t)
    : list cf_t :=
  foldl (fun noise_help i_symbol =>
           srsvec.add
             (received_symbol get_srs_information grid config
                i_antenna_port i_rx_port_index i_symbol)
             noise_help)
        noise_help
        (seq (start_symbol (resource config)) (nof_symbols (resource config))).

Definition noise_sum (i_antenna_port i_rx_port_index : nat) : list cf_t :=
  symbols_added i_antenna_port i_rx_port_index
    (replicate (common_sequence_length get_srs_information config) czero).

(** "We recover the signal by multiplying the SRS sequence by the
    channel coefficient ... the reconstructed symbol must also be counted
    nof_symbols times." *)
Definition recovered_signal (i_antenna_port i_rx_port : nat) : list cf_t :=
  srsvec.sc_prod_c (pilot_sequence get_srs_information est config i_antenna_port)
    (cscale (float_of_Z (Z.of_nat (nof_symbols (resource config))))
       (srsvec.mean
          (compensated_lse get_srs_information est grid config i_antenna_port i_rx_port))).

(** The noise helper of one parity and receive port at the end: the sum
    of the received sequences of the antenna port that feeds it,
    compensated like the least-squares buffer of that port, minus the
    recovered signal of every antenna port of the parity. *)
Definition noise_residual (parity i_rx_port : nat) : list cf_t :=
  let pss :=
    phase_shift_subcarrier config (final_time_alignment get_srs_information est grid config) in
  foldl (fun noise_help i_antenna_port =>
           if noise_parity get_srs_information config i_antenna_port =? parity
           then srsvec.subtract noise_help (recovered_signal i_antenna_port i_rx_port)
           else noise_help)
        (compensate_phase_shift est (noise_sum parity i_rx_port) pss
           (phase_shift_offset config pss (get_srs_information (resource config) parity)))
        (seq 0 (nof_antenna_ports (resource config))).

(** The parities whose view is fed: 0, and 1 with interleaved pilots. *)
Definition fed_parity (parity : nat) : Prop :=
  parity = 0 ∨ (interleaved_pilots get_srs_information config = true ∧ parity = 1).

(** The squared errors of all receive ports, added up in loop order:
    for each receive port the average power of the residual times its
    length; with interleaved pilots both parities count. *)
Definition residual_noise_power : float :=
  foldl (fun acc i_rx_port =>
           let acc :=
             fadd acc
               (fmul (srsvec.average_power (noise_residual 0 i_rx_port))
                     (float_of_Z (Z.of_nat (length (noise_residual 0 i_rx_port))))) in
           if interleaved_pilots get_srs_information config
           then fadd acc
                  (fmul (srsvec.average_power (noise_residual 1 i_rx_port))
                        (float_of_Z (Z.of_nat (length (noise_residual 1 i_rx_port)))))
           else acc)
        fzero (seq 0 (length (ports config))).

End Residual.

(** The squared magnitudes of the summed received sequences
    themselves, for all receive ports (average power times length): what
    the noise helpers hold when nothing has been subtracted from them. *)
Definition unreduced_noise_power
    (get_srs_information : srs_resource_configuration -> nat -> srs_information)
    (grid : resource_grid_reader) (config : srs_estimator_configuration) : float :=
  foldl (fun acc i_rx_port =>
           let acc :=
             fadd acc
               (fmul (srsvec.average_power
                        (noise_sum get_srs_information grid config 0 i_rx_port))
                     (float_of_Z
                        (Z.of_nat
                           (length (noise_sum get_srs_information grid config
                                      0 i_rx_port))))) in
           if interleaved_pilots get_srs_information config
           then fadd acc
                  (fmul (srsvec.average_power
                           (noise_sum get_srs_information grid config 1 i_rx_port))
                        (float_of_Z
                           (Z.of_nat
                              (length (noise_sum get_srs_information grid config
                                         1 i_rx_port)))))
           else acc)
        fzero (seq 0 (length (ports config))).

(** ** The per-RNTI CSI collector *)

Module Collection.

(** "File size limit (100 MB) - creates new file when reached". *)
Definition SRS_CSI_MAX_FILE_SIZE : Z := (100 * 1024 * 1024)%Z.

(** "Output directory". *)
Definition SRS_CSI_OUTPUT_DIR : string := "/var/tmp/srsRAN_Project/SRS_CSI_Log".

(** Arithmetic on [size_t], 64 bits wide. *)
Definition size_t (z : Z) : Z := (z mod 2 ^ 64)%Z.

(** [struct SRSCSICollector].  The two [int] counters are kept as
    integers below [INT_MAX]: signed overflow is undefined, and takes
    more than 2^31 records or file rotations to reach. *)
Record SRSCSICollector : Type := {
  rnti : Z;
  packet_counter : Z;
  file_counter : Z;
  current_file_size : Z;
  current_filename : string;
  session_start_time : string;
  initialized : bool
}.

(** The member initialisers. *)
Definition default_collector : SRSCSICollector :=
  {| rnti := 0;
     packet_counter := 0;
     file_counter := 0;
     current_file_size := 0;
     current_filename := EmptyString;
     session_start_time := EmptyString;
     initialized := false |}.

(** *** The environment

    What the collector asks of the operating system, as answers indexed
    by the number of requests made so far: whether
    [std::filesystem::create_directories] returns (it throws
    [filesystem_error] otherwise), the text [std::strftime] produces for
    the current local time under a format, whether an [std::ofstream]
    opened for appending [is_open], and the microseconds since the epoch. *)
Record environment : Type := {
  create_directories : nat -> string -> bool;
  strftime : nat -> string -> string;
  is_open : nat -> string -> bool;
  timestamp_us : nat -> Z
}.

(** One [operator<<] or [write] call on an open stream, with the value
    it is given. *)
Inductive chunk : Type :=
| text (s : string)
| int64 (v : Z)
| uint16 (v : Z)
| float32 (v : float).

(** The number of bytes a call puts into the file: the characters of a
    text, [sizeof] of a binary value. *)
Definition sizeof (c : chunk) : Z :=
  match c with
  | text s => Z.of_nat (String.length s)
  | int64 _ => 8
  | uint16 _ => 2
  | float32 _ => 4
  end.

Definition chunks_size (chunks : list chunk) : Z :=
  foldr (fun c n => (sizeof c + n)%Z) 0%Z chunks.

(** The number of requests made so far, and what the process has
    appended to each path: one list of chunks for each stream that was
    opened, written and closed.  A write on an open stream is taken to
    succeed. *)
Record world : Type := {
  clock : nat;
  files : gmap string (list (list chunk))
}.

Definition tick (w : world) : world :=
  {| clock := S (clock w); files := files w |}.

Definition appended (w : world) (path : string) : list (list chunk) :=
  default [] (files w !! path).

(** The number of bytes appended to a path. *)
Definition file_size (w : world) (path : string) : Z :=
  foldr (fun chunks n => (chunks_size chunks + n)%Z) 0%Z (appended w path).

Definition append_to (path : string) (chunks : list chunk) (w : world) : world :=
  {| clock := clock w;
     files := <[path := appended w path ++ [chunks]]> (files w) |}.

(** *** Formatting *)

Definition hex_char (d : Z) : ascii :=
  match d with
  | 0 => "0" | 1 => "1" | 2 => "2" | 3 => "3" | 4 => "4" | 5 => "5" | 6 => "6"
  | 7 => "7" | 8 => "8" | 9 => "9" | 10 => "a" | 11 => "b" | 12 => "c"
  | 13 => "d" | 14 => "e" | _ => "f"
  end%char%Z.

Fixpoint hex_go (fuel : nat) (v : Z) (acc : string) : string :=
  match fuel with
  | O => acc
  | S fuel =>
      if (v <=? 0)%Z then acc
      else hex_go fuel (v / 16)%Z (String (hex_char (v mod 16)) acc)
  end.

(** The conversion [%x] of an [unsigned int]. *)
Definition hex (v : Z) : string :=
  if (v <=? 0)%Z then "0" else hex_go (S (Z.to_nat (Z.log2 v))) v EmptyString.

(** The field width 4 with the flag [0]. *)
Definition pad_zero (width : nat) (s : string) : string :=
  String.string_of_list_ascii (replicate (width - String.length s) "0"%char) +:+ s.

(** [std::snprintf(buffer, size, "0x%04x", v)] and the string read back
    from the buffer: at most [size - 1] characters are stored. *)
Definition snprintf_0x04x (size : nat) (v : Z) : string :=
  String.substring 0 (size - 1) ("0x" +:+ pad_zero 4 (hex (v mod 2 ^ 32))).

(** [s.find_last_of(c)]. *)
Fixpoint find_last_of (c : ascii) (s : string) (pos : nat) : option nat :=
  match s with
  | EmptyString => None
  | String a s' =>
      match find_last_of c s' (S pos) with
      | Some i => Some i
      | None => if Ascii.eqb a c then Some pos else None
      end
  end.

(** [s.substr(pos)]. *)
Definition substr (s : string) (pos : nat) : string :=
  String.substring pos (String.length s - pos) s.

Definition quote : string := String "034"%char EmptyString.
Definition newline : string := String "010"%char EmptyString.

(** *** The member functions *)

Definition metadata_path : string := SRS_CSI_OUTPUT_DIR +:+ "/session_metadata.jsonl".

(** "Append to metadata file (JSON Lines format)".  [npos + 1] is zero:
    a file name without a slash is its own base name. *)
Definition write_metadata_entry (env : environment) (event : string)
    (c : SRSCSICollector) (w : world) : world :=
  if is_open env (clock w) metadata_path then
    let w := tick w in
    let time_str := strftime env (clock w) "%Y-%m-%d %H:%M:%S" in
    let w := tick w in
    let basename :=
      substr (current_filename c)
        (match find_last_of "/" (current_filename c) 0 with
         | Some i => S i
         | None => 0
         end) in
    append_to metadata_path
      [text ("{"
             +:+ quote +:+ "rnti" +:+ quote +:+ ":" +:+ pretty (rnti c) +:+ ","
             +:+ quote +:+ "file" +:+ quote +:+ ":" +:+ quote +:+ basename +:+ quote +:+ ","
             +:+ quote +:+ "timestamp" +:+ quote +:+ ":" +:+ quote +:+ time_str +:+ quote +:+ ","
             +:+ quote +:+ "event" +:+ quote +:+ ":" +:+ quote +:+ event +:+ quote
             +:+ "}" +:+ newline)]
      w
  else tick w.

(** "Generate filename: srs_csi_rnti_0xXXXX_TIMESTAMP_N.bin (hex
    format)". *)
Definition data_filename (rnti_value : Z) (session : string) (counter : Z) : string :=
  SRS_CSI_OUTPUT_DIR +:+ "/srs_csi_rnti_" +:+ snprintf_0x04x 8 rnti_value +:+ "_"
    +:+ session +:+ "_" +:+ pretty counter +:+ ".bin".

Definition rotate_file (env : environment) (c : SRSCSICollector) (w : world)
    : SRSCSICollector * world :=
  let file_counter' := (file_counter c + 1)%Z in
  let c' :=
    {| rnti := rnti c;
       packet_counter := packet_counter c;
       file_counter := file_counter';
       current_file_size := 0;
       current_filename := data_filename (rnti c) (session_start_time c) file_counter';
       session_start_time := session_start_time c;
       initialized := initialized c |} in
  if (1 <? file_counter')%Z
  then (c', write_metadata_entry env "file_rotation" c' w)
  else (c', w).

(** A call returns, or throws after the changes it made so far. *)
Inductive outcome (A : Type) : Type :=
| returns (a : A)
| throws (a : A).
Arguments returns {A} a.
Arguments throws {A} a.

Definition initialize (env : environment) (rnti_value : Z)
    (c : SRSCSICollector) (w : world) : outcome (SRSCSICollector * world) :=
  if initialized c then returns (c, w)
  else
    let c :=
      {| rnti := rnti_value;
         packet_counter := packet_counter c;
         file_counter := file_counter c;
         current_file_size := current_file_size c;
         current_filename := current_filename c;
         session_start_time := session_start_time c;
         initialized := initialized c |} in
    if create_directories env (clock w) SRS_CSI_OUTPUT_DIR then
      let w := tick w in
      let time_str := strftime env (clock w) "%Y%m%d_%H%M%S" in
      let w := tick w in
      let c :=
        {| rnti := rnti c;
           packet_counter := packet_counter c;
           file_counter := file_counter c;
           current_file_size := current_file_size c;
           current_filename := current_filename c;
           session_start_time := time_str;
           initialized := initialized c |} in
      let '(c, w) := rotate_file env c w in
      let w := write_metadata_entry env "session_start" c w in
      returns ({| rnti := rnti c;
                  packet_counter := packet_counter c;
                  file_counter := file_counter c;
                  current_file_size := current_file_size c;
                  current_filename := current_filename c;
                  session_start_time := session_start_time c;
                  initialized := true |}, w)
    else throws (c, tick w).

Definition should_write (env : environment) (bytes_to_write : Z)
    (c : SRSCSICollector) (w : world) : bool * SRSCSICollector * world :=
  if initialized c
     && (SRS_CSI_MAX_FILE_SIZE <? size_t (current_file_size c + bytes_to_write))%Z
  then let '(c, w) := rotate_file env c w in (true, c, w)
  else (true, c, w).

Definition update_size (bytes_written : Z) (c : SRSCSICollector) : SRSCSICollector :=
  {| rnti := rnti c;
     packet_counter := packet_counter c;
     file_counter := file_counter c;
     current_file_size := size_t (current_file_size c + bytes_written);
     current_filename := current_filename c;
     session_start_time := session_start_time c;
     initialized := initialized c |}.

Definition get_filename (c : SRSCSICollector) : string := current_filename c.

(** *** The collection block of [estimate] *)

(** The static map [rnti_collectors] and the world it writes to. *)
Record state : Type := {
  rnti_collectors : gmap Z SRSCSICollector;
  outside : world
}.

(** "Write 16-byte header", then "per-tone CSI samples: 12 bytes
    each". *)
Definition record_chunks (ts : Z) (rec : csi_record) : list chunk :=
  [int64 ts; uint16 (rec_rnti rec); uint16 (rec_rx_port rec); uint16 (rec_tx_port rec);
   uint16 (rec_num_tones rec)]
  ++ (rec_samples rec
      ≫= fun '(sc_idx, sym_idx, h_complex) =>
           [uint16 sc_idx; uint16 sym_idx; float32 (re h_complex); float32 (im h_complex)]).

(** From [collector.packet_counter++] to "Update file size tracker":
    the record is appended to the current file of the collector, after a
    rotation when it would not fit, and counted when the file opens. *)
Definition write_record (env : environment) (rec : csi_record) (st : state)
    (collector : SRSCSICollector) (w : world) : state :=
  let rnti_value := rec_rnti rec in
  let collector :=
    {| rnti := rnti collector;
       packet_counter := (packet_counter collector + 1)%Z;
       file_counter := file_counter collector;
       current_file_size := current_file_size collector;
       current_filename := current_filename collector;
       session_start_time := session_start_time collector;
       initialized := initialized collector |} in
  let header_size := 16%Z in
  let sample_size := size_t (Z.of_nat (length (rec_samples rec)) * 12) in
  let total_size := size_t (header_size + sample_size) in
  let '(write, collector, w) := should_write env total_size collector w in
  if write then
    if is_open env (clock w) (get_filename collector) then
      let w := tick w in
      let ts := timestamp_us env (clock w) in
      let w := tick w in
      let w := append_to (get_filename collector) (record_chunks ts rec) w in
      {| rnti_collectors :=
           <[rnti_value := update_size total_size collector]> (rnti_collectors st);
         outside := w |}
    else
      {| rnti_collectors := <[rnti_value := collector]> (rnti_collectors st);
         outside := tick w |}
  else
    {| rnti_collectors := <[rnti_value := collector]> (rnti_collectors st);
       outside := w |}.

(** The block from "Get or create collector for this RNTI" on, for one
    record.  [operator[]] inserts a default collector for a new key, so
    the collector is in the map even when [initialize] throws. *)
Definition collect (env : environment) (st : state) (rec : csi_record) : outcome state :=
  let rnti_value := rec_rnti rec in
  let collector := default default_collector (rnti_collectors st !! rnti_value) in
  match (if initialized collector then returns (collector, outside st)
         else initialize env rnti_value collector (outside st)) with
  | throws (collector, w) =>
      throws {| rnti_collectors := <[rnti_value := collector]> (rnti_collectors st);
                outside := w |}
  | returns (collector, w) => returns (write_record env rec st collector w)
  end.

(** The records of one call in turn; an exception ends the call. *)
Fixpoint collect_all (env : environment) (st : state) (recs : list csi_record)
    : outcome state :=
  match recs with
  | [] => returns st
  | rec :: recs =>
      match collect env st rec with
      | returns st => collect_all env st recs
      | throws st => throws st
      end
  end.

End Collection.

(** [estimate] together with its collection block.  The numerical
    part neither reads nor writes the collectors, so the records of the
    call are handed over in the order the loops produce them; when
    [initialize] throws, the exception leaves [estimate] (only the call
    of [std::stoul] is inside a [try] block) and no result is returned. *)
Definition estimate_and_collect
    (get_srs_information : srs_resource_configuration -> nat -> srs_information)
    (est : srs_estimator_generic_impl) (env : Collection.environment)
    (st : Collection.state) (grid : resource_grid_reader)
    (config : srs_estimator_configuration)
    : option srs_estimator_result * Collection.state :=
  match Collection.collect_all env st (estimate_csi_log get_srs_information est grid config) with
  | Collection.returns st => (Some (estimate get_srs_information est grid config), st)
  | Collection.throws st => (None, st)
  end.

(** A sequence of calls on one process: the collectors and the files
    persist from call to call, also after an exception. *)
Definition serve
    (get_srs_information : srs_resource_configuration -> nat -> srs_information)
    (est : srs_estimator_generic_impl) (env : Collection.environment)
    (st : Collection.state)
    (requests : list (resource_grid_reader * srs_estimator_configuration))
    : Collection.state :=
  foldl (fun st request =>
           (estimate_and_collect get_srs_information est env st request.1 request.2).2)
        st requests.

(** The process at its start: no collector, nothing written. *)
Definition process_start : Collection.state :=
  {| Collection.rnti_collectors := ∅;
     Collection.outside := {| Collection.clock := 0; Collection.files := ∅ |} |}.

(** A check of every integer of a range, by evaluation. *)
Fixpoint all_from (check : Z -> bool) (z : Z) (count : nat) : bool :=
  match count with
  | O => true
  | S count => check z && all_from check (z + 1)%Z count
  end.

(** The hexadecimal tag of an RNTI is [0x] and four digits that
    [std::stoul] reads back as the RNTI. *)
Definition rnti_tag_ok (r : Z) : bool :=
  match Collection.snprintf_0x04x 8 r with
  | String "0" (String "x" digits) =>
      (String.length digits =? 4)%nat
      && match stoul_16 digits with
         | Some v => (v =? r)%Z
         | None => false
         end
  | _ => false
  end.

(** The data files of two worlds agree: every path but that of the
    metadata file has the same content. *)
Definition same_data (w w' : Collection.world) : Prop :=
  ∀ path, path ≠ Collection.metadata_path →
    Collection.files w' !! path = Collection.files w !! path.

(** An initialised collector of the RNTI [k] and the files agree: the
    current file carries the RNTI, the session and the counter in its
    name, its size is the tracked size and within the limit, and no file
    of a later counter exists. *)
Definition tracks (k : Z) (c : Collection.SRSCSICollector) (w : Collection.world) : Prop :=
  Collection.initialized c = true
  ∧ Collection.rnti c = k
  ∧ (0 ≤ Collection.file_counter c)%Z
  ∧ Collection.current_filename c
    = Collection.data_filename k (Collection.session_start_time c) (Collection.file_counter c)
  ∧ Collection.file_size w (Collection.current_filename c) = Collection.current_file_size c
  ∧ (Collection.current_file_size c ≤ Collection.SRS_CSI_MAX_FILE_SIZE)%Z
  ∧ ∀ j, (Collection.file_counter c < j)%Z →
      Collection.files w !! Collection.data_filename k (Collection.session_start_time c) j
      = None.

(** The state a call leaves behind, however it ends. *)
Definition state_after {A} (o : Collection.outcome A) : A :=
  match o with
  | Collection.returns a => a
  | Collection.throws a => a
  end.

(** The character [c] does not occur in [s]. *)
Fixpoint free_of (c : ascii) (s : string) : bool :=
  match s with
  | EmptyString => true
  | String a s' => negb (Ascii.eqb a c) && free_of c s'
  end.

(** A record as [estimate] offers it: the RNTI is a [uint16_t], and the
    record is no larger than a file may grow. *)
Definition record_fits (rec : csi_record) : Prop :=
  (0 ≤ rec_rnti rec < 65536)%Z
  ∧ (16 + 12 * Z.of_nat (length (rec_samples rec)) ≤ Collection.SRS_CSI_MAX_FILE_SIZE)%Z.

(** What the collectors and the files keep from record to record. *)
Record collector_invariant (st : Collection.state) : Prop := {
  inv_keys :
    ∀ k c, Collection.rnti_collectors st !! k = Some c →
      (0 ≤ k < 65536)%Z ∧ (0 ≤ Collection.file_counter c)%Z;
  inv_collector :
    ∀ k c, Collection.rnti_collectors st !! k = Some c →
      Collection.initialized c = true →
      Collection.rnti c = k
      ∧ Collection.current_filename c
        = Collection.data_filename k (Collection.session_start_time c)
            (Collection.file_counter c)
      ∧ Collection.file_size (Collection.outside st) (Collection.current_filename c)
        = Collection.current_file_size c;
  inv_files :
    ∀ path, is_Some (Collection.files (Collection.outside st) !! path) →
      path ≠ Collection.metadata_path →
      ∃ k c j, Collection.rnti_collectors st !! k = Some c
               ∧ Collection.initialized c = true
               ∧ (j ≤ Collection.file_counter c)%Z
               ∧ path = Collection.data_filename k (Collection.session_start_time c) j;
  inv_limit :
    ∀ path, path ≠ Collection.metadata_path →
      (Collection.file_size (Collection.outside st) path
       ≤ Collection.SRS_CSI_MAX_FILE_SIZE)%Z;
  inv_records :
    ∀ path chunks, path ≠ Collection.metadata_path →
      chunks ∈ Collection.appended (Collection.outside st) path →
      ∃ ts rec session counter,
        chunks = Collection.record_chunks ts rec
        ∧ path = Collection.data_filename (rec_rnti rec) session counter
}.

(** The requests whose records fit a file: at least one symbol, and
    sequences of at most (100 MB - 16) / 12 samples. *)
Definition request_fits
    (get_srs_information : srs_resource_configuration -> nat -> srs_information)
    (request : resource_grid_reader * srs_estimator_configuration) : Prop :=
  1 ≤ nof_symbols (resource request.2)
  ∧ ∀ i_antenna_port,
      (16 + 12 * Z.of_nat (sequence_length
                             (get_srs_information (resource request.2) i_antenna_port))
       ≤ Collection.SRS_CSI_MAX_FILE_SIZE)%Z.

(** Two hosts: one on which every request of the collector succeeds,
    and one on which the output directory cannot be created. *)
Module Host.

Definition writable : Collection.environment :=
  {| Collection.create_directories := fun _ _ => true;
     Collection.strftime := fun _ format =>
       if String.eqb format "%Y%m%d_%H%M%S" then "20250101_120000"
       else "2025-01-01 12:00:00";
     Collection.is_open := fun _ _ => true;
     Collection.timestamp_us := fun n => (1735732800000000 + Z.of_nat n)%Z |}.

Definition read_only : Collection.environment :=
  {| Collection.create_directories := fun _ _ => false;
     Collection.strftime := Collection.strftime writable;
     Collection.is_open := fun _ _ => false;
     Collection.timestamp_us := Collection.timestamp_us writable |}.

(** One call of the synthetic scenario, with a context. *)
Definition requests : list (resource_grid_reader * srs_estimator_configuration) :=
  [(Scenario.grid_twos, Scenario.request [0] Scenario.with_context)].

(** The data file the call of [requests] writes on [writable]. *)
Definition data_file : string :=
  Collection.data_filename 17921 "20250101_120000" 1.

(** Calls for two user equipments, with the RNTIs 0x4601 and 0x4602,
    the state they leave on [writable], and the collector that state
    holds for an RNTI. *)
Definition two_ues : list (resource_grid_reader * srs_estimator_configuration) :=
  [(Scenario.grid_twos, Scenario.request [0] Scenario.with_context);
   (Scenario.grid_twos, Scenario.request [0] (Some "sector_id=0 rnti=0x4602"%string));
   (Scenario.grid_twos, Scenario.request [0; 1] Scenario.with_context)].

Definition after_two_ues : Collection.state :=
  serve Scenario.get_srs_information Scenario.estimator writable process_start two_ues.

Definition collector_of (rnti_value : Z) : Collection.SRSCSICollector :=
  default Collection.default_collector
    (Collection.rnti_collectors after_two_ues !! rnti_value).

End Host.

(** ** Comparisons and NaN *)

Lemma SFcompare_antisym (a b : spec_float) :
  SFcompare b a = CompOpp <$> SFcompare a b.
Proof.
  destruct a as [sa|sa| |sa ma ea], b as [sb|sb| |sb mb eb]; simpl; try reflexivity;
    try (destruct sa; reflexivity); try (destruct sb; reflexivity);
    try (destruct sa, sb; reflexivity).
  destruct sa, sb; simpl; try reflexivity.
  - rewrite (Z.compare_antisym ea eb).
    destruct (ea ?= eb)%Z eqn:He; simpl; try reflexivity.
    rewrite !Pos.compare_cont_spec. simpl.
    rewrite (Pos.compare_antisym ma mb). destruct (ma ?= mb)%positive; reflexivity.
  - rewrite (Z.compare_antisym ea eb).
    destruct (ea ?= eb)%Z eqn:He; simpl; try reflexivity.
    rewrite !Pos.compare_cont_spec. simpl.
    rewrite (Pos.compare_antisym ma mb). destruct (ma ?= mb)%positive; reflexivity.
Qed.

Lemma SFcompare_not_nan (a b : spec_float) :
  is_nan a = false → is_nan b = false → is_Some (SFcompare a b).
Proof.
  destruct a, b; simpl; intros; try discriminate; eauto.
Qed.

(** [std::max] returns a value at least its second argument unless a
    NaN is involved. *)
Lemma std_max_ge_r (a b : spec_float) :
  is_nan a = false → is_nan b = false → SFleb b (std_max a b) = true.
Proof.
  intros Ha Hb. unfold std_max, SFltb, SFleb.
  destruct (SFcompare_not_nan a b Ha Hb) as [c Hc]. rewrite Hc.
  destruct c.
  - rewrite SFcompare_antisym, Hc. reflexivity.
  - destruct (SFcompare_not_nan b b Hb Hb) as [c' Hc'].
    pose proof (SFcompare_antisym b b) as Hs. rewrite Hc' in Hs. rewrite Hc'.
    destruct c'; simpl in Hs; try discriminate; reflexivity.
  - rewrite SFcompare_antisym, Hc. reflexivity.
Qed.

(** Rounding a non-negative mantissa never produces a NaN, so the
    product of two finite numbers is a number (possibly an infinity, on
    overflow). *)
Lemma shr_1_nonneg (mrs : shr_record) :
  (0 ≤ shr_m mrs)%Z → (0 ≤ shr_m (shr_1 mrs))%Z.
Proof.
  destruct mrs as [m r s]. simpl. intros Hm.
  destruct m as [|p|p]; simpl; try lia; destruct p; simpl; lia.
Qed.

Lemma iter_pos_shr_1_nonneg (p : positive) (mrs : shr_record) :
  (0 ≤ shr_m mrs)%Z → (0 ≤ shr_m (SpecFloat.iter_pos shr_1 p mrs))%Z.
Proof.
  revert mrs. induction p as [p IH|p IH|]; intros mrs Hm; simpl.
  - apply IH, IH, shr_1_nonneg, Hm.
  - apply IH, IH, Hm.
  - apply shr_1_nonneg, Hm.
Qed.

Lemma shr_fexp_nonneg (prec emax m e : Z) (l : location) :
  (0 ≤ m)%Z → (0 ≤ shr_m (shr_fexp prec emax m e l).1)%Z.
Proof.
  intros Hm. unfold shr_fexp, shr.
  assert (0 ≤ shr_m (shr_record_of_loc m l))%Z as H0.
  { destruct l as [|[]]; simpl; exact Hm. }
  destruct (fexp prec emax (Zdigits2 m + e) - e)%Z; simpl; auto.
  apply iter_pos_shr_1_nonneg, H0.
Qed.

Lemma round_nearest_even_nonneg (m : Z) (l : location) :
  (0 ≤ m)%Z → (0 ≤ round_nearest_even m l)%Z.
Proof.
  intros Hm. destruct l as [|[]]; simpl; try lia. destruct (Z.even m); lia.
Qed.

Lemma binary_round_aux_not_nan (prec emax : Z) (s : bool) (m e : Z) (l : location) :
  (0 ≤ m)%Z → is_nan (binary_round_aux prec emax s m e l) = false.
Proof.
  intros Hm. unfold binary_round_aux.
  pose proof (shr_fexp_nonneg prec emax m e l Hm) as H1.
  destruct (shr_fexp prec emax m e l) as [mrs' e']. simpl in H1.
  pose proof (shr_fexp_nonneg prec emax
                (round_nearest_even (shr_m mrs') (loc_of_shr_record mrs')) e' loc_Exact
                (round_nearest_even_nonneg _ _ H1)) as H2.
  destruct (shr_fexp prec emax _ e' loc_Exact) as [mrs'' e'']. simpl in H2.
  destruct (shr_m mrs'') as [|q|q]; simpl; try reflexivity; try lia.
  destruct (e'' <=? emax - prec)%Z; reflexivity.
Qed.

Lemma fmul_not_nan (x y : float) :
  is_finite x = true → is_finite y = true → is_nan (fmul x y) = false.
Proof.
  destruct x as [sx|sx| |sx mx ex], y as [sy|sy| |sy my ey]; simpl;
    intros Hx Hy; try discriminate; try reflexivity.
  apply binary_round_aux_not_nan. lia.
Qed.

Lemma cscale_not_nan (h : float) (c : cf_t) :
  is_finite h = true → cf_finite c = true → cf_has_nan (cscale h c) = false.
Proof.
  intros Hh Hc. unfold cf_finite in Hc. apply andb_prop in Hc as [Hr Hi].
  unfold cf_has_nan, cscale. simpl.
  rewrite (fmul_not_nan _ _ Hr Hh), (fmul_not_nan _ _ Hi Hh). reflexivity.
Qed.

(** ** Lists, folds and the channel matrix *)

Lemma foldl_invariant {A B} (P : A → Prop) (f : A → B → A) (l : list B) (a : A) :
  P a → (∀ a' x, P a' → P (f a' x)) → P (foldl f a l).
Proof.
  intros Ha Hstep. revert a Ha.
  induction l as [|x l IH]; intros a Ha; simpl; [exact Ha|].
  apply IH, Hstep, Ha.
Qed.

Lemma has_shape_new (nof_rx nof_tx : nat) :
  has_shape (new_channel_matrix nof_rx nof_tx) nof_rx nof_tx.
Proof.
  split.
  - apply length_replicate.
  - apply Forall_replicate, length_replicate.
Qed.

Lemma has_shape_set_coefficient (c : cf_t) (r p nof_rx nof_tx : nat) (m : list (list cf_t)) :
  has_shape m nof_rx nof_tx → has_shape (set_coefficient c r p m) nof_rx nof_tx.
Proof.
  intros [Hlen Hrows]. split.
  - unfold set_coefficient. rewrite length_alter. exact Hlen.
  - unfold set_coefficient. apply Forall_alter; [exact Hrows|].
    intros row _ Hrow. rewrite length_insert. exact Hrow.
Qed.

Lemma has_shape_scale (h : float) (nof_rx nof_tx : nat) (m : list (list cf_t)) :
  has_shape m nof_rx nof_tx → has_shape (scale_matrix h m) nof_rx nof_tx.
Proof.
  intros [Hlen Hrows]. split.
  - unfold scale_matrix. rewrite length_fmap. exact Hlen.
  - unfold scale_matrix. apply Forall_fmap.
    eapply Forall_impl; [exact Hrows|].
    intros row Hrow. simpl. rewrite length_fmap. exact Hrow.
Qed.

Lemma get_coefficient_scale (h : float) (m : list (list cf_t)) (r p : nat) :
  get_coefficient (scale_matrix h m) r p = cscale h <$> get_coefficient m r p.
Proof.
  unfold get_coefficient, scale_matrix. rewrite list_lookup_fmap.
  destruct (m !! r) as [row|]; simpl; [|reflexivity].
  apply list_lookup_fmap.
Qed.

(** ** The skip condition of the collection block *)

Lemma extract_rnti_skipped (context : option string) :
  collection_skipped context ↔ extract_rnti context = None.
Proof.
  unfold collection_skipped, extract_rnti, parsed_rnti. split.
  - intros [->|[(s & -> & Hs)|(s & -> & Hs)]]; [reflexivity| |].
    + destruct (String.index 0 "rnti=0x" s) as [pos|]; [|reflexivity].
      destruct (stoul_16 (rnti_hex_at s pos)); [discriminate|reflexivity].
    + destruct (String.index 0 "rnti=0x" s) as [pos|]; [|reflexivity].
      destruct (stoul_16 (rnti_hex_at s pos)) as [v|]; [|reflexivity].
      change (Some (v mod 2 ^ 16)%Z = Some 0%Z) in Hs.
      injection Hs as Hs. cbv zeta. rewrite Hs. reflexivity.
  - destruct context as [s|]; [|auto]. intros H. right.
    destruct (String.index 0 "rnti=0x" s) as [pos|] eqn:Hi;
      [|left; exists s; rewrite Hi; auto].
    destruct (stoul_16 (rnti_hex_at s pos)) as [v|] eqn:Hv;
      [|left; exists s; rewrite Hi, Hv; auto].
    cbv zeta in H. destruct (v mod 2 ^ 16 =? 0)%Z eqn:Hz; [|discriminate].
    right. exists s. rewrite Hi, Hv. split; [reflexivity|].
    apply Z.eqb_eq in Hz.
    change (Some (v mod 2 ^ 16)%Z = Some 0%Z). rewrite Hz. reflexivity.
Qed.

(** ** What each loop leaves alone *)

Section Frames.

Variable get_srs_information : srs_resource_configuration -> nat -> srs_information.
Variable est : srs_estimator_generic_impl.
Variable grid : resource_grid_reader.
Variable config : srs_estimator_configuration.

Local Abbreviation rx_port_step' := (rx_port_step get_srs_information grid config).
Local Abbreviation antenna_port_step' := (antenna_port_step get_srs_information est grid config).
Local Abbreviation coefficient_step' := (coefficient_step get_srs_information est config).
Local Abbreviation rx_port_coefficients_step' :=
  (rx_port_coefficients_step get_srs_information est config).
Local Abbreviation after_antenna_ports' := (after_antenna_ports get_srs_information est grid config).
Local Abbreviation after_time_alignment' := (after_time_alignment get_srs_information est grid config).
Local Abbreviation after_coefficients' := (after_coefficients get_srs_information est grid config).

(** The transmit-port loop assigns neither the channel matrix, nor
    [noise_var], [rsrp] or the collector's records. *)
Lemma rx_port_step_frame info sequence p acc r :
  result_channel_matrix (rx_port_step' info sequence p acc r).1 = result_channel_matrix acc.1
  ∧ noise_var (rx_port_step' info sequence p acc r).1 = noise_var acc.1
  ∧ rsrp (rx_port_step' info sequence p acc r).1 = rsrp acc.1
  ∧ csi_log (rx_port_step' info sequence p acc r).1 = csi_log acc.1
  ∧ result_time_alignment (rx_port_step' info sequence p acc r).1 = result_time_alignment acc.1
  ∧ all_sequences (rx_port_step' info sequence p acc r).1 = all_sequences acc.1.
Proof.
  unfold rx_port_step. destruct acc as [st port_lse].
  destruct (foldl _ _ _) as [[mean_lse noise_help] epre']. simpl. auto 10.
Qed.

Lemma rx_port_loop_frame info sequence p acc l :
  result_channel_matrix (foldl (rx_port_step' info sequence p) acc l).1
    = result_channel_matrix acc.1
  ∧ noise_var (foldl (rx_port_step' info sequence p) acc l).1 = noise_var acc.1
  ∧ rsrp (foldl (rx_port_step' info sequence p) acc l).1 = rsrp acc.1
  ∧ csi_log (foldl (rx_port_step' info sequence p) acc l).1 = csi_log acc.1
  ∧ result_time_alignment (foldl (rx_port_step' info sequence p) acc l).1
    = result_time_alignment acc.1
  ∧ all_sequences (foldl (rx_port_step' info sequence p) acc l).1 = all_sequences acc.1.
Proof.
  apply (foldl_invariant
           (fun a => result_channel_matrix a.1 = result_channel_matrix acc.1
                     ∧ noise_var a.1 = noise_var acc.1
                     ∧ rsrp a.1 = rsrp acc.1
                     ∧ csi_log a.1 = csi_log acc.1
                     ∧ result_time_alignment a.1 = result_time_alignment acc.1
                     ∧ all_sequences a.1 = all_sequences acc.1)).
  - auto 10.
  - intros a x (H1 & H2 & H3 & H4 & H5 & H6).
    destruct (rx_port_step_frame info sequence p a x) as (G1 & G2 & G3 & G4 & G5 & G6).
    rewrite G1, G2, G3, G4, G5, G6. auto 10.
Qed.

Lemma antenna_port_step_frame st p :
  result_channel_matrix (antenna_port_step' st p) = result_channel_matrix st
  ∧ noise_var (antenna_port_step' st p) = noise_var st
  ∧ rsrp (antenna_port_step' st p) = rsrp st
  ∧ csi_log (antenna_port_step' st p) = csi_log st.
Proof.
  unfold antenna_port_step.
  match goal with |- context [foldl ?f ?a ?l] =>
    destruct (rx_port_loop_frame
                (get_srs_information (resource config) p)
                (sequence_generator (deps est)
                   (common_sequence_length get_srs_information config)
                   (sequence_group (get_srs_information (resource config) p))
                   (sequence_number (get_srs_information (resource config) p))
                   (n_cs (get_srs_information (resource config) p))
                   (n_cs_max (get_srs_information (resource config) p)))
                p a l) as (G1 & G2 & G3 & G4 & _);
    destruct (foldl f a l) as [st' port_lse]
  end.
  simpl in *. auto.
Qed.

Lemma after_antenna_ports_frame :
  result_channel_matrix after_antenna_ports'
    = new_channel_matrix (nof_rx_ports config) (cfg_nof_antenna_ports config)
  ∧ noise_var after_antenna_ports' = fzero
  ∧ rsrp after_antenna_ports' = fzero
  ∧ csi_log after_antenna_ports' = [].
Proof.
  unfold after_antenna_ports.
  apply (foldl_invariant
           (fun st => result_channel_matrix st
                        = new_channel_matrix (nof_rx_ports config) (cfg_nof_antenna_ports config)
                      ∧ noise_var st = fzero ∧ rsrp st = fzero ∧ csi_log st = [])).
  - simpl. auto.
  - intros st p (H1 & H2 & H3 & H4).
    destruct (antenna_port_step_frame st p) as (G1 & G2 & G3 & G4).
    rewrite G1, G2, G3, G4. auto.
Qed.

(** With the collection skipped, a pass of the coefficient loop changes
    [temp_lse] only. *)
Lemma coefficient_step_skipped r st p :
  extract_rnti (context config) = None →
  result_channel_matrix (coefficient_step' r st p) = result_channel_matrix st
  ∧ rsrp (coefficient_step' r st p) = rsrp st
  ∧ temp_noise (coefficient_step' r st p) = temp_noise st
  ∧ csi_log (coefficient_step' r st p) = csi_log st
  ∧ noise_var (coefficient_step' r st p) = noise_var st.
Proof.
  intros Hskip. unfold coefficient_step. rewrite Hskip. simpl. auto.
Qed.

Lemma rx_port_coefficients_step_skipped st r :
  extract_rnti (context config) = None →
  result_channel_matrix (rx_port_coefficients_step' st r) = result_channel_matrix st
  ∧ rsrp (rx_port_coefficients_step' st r) = rsrp st
  ∧ temp_noise (rx_port_coefficients_step' st r) = temp_noise st
  ∧ csi_log (rx_port_coefficients_step' st r) = csi_log st.
Proof.
  intros Hskip. unfold rx_port_coefficients_step. simpl.
  apply (foldl_invariant
           (fun a => result_channel_matrix a = result_channel_matrix st
                     ∧ rsrp a = rsrp st
                     ∧ temp_noise a = temp_noise st
                     ∧ csi_log a = csi_log st)).
  - auto.
  - intros a x (H1 & H2 & H3 & H4).
    destruct (coefficient_step_skipped r a x Hskip) as (G1 & G2 & G3 & G4 & _).
    rewrite G1, G2, G3, G4. auto.
Qed.

Lemma after_coefficients_skipped :
  extract_rnti (context config) = None →
  result_channel_matrix after_coefficients' = result_channel_matrix after_antenna_ports'
  ∧ rsrp after_coefficients' = rsrp after_antenna_ports'
  ∧ temp_noise after_coefficients' = temp_noise after_antenna_ports'
  ∧ csi_log after_coefficients' = csi_log after_antenna_ports'.
Proof.
  intros Hskip. unfold after_coefficients.
  apply (foldl_invariant
           (fun a => result_channel_matrix a = result_channel_matrix after_antenna_ports'
                     ∧ rsrp a = rsrp after_antenna_ports'
                     ∧ temp_noise a = temp_noise after_antenna_ports'
                     ∧ csi_log a = csi_log after_antenna_ports')).
  - simpl. auto.
  - intros a x (H1 & H2 & H3 & H4).
    destruct (rx_port_coefficients_step_skipped a x Hskip) as (G1 & G2 & G3 & G4).
    rewrite G1, G2, G3, G4. auto.
Qed.

(** The channel matrix keeps its shape through the coefficient loop. *)
Lemma coefficient_step_shape r st p nof_rx nof_tx :
  has_shape (result_channel_matrix st) nof_rx nof_tx →
  has_shape (result_channel_matrix (coefficient_step' r st p)) nof_rx nof_tx.
Proof.
  intros Hshape. unfold coefficient_step.
  destruct (extract_rnti (context config)); simpl; [|exact Hshape].
  apply has_shape_set_coefficient, Hshape.
Qed.

Lemma rx_port_coefficients_step_shape st r nof_rx nof_tx :
  has_shape (result_channel_matrix st) nof_rx nof_tx →
  has_shape (result_channel_matrix (rx_port_coefficients_step' st r)) nof_rx nof_tx.
Proof.
  intros Hshape. unfold rx_port_coefficients_step. simpl.
  apply (foldl_invariant (fun a => has_shape (result_channel_matrix a) nof_rx nof_tx));
    [exact Hshape|].
  intros a x Ha. apply coefficient_step_shape, Ha.
Qed.

Lemma after_coefficients_shape :
  has_shape (result_channel_matrix after_coefficients')
    (nof_rx_ports config) (cfg_nof_antenna_ports config).
Proof.
  unfold after_coefficients.
  apply (foldl_invariant
           (fun a => has_shape (result_channel_matrix a)
                       (nof_rx_ports config) (cfg_nof_antenna_ports config))).
  - simpl. destruct after_antenna_ports_frame as (-> & _). apply has_shape_new.
  - intros a x Ha. apply rx_port_coefficients_step_shape, Ha.
Qed.

(** The coefficient loop assigns neither [result.time_alignment] nor
    [epre]. *)
Lemma coefficient_step_time_alignment r st p :
  result_time_alignment (coefficient_step' r st p) = result_time_alignment st
  ∧ epre (coefficient_step' r st p) = epre st.
Proof.
  unfold coefficient_step. destruct (extract_rnti (context config)); simpl; auto.
Qed.

Lemma after_coefficients_time_alignment :
  result_time_alignment after_coefficients'
  = average_time_alignment config (result_time_alignment after_antenna_ports').
Proof.
  unfold after_coefficients.
  apply (foldl_invariant
           (fun a => result_time_alignment a
                     = average_time_alignment config (result_time_alignment after_antenna_ports'))).
  - reflexivity.
  - intros a x Ha. unfold rx_port_coefficients_step. cbn [result_time_alignment].
    apply (foldl_invariant
             (fun b => result_time_alignment b
                       = average_time_alignment config
                           (result_time_alignment after_antenna_ports'))); [exact Ha|].
    intros b y Hb. destruct (coefficient_step_time_alignment x b y) as [-> _]. exact Hb.
Qed.

End Frames.

(** The running combination, field by field. *)
Lemma combine_time_alignment_fold (ms : list time_alignment_measurement)
    (acc : time_alignment_measurement) :
  foldl combine_time_alignment acc ms
  = {| ta_time_alignment := foldl dadd (ta_time_alignment acc) (ta_time_alignment <$> ms);
       ta_resolution := foldl std_max (ta_resolution acc) (ta_resolution <$> ms);
       ta_min := foldl std_max (ta_min acc) (ta_min <$> ms);
       ta_max := foldl std_min (ta_max acc) (ta_max <$> ms) |}.
Proof.
  revert acc. induction ms as [|m ms IH]; intros acc.
  - destruct acc. reflexivity.
  - cbn [foldl fmap list_fmap]. rewrite IH. reflexivity.
Qed.

(** ** The least-squares buffers after the transmit-port loop *)

Section LeastSquares.

Variable get_srs_information : srs_resource_configuration -> nat -> srs_information.
Variable est : srs_estimator_generic_impl.
Variable grid : resource_grid_reader.
Variable config : srs_estimator_configuration.

Local Abbreviation symbol_step' := (symbol_step get_srs_information grid config).
Local Abbreviation rx_port_step' := (rx_port_step get_srs_information grid config).
Local Abbreviation antenna_port_step' := (antenna_port_step get_srs_information est grid config).
Local Abbreviation lse' := (least_squares_buffer get_srs_information est grid config).

(** One pass of the symbol loop, read on [mean_lse]. *)
Lemma symbol_step_mean_lse info p rx_port mean_lse noise_help epre0 i_symbol :
  ∃ noise_help' epre',
    symbol_step' info p rx_port (mean_lse, noise_help, epre0) i_symbol
    = (if i_symbol =? cfg_start_symbol config
       then srsvec.copy (grid_get grid (sequence_length info) rx_port i_symbol
                           (mapping_initial_subcarrier info) (info_comb_size info))
       else srsvec.add (grid_get grid (sequence_length info) rx_port i_symbol
                          (mapping_initial_subcarrier info) (info_comb_size info)) mean_lse,
       noise_help', epre').
Proof.
  unfold symbol_step. destruct (feeds_noise get_srs_information config p); eauto.
Qed.

(** After its first pass the symbol loop adds each further symbol to
    [mean_lse]. *)
Lemma symbol_loop_rest info p rx_port (l : list nat) mean_lse noise_help epre0 :
  Forall (fun i_symbol => i_symbol ≠ cfg_start_symbol config) l →
  (foldl (symbol_step' info p rx_port) (mean_lse, noise_help, epre0) l).1.1
  = foldl (fun raw i_symbol =>
             srsvec.add (grid_get grid (sequence_length info) rx_port i_symbol
                           (mapping_initial_subcarrier info) (info_comb_size info)) raw)
          mean_lse l.
Proof.
  revert mean_lse noise_help epre0.
  induction l as [|i_symbol l IH]; intros mean_lse noise_help epre0 Hl; [reflexivity|].
  apply Forall_cons in Hl as [Hne Hl]. cbn [foldl].
  destruct (symbol_step_mean_lse info p rx_port mean_lse noise_help epre0 i_symbol)
    as (noise_help' & epre' & ->).
  apply Nat.eqb_neq in Hne. rewrite Hne.
  apply IH, Hl.
Qed.

Lemma symbol_loop_mean_lse info p rx_port k mean_lse noise_help epre0 :
  (foldl (symbol_step' info p rx_port) (mean_lse, noise_help, epre0)
         (seq (cfg_start_symbol config) (S k))).1.1
  = foldl (fun raw i_symbol =>
             srsvec.add (grid_get grid (sequence_length info) rx_port i_symbol
                           (mapping_initial_subcarrier info) (info_comb_size info)) raw)
          (grid_get grid (sequence_length info) rx_port (cfg_start_symbol config)
             (mapping_initial_subcarrier info) (info_comb_size info))
          (seq (S (cfg_start_symbol config)) k).
Proof.
  cbn [seq foldl].
  destruct (symbol_step_mean_lse info p rx_port mean_lse noise_help epre0
              (cfg_start_symbol config)) as (noise_help' & epre' & ->).
  rewrite Nat.eqb_refl.
  apply symbol_loop_rest.
  apply Forall_forall. intros x Hx. apply elem_of_seq in Hx. lia.
Qed.

(** One pass of the receive-port loop stores the buffer of its pair. *)
Lemma rx_port_step_temp_lse p r st port_lse :
  1 ≤ nof_symbols (resource config) →
  temp_lse (rx_port_step' (get_srs_information (resource config) p)
              (pilot_sequence get_srs_information est config p) p (st, port_lse) r).1
  = <[(r, p) := lse' p r]> (temp_lse st).
Proof.
  intros Hsym. unfold rx_port_step.
  pose proof (symbol_loop_mean_lse (get_srs_information (resource config) p) p
                (default 0 (ports config !! r))
                (nof_symbols (resource config) - 1)
                (get_view (common_sequence_length get_srs_information config)
                   (temp_lse st) (r, p))
                (get_view (common_sequence_length get_srs_information config)
                   (temp_noise st) (noise_parity get_srs_information config p, r))
                (epre st)) as Hmean.
  replace (S (nof_symbols (resource config) - 1)) with (cfg_nof_symbols config) in Hmean
    by (unfold cfg_nof_symbols; lia).
  destruct (foldl _ _ _) as [[mean_lse noise_help] epre'].
  simpl in Hmean. subst mean_lse. simpl. reflexivity.
Qed.

(** The receive-port loop of antenna port [p] stores the buffers of the
    pairs it has passed and keeps every other view. *)
Lemma rx_port_loop_temp_lse p n st port_lse :
  1 ≤ nof_symbols (resource config) →
  let st' :=
    (foldl (rx_port_step' (get_srs_information (resource config) p)
              (pilot_sequence get_srs_information est config p) p)
           (st, port_lse) (seq 0 n)).1 in
  (∀ r, r < n → temp_lse st' !! (r, p) = Some (lse' p r))
  ∧ (∀ r q, q ≠ p → temp_lse st' !! (r, q) = temp_lse st !! (r, q)).
Proof.
  intros Hsym. cbv zeta. induction n as [|n IH].
  - cbn [seq foldl fst]. split; [intros r Hr; lia|reflexivity].
  - rewrite seq_S, foldl_app. change (0 + n) with n. cbn [foldl].
    destruct IH as [IHin IHout].
    destruct (foldl _ (st, port_lse) (seq 0 n)) as [st1 port_lse1]. cbn [fst] in IHin, IHout.
    rewrite rx_port_step_temp_lse by exact Hsym.
    split.
    + intros r Hr. destruct (decide (r = n)) as [->|Hne].
      * apply lookup_insert_eq.
      * rewrite lookup_insert_ne by congruence. apply IHin. lia.
    + intros r q Hq. rewrite lookup_insert_ne by congruence. apply IHout, Hq.
Qed.

Lemma antenna_port_step_temp_lse st p :
  1 ≤ nof_symbols (resource config) →
  (∀ r, r < nof_rx_ports config → temp_lse (antenna_port_step' st p) !! (r, p) = Some (lse' p r))
  ∧ (∀ r q, q ≠ p → temp_lse (antenna_port_step' st p) !! (r, q) = temp_lse st !! (r, q)).
Proof.
  intros Hsym. unfold antenna_port_step.
  match goal with |- context [foldl ?f (?a, ?pl) ?l] =>
    pose proof (rx_port_loop_temp_lse p (nof_rx_ports config) a pl Hsym) as Hloop;
    change (foldl f (a, pl) l) with
      (foldl (rx_port_step' (get_srs_information (resource config) p)
                (pilot_sequence get_srs_information est config p) p)
             (a, pl) (seq 0 (nof_rx_ports config))) in *
  end.
  destruct (foldl _ _ (seq 0 (nof_rx_ports config))) as [st' port_lse].
  simpl in *. exact Hloop.
Qed.

Lemma antenna_port_loop_temp_lse n :
  1 ≤ nof_symbols (resource config) →
  ∀ r p, r < nof_rx_ports config → p < n →
    temp_lse (foldl antenna_port_step' (initial_locals config) (seq 0 n)) !! (r, p)
    = Some (lse' p r).
Proof.
  intros Hsym. induction n as [|n IH]; intros r p Hr Hp; [lia|].
  rewrite seq_S, foldl_app. simpl.
  destruct (antenna_port_step_temp_lse
              (foldl antenna_port_step' (initial_locals config) (seq 0 n)) n Hsym)
    as [Hin Hout].
  destruct (decide (p = n)) as [->|Hne].
  - apply Hin, Hr.
  - rewrite Hout by exact Hne. apply IH; [exact Hr|lia].
Qed.

(** One pass of the receive-port loop hands the same buffer to the
    time-alignment estimator. *)
Lemma rx_port_step_port_lse p r st port_lse :
  1 ≤ nof_symbols (resource config) →
  (rx_port_step' (get_srs_information (resource config) p)
     (pilot_sequence get_srs_information est config p) p (st, port_lse) r).2
  = <[r := lse' p r]> port_lse.
Proof.
  intros Hsym. unfold rx_port_step.
  pose proof (symbol_loop_mean_lse (get_srs_information (resource config) p) p
                (default 0 (ports config !! r))
                (nof_symbols (resource config) - 1)
                (get_view (common_sequence_length get_srs_information config)
                   (temp_lse st) (r, p))
                (get_view (common_sequence_length get_srs_information config)
                   (temp_noise st) (noise_parity get_srs_information config p, r))
                (epre st)) as Hmean.
  replace (S (nof_symbols (resource config) - 1)) with (cfg_nof_symbols config) in Hmean
    by (unfold cfg_nof_symbols; lia).
  destruct (foldl _ _ _) as [[mean_lse noise_help] epre'].
  simpl in Hmean. subst mean_lse. simpl. reflexivity.
Qed.

Lemma rx_port_loop_port_lse p n st port_lse :
  1 ≤ nof_symbols (resource config) →
  n ≤ length port_lse →
  (foldl (rx_port_step' (get_srs_information (resource config) p)
            (pilot_sequence get_srs_information est config p) p)
         (st, port_lse) (seq 0 n)).2
  = (lse' p <$> seq 0 n) ++ drop n port_lse.
Proof.
  intros Hsym. induction n as [|n IH]; intros Hn.
  - cbn [seq foldl snd fmap list_fmap app]. rewrite drop_0. reflexivity.
  - rewrite seq_S, foldl_app. change (0 + n) with n. cbn [foldl].
    specialize (IH ltac:(lia)).
    destruct (foldl _ (st, port_lse) (seq 0 n)) as [st1 port_lse1]. cbn [snd] in IH.
    rewrite rx_port_step_port_lse by exact Hsym. subst port_lse1.
    destruct (lookup_lt_is_Some_2 port_lse n) as [y Hy]; [lia|].
    rewrite (drop_S _ _ _ Hy).
    rewrite insert_app_r_alt by (rewrite length_fmap, length_seq; lia).
    rewrite length_fmap, length_seq, Nat.sub_diag. cbn [insert list_insert].
    rewrite fmap_app. cbn [fmap list_fmap]. rewrite <- app_assoc. reflexivity.
Qed.

(** One pass of the transmit-port loop combines the measurement of its
    port into [result.time_alignment]. *)
Lemma antenna_port_step_time_alignment st p :
  1 ≤ nof_symbols (resource config) →
  result_time_alignment (antenna_port_step' st p)
  = combine_time_alignment (result_time_alignment st)
      (port_measurement get_srs_information est grid config p).
Proof.
  intros Hsym. unfold antenna_port_step.
  match goal with |- context [foldl ?f (?a, ?pl) ?l] =>
    pose proof (rx_port_loop_port_lse p (nof_rx_ports config) a pl Hsym) as Hlse;
    pose proof (rx_port_loop_frame get_srs_information grid config
                  (get_srs_information (resource config) p)
                  (pilot_sequence get_srs_information est config p) p (a, pl)
                  (seq 0 (nof_rx_ports config))) as (_ & _ & _ & _ & Hta & _);
    change (foldl f (a, pl) l) with
      (foldl (rx_port_step' (get_srs_information (resource config) p)
                (pilot_sequence get_srs_information est config p) p)
             (a, pl) (seq 0 (nof_rx_ports config))) in *
  end.
  rewrite length_replicate in Hlse. specialize (Hlse ltac:(lia)).
  rewrite drop_replicate, Nat.sub_diag, app_nil_r in Hlse.
  destruct (foldl _ _ (seq 0 (nof_rx_ports config))) as [st' port_lse].
  cbn [fst snd] in *. subst port_lse. cbn [result_time_alignment].
  rewrite Hta. reflexivity.
Qed.

Lemma antenna_port_loop_time_alignment n :
  1 ≤ nof_symbols (resource config) →
  result_time_alignment (foldl antenna_port_step' (initial_locals config) (seq 0 n))
  = foldl combine_time_alignment initial_time_alignment
      (port_measurement get_srs_information est grid config <$> seq 0 n).
Proof.
  intros Hsym. induction n as [|n IH]; [reflexivity|].
  rewrite seq_S, fmap_app, !foldl_app. change (0 + n) with n. cbn [foldl fmap list_fmap].
  rewrite antenna_port_step_time_alignment by exact Hsym.
  rewrite IH. reflexivity.
Qed.

End LeastSquares.

(** ** The divisor of the noise variance *)

(** When neither the subtraction nor the products leave the range of
    [unsigned], the divisor is the exact integer expression. *)
Lemma noise_divisor_no_wrap get_srs_information config :
  let samples :=
    (Z.of_nat (cfg_nof_symbols config)
     * Z.of_nat (common_sequence_length get_srs_information config))%Z in
  let n_estimates := nof_estimates get_srs_information config in
  let correction := correction_factor get_srs_information config in
  (n_estimates ≤ samples < 2 ^ 32)%Z →
  ((samples - n_estimates) * correction * Z.of_nat (nof_rx_ports config) < 2 ^ 32)%Z →
  noise_divisor get_srs_information config
  = ((samples - n_estimates) * correction * Z.of_nat (nof_rx_ports config))%Z.
Proof.
  cbv zeta. intros Hsub Hprod. unfold noise_divisor.
  set (N := Z.of_nat (cfg_nof_symbols config)) in *.
  set (L := Z.of_nat (common_sequence_length get_srs_information config)) in *.
  set (R := Z.of_nat (nof_rx_ports config)) in *.
  assert (0 ≤ R)%Z as HR by (subst R; lia).
  assert (0 ≤ N * L)%Z as HNL by (subst N L; lia).
  assert (0 ≤ nof_estimates get_srs_information config)%Z as HE.
  { unfold nof_estimates. destruct (interleaved_pilots get_srs_information config); lia. }
  assert (1 ≤ correction_factor get_srs_information config ≤ 2)%Z as HC.
  { unfold correction_factor. destruct (interleaved_pilots get_srs_information config); lia. }
  set (E := nof_estimates get_srs_information config) in *.
  set (C := correction_factor get_srs_information config) in *.
  assert (u32 (N * L) = N * L)%Z as H1 by (apply Z.mod_small; lia).
  rewrite H1.
  assert (u32 (N * L - E) = N * L - E)%Z as H2 by (apply Z.mod_small; lia).
  rewrite H2.
  destruct (Z.eq_dec R 0%Z) as [HR0|HR0].
  - rewrite HR0, !Z.mul_0_r. reflexivity.
  - assert (0 ≤ (N * L - E) * C)%Z as HP by nia.
    assert ((N * L - E) * C ≤ (N * L - E) * C * R)%Z as HPR by nia.
    assert (u32 ((N * L - E) * C) = (N * L - E) * C)%Z as H3
      by (apply Z.mod_small; lia).
    rewrite H3. apply Z.mod_small. nia.
Qed.

Lemma noise_divisor_exact get_srs_information config max_seq_length max_nof_rx_ports :
  valid_request get_srs_information config max_seq_length max_nof_rx_ports →
  (4 * Z.of_nat max_seq_length * 2 * Z.of_nat max_nof_rx_ports < 2 ^ 32)%Z →
  let samples :=
    (Z.of_nat (cfg_nof_symbols config)
     * Z.of_nat (common_sequence_length get_srs_information config))%Z in
  let n_estimates := nof_estimates get_srs_information config in
  let correction := correction_factor get_srs_information config in
  u32 samples = samples
  ∧ u32 (u32 samples - n_estimates) = (samples - n_estimates)%Z
  ∧ (0 < samples - n_estimates)%Z
  ∧ noise_divisor get_srs_information config
    = ((samples - n_estimates) * correction * Z.of_nat (nof_rx_ports config))%Z
  ∧ (0 < noise_divisor get_srs_information config)%Z.
Proof.
  intros [_ Hsym Hant _ Hne _ Hrx _ Hlen Hdof] Hcap. cbv zeta.
  pose proof (noise_divisor_no_wrap get_srs_information config) as Hdiv.
  cbv zeta in Hdiv.
  unfold nof_rx_ports, common_sequence_length, common_info, cfg_nof_symbols in *.
  set (N := Z.of_nat (nof_symbols (resource config))) in *.
  set (L := Z.of_nat (sequence_length (get_srs_information (resource config) 0))) in *.
  set (R := Z.of_nat (length (ports config))) in *.
  assert (1 ≤ N ≤ 4)%Z as HN.
  { subst N. rewrite !elem_of_cons, elem_of_nil in Hsym. lia. }
  assert (0 ≤ L ≤ Z.of_nat max_seq_length)%Z as HL by (subst L; lia).
  assert (1 ≤ R ≤ Z.of_nat max_nof_rx_ports)%Z as HR by (subst R; lia).
  assert (1 ≤ nof_estimates get_srs_information config)%Z as HE.
  { unfold nof_estimates, cfg_nof_antenna_ports.
    destruct (interleaved_pilots get_srs_information config); [lia|].
    rewrite !elem_of_cons, elem_of_nil in Hant. lia. }
  assert (1 ≤ correction_factor get_srs_information config ≤ 2)%Z as HC.
  { unfold correction_factor. destruct (interleaved_pilots get_srs_information config); lia. }
  set (E := nof_estimates get_srs_information config) in *.
  set (C := correction_factor get_srs_information config) in *.
  assert (N * L ≤ 4 * Z.of_nat max_seq_length)%Z as HNL by nia.
  assert ((N * L - E) * C ≤ 4 * Z.of_nat max_seq_length * 2)%Z as HNC by nia.
  assert (u32 (N * L) = N * L)%Z as H1 by (apply Z.mod_small; nia).
  rewrite H1.
  assert (u32 (N * L - E) = N * L - E)%Z as H2 by (apply Z.mod_small; nia).
  rewrite Hdiv by nia.
  repeat split; try assumption; nia.
Qed.

(** What a valid request gives the theorems below: at least one symbol,
    and a divisor inside the range of [unsigned]. *)
Lemma valid_request_has_symbol get_srs_information config max_seq_length max_nof_rx_ports :
  valid_request get_srs_information config max_seq_length max_nof_rx_ports →
  1 ≤ nof_symbols (resource config).
Proof.
  intros [_ Hsym _ _ _ _ _ _ _ _]. rewrite !elem_of_cons, elem_of_nil in Hsym. lia.
Qed.

Lemma valid_request_fits get_srs_information config max_seq_length max_nof_rx_ports :
  valid_request get_srs_information config max_seq_length max_nof_rx_ports →
  (4 * Z.of_nat max_seq_length * 2 * Z.of_nat max_nof_rx_ports < 2 ^ 32)%Z →
  let samples :=
    (Z.of_nat (cfg_nof_symbols config)
     * Z.of_nat (common_sequence_length get_srs_information config))%Z in
  let n_estimates := nof_estimates get_srs_information config in
  let correction := correction_factor get_srs_information config in
  (n_estimates ≤ samples < 2 ^ 32)%Z
  ∧ ((samples - n_estimates) * correction * Z.of_nat (nof_rx_ports config) < 2 ^ 32)%Z.
Proof.
  intros Hvalid Hcap. cbv zeta.
  destruct (noise_divisor_exact _ _ _ _ Hvalid Hcap) as (H1 & _ & H3 & H4 & _).
  cbv zeta in *. unfold u32 in H1.
  pose proof (Z.mod_pos_bound
                (Z.of_nat (cfg_nof_symbols config)
                 * Z.of_nat (common_sequence_length get_srs_information config))
                (2 ^ 32) ltac:(lia)) as Hb1.
  rewrite H1 in Hb1.
  pose proof (Z.mod_pos_bound
                (u32 (u32 (u32 (Z.of_nat (cfg_nof_symbols config)
                                * Z.of_nat (common_sequence_length get_srs_information config))
                           - nof_estimates get_srs_information config)
                      * correction_factor get_srs_information config)
                 * Z.of_nat (nof_rx_ports config))
                (2 ^ 32) ltac:(lia)) as Hb2.
  fold (u32 (u32 (u32 (u32 (Z.of_nat (cfg_nof_symbols config)
                           * Z.of_nat (common_sequence_length get_srs_information config))
                      - nof_estimates get_srs_information config)
                 * correction_factor get_srs_information config)
            * Z.of_nat (nof_rx_ports config))) in Hb2.
  fold (noise_divisor get_srs_information config) in Hb2.
  rewrite H4 in Hb2. lia.
Qed.

Lemma scenario_valid (rx_ports : list nat) (ctx : option string) :
  0 < length rx_ports → NoDup rx_ports → length rx_ports ≤ Scenario.max_nof_rx_ports →
  valid_request Scenario.get_srs_information (Scenario.request rx_ports ctx)
    Scenario.max_seq_length Scenario.max_nof_rx_ports.
Proof.
  intros Hne Hnd Hmax. split; simpl; try done.
  - set_solver.
  - set_solver.
  - set_solver.
  - unfold Scenario.max_seq_length. lia.
Qed.

Lemma has_shape_lookup (m : list (list cf_t)) (nof_rx nof_tx r p : nat) :
  has_shape m nof_rx nof_tx → r < nof_rx → p < nof_tx →
  ∃ c, get_coefficient m r p = Some c.
Proof.
  intros [Hlen Hrows] Hr Hp. unfold get_coefficient.
  destruct (lookup_lt_is_Some_2 m r) as [row Hrow]; [lia|].
  rewrite Hrow. simpl.
  rewrite Forall_lookup in Hrows. specialize (Hrows r row Hrow).
  destruct (lookup_lt_is_Some_2 row p) as [c Hc]; [lia|]. eauto.
Qed.

(** ** The phase-shift compensator *)

Lemma round_to_int_in_range (x : float) (k : Z) :
  std_round x = Some k → (INT_MIN ≤ k ≤ INT_MAX)%Z → round_to_int x = k.
Proof.
  intros Hx Hk. unfold round_to_int. rewrite Hx.
  destruct (INT_MIN <=? k)%Z eqn:H1; [|apply Z.leb_gt in H1; lia].
  destruct (k <=? INT_MAX)%Z eqn:H2; [|apply Z.leb_gt in H2; lia].
  reflexivity.
Qed.

(** Reducing an [unsigned] modulo a table size that divides 2^32 gives
    the residue of the signed value. *)
Lemma u32_mod_table (k table_size : Z) :
  (table_size | 2 ^ 32)%Z → (u32 k mod table_size = k mod table_size)%Z.
Proof. intros Hdiv. unfold u32. apply Z.mod_mod_divide, Hdiv. Qed.

Lemma compensate_phase_shift_length est mean_lse pss pso :
  length (compensate_phase_shift est mean_lse pss pso) = length mean_lse.
Proof.
  unfold compensate_phase_shift, srsvec.prod, cexp_table_generate.
  rewrite length_zip_with, !length_fmap, length_seq. lia.
Qed.

Lemma compensate_phase_shift_lookup est mean_lse pss pso n x :
  mean_lse !! n = Some x →
  compensate_phase_shift est mean_lse pss pso !! n
  = Some (cmul (default czero
                  (cexp_table est
                   !! Z.to_nat (phase_index (cexp_table_size est) pss pso n
                                mod cexp_table_size est)))
               x).
Proof.
  intros Hx. unfold compensate_phase_shift, srsvec.prod, cexp_table_generate.
  rewrite lookup_zip_with, !list_lookup_fmap.
  rewrite lookup_seq_lt by (eapply lookup_lt_Some; exact Hx).
  simpl. rewrite Hx. reflexivity.
Qed.

(** ** The properties of the specification *)

(** C1 (the optional context never influences the returned value): the
    code breaks it.  On the synthetic scenario, with every sample [2+0j],
    the request without a context returns a zero channel matrix, while the
    same request with the context "sector_id=0 rnti=0x4601" returns the
    coefficient 100 (the wideband coefficient 2 over the noise floor
    0.02); the two results differ. *)
Theorem context_changes_estimate :
  let absent :=
    estimate Scenario.get_srs_information Scenario.estimator Scenario.grid_twos
      (Scenario.request [0] Scenario.without_context) in
  let present :=
    estimate Scenario.get_srs_information Scenario.estimator Scenario.grid_twos
      (Scenario.request [0] Scenario.with_context) in
  channel_matrix absent = [[czero]]
  ∧ channel_matrix present = [[Scenario.cf_of_Z 100 0]]
  ∧ noise_variance present = fzero
  ∧ fltb fzero (noise_variance absent) = true
  ∧ absent ≠ present.
Proof.
  cbv zeta. repeat split; try (vm_compute; reflexivity).
  intros Heq. apply (f_equal channel_matrix) in Heq. vm_compute in Heq. discriminate.
Qed.

(** C2 (with the context absent, without a parseable [rnti=0x] token, or
    with a parsed RNTI of zero, each pass of the coefficient loop is left
    at the collection block): every such pass leaves the channel matrix,
    the RSRP numerator, the noise-helper buffers and the collector's
    records as they were, so when the normalisation starts the channel
    matrix is still the zero matrix it was created as, the RSRP numerator
    is zero and the noise-helper buffers are those of the transmit-port
    loop. *)
Theorem skipped_collection_skips_coefficients get_srs_information est grid config :
  collection_skipped (context config) →
  (∀ i_rx_port st i_antenna_port,
     let st' := coefficient_step get_srs_information est config i_rx_port st i_antenna_port in
     result_channel_matrix st' = result_channel_matrix st
     ∧ rsrp st' = rsrp st
     ∧ temp_noise st' = temp_noise st
     ∧ csi_log st' = csi_log st)
  ∧ result_channel_matrix (after_coefficients get_srs_information est grid config)
    = new_channel_matrix (length (ports config)) (nof_antenna_ports (resource config))
  ∧ rsrp (after_coefficients get_srs_information est grid config) = fzero
  ∧ temp_noise (after_coefficients get_srs_information est grid config)
    = temp_noise (after_antenna_ports get_srs_information est grid config)
  ∧ estimate_csi_log get_srs_information est grid config = [].
Proof.
  intros Hskip. apply extract_rnti_skipped in Hskip.
  split.
  { intros r st p. cbv zeta.
    destruct (coefficient_step_skipped get_srs_information est config r st p Hskip)
      as (H1 & H2 & H3 & H4 & _).
    auto. }
  destruct (after_coefficients_skipped get_srs_information est grid config Hskip)
    as (H1 & H2 & H3 & H4).
  destruct (after_antenna_ports_frame get_srs_information est grid config)
    as (G1 & _ & G3 & G4).
  unfold estimate_csi_log. rewrite H1, H2, H3, H4, G1, G3, G4. auto.
Qed.

Lemma skipped_collection_skips_coefficients_witness :
  result_channel_matrix
    (after_coefficients Scenario.get_srs_information Scenario.estimator Scenario.grid_twos
       (Scenario.request [0] Scenario.without_context))
  = new_channel_matrix 1 1.
Proof.
  apply (skipped_collection_skips_coefficients Scenario.get_srs_information
           Scenario.estimator Scenario.grid_twos
           (Scenario.request [0] Scenario.without_context)).
  left. reflexivity.
Defined.

(** The returned channel matrix has shape |rx_ports| × |tx_ports|, and
    each entry is the coefficient stored for its pair multiplied by the
    factor 1/noise_std; the entry is free of NaN whenever that
    coefficient and the factor are finite (it may still overflow to an
    infinity). *)
Theorem channel_matrix_shape_and_scaling get_srs_information est grid config :
  let result := estimate get_srs_information est grid config in
  let stored := result_channel_matrix (after_coefficients get_srs_information est grid config) in
  let factor := normalization_factor get_srs_information est grid config in
  has_shape (channel_matrix result) (length (ports config)) (nof_antenna_ports (resource config))
  ∧ ∀ r p, r < length (ports config) → p < nof_antenna_ports (resource config) →
      ∃ c0,
        get_coefficient stored r p = Some c0
        ∧ get_coefficient (channel_matrix result) r p = Some (cscale factor c0)
        ∧ (cf_finite c0 = true → is_finite factor = true →
           cf_has_nan (cscale factor c0) = false).
Proof.
  cbv zeta.
  pose proof (after_coefficients_shape get_srs_information est grid config) as Hshape.
  split.
  - unfold estimate. simpl. apply has_shape_scale, Hshape.
  - intros r p Hr Hp.
    destruct (has_shape_lookup _ _ _ r p Hshape Hr Hp) as [c0 Hc0].
    exists c0. split; [exact Hc0|]. split.
    + unfold estimate. simpl. rewrite get_coefficient_scale, Hc0. reflexivity.
    + intros Hfin Hfac. apply cscale_not_nan; assumption.
Qed.

Lemma channel_matrix_shape_and_scaling_witness :
  ∃ c0,
    get_coefficient
      (result_channel_matrix
         (after_coefficients Scenario.get_srs_information Scenario.estimator
            Scenario.grid_twos (Scenario.request [0] Scenario.with_context))) 0 0
    = Some c0
    ∧ cf_has_nan
        (cscale (normalization_factor Scenario.get_srs_information Scenario.estimator
                   Scenario.grid_twos (Scenario.request [0] Scenario.with_context)) c0)
      = false.
Proof.
  destruct (channel_matrix_shape_and_scaling Scenario.get_srs_information
              Scenario.estimator Scenario.grid_twos
              (Scenario.request [0] Scenario.with_context)) as [_ Hentries].
  destruct (Hentries 0 0 ltac:(simpl; lia) ltac:(simpl; lia)) as (c0 & Hc0 & _ & Hnan).
  exists c0. split; [exact Hc0|]. apply Hnan.
  - vm_compute in Hc0. injection Hc0 as <-. reflexivity.
  - vm_compute. reflexivity.
Defined.

(** C3 (shape |rx_ports| × |tx_ports|, every entry finite): the code
    keeps the shape for every request and breaks the finiteness.  The
    clamp floors [noise_std] by sqrt(rsrp) × 0.01 and by nothing else.
    On the synthetic scenario with noiseless samples [2+0j] it does what
    the comment "avoid huge coefficients if the noise variance is too
    low" says: the noise variance is zero, [noise_std] is the floor
    sqrt(4) × 0.01 and the entry is the finite 100.  With an all-zero
    grid the RSRP numerator is zero as well: [noise_std] is
    max(sqrt 0, sqrt 0 × 0.01) = 0, the factor 1/noise_std is +infinity
    and the returned entry 0 × infinity is NaN in both components. *)
Theorem channel_matrix_entry_nan_on_zero_grid :
  let request := Scenario.request [0] Scenario.with_context in
  let estimate_on grid :=
    estimate Scenario.get_srs_information Scenario.estimator grid request in
  let rsrp_sum grid :=
    rsrp (after_coefficients Scenario.get_srs_information Scenario.estimator grid request) in
  let clamp grid :=
    std_max (fsqrt (noise_variance (estimate_on grid)))
            (fmul (fsqrt (rsrp_sum grid)) f_0_01) in
  (∀ get_srs_information est grid config,
     has_shape (channel_matrix (estimate get_srs_information est grid config))
       (length (ports config)) (nof_antenna_ports (resource config)))
  ∧ (noise_variance (estimate_on Scenario.grid_twos) = fzero
     ∧ rsrp_sum Scenario.grid_twos = float_of_Z 4
     ∧ clamp Scenario.grid_twos = fmul (float_of_Z 2) f_0_01
     ∧ get_coefficient (channel_matrix (estimate_on Scenario.grid_twos)) 0 0
       = Some (cscale (fdiv fone (clamp Scenario.grid_twos)) (Scenario.cf_of_Z 2 0))
     ∧ get_coefficient (channel_matrix (estimate_on Scenario.grid_twos)) 0 0
       = Some (Scenario.cf_of_Z 100 0)
     ∧ cf_finite (Scenario.cf_of_Z 100 0) = true)
  ∧ (noise_variance (estimate_on Scenario.grid_zeros) = fzero
     ∧ rsrp_sum Scenario.grid_zeros = fzero
     ∧ clamp Scenario.grid_zeros = fzero
     ∧ fdiv fone (clamp Scenario.grid_zeros) = S754_infinity false
     ∧ get_coefficient (channel_matrix (estimate_on Scenario.grid_zeros)) 0 0
       = Some (cscale (fdiv fone (clamp Scenario.grid_zeros)) czero)
     ∧ get_coefficient (channel_matrix (estimate_on Scenario.grid_zeros)) 0 0
       = Some (Cf S754_nan S754_nan)
     ∧ cf_finite (Cf S754_nan S754_nan) = false).
Proof.
  cbv zeta. split; [|split].
  - intros get_srs_information est grid config. unfold estimate. cbn [channel_matrix].
    apply has_shape_scale, after_coefficients_shape.
  - repeat split; vm_compute; reflexivity.
  - repeat split; vm_compute; reflexivity.
Qed.

(** C4 (the bounds start from the widest representable range, so the
    returned [min] is the maximum of the per-port mins): the code breaks
    it.  The lower bound starts at [std::numeric_limits<double>::min()],
    the smallest positive double, so on the synthetic scenario, where the
    only port reports the window [-max_ta, max_ta], the returned [min]
    is 2^-1022 and not the port's [-max_ta], which the widest range
    (starting from [lowest()]) would give; the other three fields are the
    port's. *)
Theorem time_alignment_min_starts_at_smallest_positive :
  let request := Scenario.request [0] Scenario.with_context in
  let result :=
    estimate Scenario.get_srs_information Scenario.estimator Scenario.grid_twos request in
  let port_meas :=
    ta_estimator Scenario.collaborators [] 4 0
      (max_ta Scenario.get_srs_information request) in
  dltb (ta_min port_meas) dzero = true
  ∧ std_max numeric_limits_double_lowest (ta_min port_meas) = ta_min port_meas
  ∧ ta_min (time_alignment result) = numeric_limits_double_min
  ∧ dltb (ta_min port_meas) (ta_min (time_alignment result)) = true
  ∧ ta_max (time_alignment result) = ta_max port_meas
  ∧ ta_resolution (time_alignment result) = ta_resolution port_meas
  ∧ ta_time_alignment (time_alignment result) = ta_time_alignment port_meas.
Proof. cbv zeta. repeat split; vm_compute; reflexivity. Qed.

(** C5, as the code has it: every channel-matrix entry is scaled by
    1/noise_std with noise_std = max(sqrt(noise_variance), sqrt(rsrp_sum)
    × 0.01), where noise_variance is the returned (normalised) value and
    rsrp_sum is the RSRP numerator before its division by num_tx_ports ×
    num_rx_ports (the returned rsrp is rsrp_sum over that product);
    noise_std is at least sqrt(rsrp_sum) × 0.01 whenever neither operand
    of the maximum is NaN. *)
Theorem noise_std_clamp get_srs_information est grid config :
  let result := estimate get_srs_information est grid config in
  let st := after_coefficients get_srs_information est grid config in
  let floor := fmul (fsqrt (rsrp st)) f_0_01 in
  let std := noise_std get_srs_information est grid config in
  std = std_max (fsqrt (noise_variance result)) floor
  ∧ channel_matrix result = scale_matrix (fdiv fone std) (result_channel_matrix st)
  ∧ rsrp_dB result
    = convert_power_to_dB
        (fdiv (rsrp st)
              (float_of_Z (u32 (Z.of_nat (nof_antenna_ports (resource config))
                                * Z.of_nat (length (ports config))))))
  ∧ (is_nan (fsqrt (noise_variance result)) = false → is_nan floor = false →
     fleb floor std = true).
Proof.
  cbv zeta. repeat split.
  intros Hvar Hfloor. unfold noise_std, fleb.
  apply std_max_ge_r; assumption.
Qed.

Lemma noise_std_clamp_witness :
  fleb
    (fmul (fsqrt (rsrp (after_coefficients Scenario.get_srs_information Scenario.estimator
                          Scenario.grid_twos (Scenario.request [0; 1] Scenario.with_context))))
          f_0_01)
    (noise_std Scenario.get_srs_information Scenario.estimator Scenario.grid_twos
       (Scenario.request [0; 1] Scenario.with_context))
  = true.
Proof.
  apply (noise_std_clamp Scenario.get_srs_information Scenario.estimator
           Scenario.grid_twos (Scenario.request [0; 1] Scenario.with_context));
    vm_compute; reflexivity.
Defined.

(** C5, as stated, fails: with two receive ports and noiseless samples
    [2+0j] the RSRP numerator is 8 and the returned rsrp is 4;
    [noise_std] is sqrt(8) × 0.01, above the value
    max(sqrt(noise_variance), sqrt(rsrp) × 0.01) = 0.02 that the
    normalised rsrp gives. *)
Lemma noise_std_uses_rsrp_sum :
  let request := Scenario.request [0; 1] Scenario.with_context in
  let result :=
    estimate Scenario.get_srs_information Scenario.estimator Scenario.grid_twos request in
  let returned_rsrp :=
    normalized_rsrp Scenario.get_srs_information Scenario.estimator Scenario.grid_twos request in
  rsrp_dB result = convert_power_to_dB returned_rsrp
  ∧ returned_rsrp = float_of_Z 4
  ∧ noise_variance result = fzero
  ∧ fltb (std_max (fsqrt (noise_variance result)) (fmul (fsqrt returned_rsrp) f_0_01))
         (noise_std Scenario.get_srs_information Scenario.estimator Scenario.grid_twos request)
    = true.
Proof. cbv zeta. repeat split; vm_compute; reflexivity. Qed.

Lemma even_half_le (m n : nat) : Nat.Even m → (m / 2 ≤ n ↔ m ≤ 2 * n).
Proof.
  intros [k ->]. rewrite (Nat.mul_comm 2 k), Nat.div_mul by lia. lia.
Qed.

(** The interleaved-pilot condition and the divisor of the noise
    variance: the condition holds iff four antenna ports are configured
    and the cyclic shift of port 0 is at least half ([n_cs_max / 2]; for
    an even maximum, [n_cs_max ≤ 2 n_cs]) of the maximum cyclic shift,
    and the returned noise variance is the local [noise_var] over
    (num_symbols × sequence_length − n_estimates) × correction ×
    num_rx_ports, for every request on which that expression does not
    leave the range of [unsigned] (as on every valid request). *)
Theorem noise_variance_normalisation get_srs_information est grid config :
  let info_port0 := get_srs_information (resource config) 0 in
  let interleaved := interleaved_pilots get_srs_information config in
  let n_estimates : Z :=
    if interleaved then 2%Z else Z.of_nat (nof_antenna_ports (resource config)) in
  let correction : Z := if interleaved then 2%Z else 1%Z in
  let samples :=
    (Z.of_nat (nof_symbols (resource config)) * Z.of_nat (sequence_length info_port0))%Z in
  (n_estimates ≤ samples < 2 ^ 32)%Z →
  ((samples - n_estimates) * correction * Z.of_nat (length (ports config)) < 2 ^ 32)%Z →
  (interleaved = true
   ↔ nof_antenna_ports (resource config) = 4 ∧ n_cs_max info_port0 / 2 ≤ n_cs info_port0)
  ∧ (Nat.Even (n_cs_max info_port0) →
     (n_cs_max info_port0 / 2 ≤ n_cs info_port0 ↔ n_cs_max info_port0 ≤ 2 * n_cs info_port0))
  ∧ noise_variance (estimate get_srs_information est grid config)
    = fdiv (noise_var (after_coefficients get_srs_information est grid config))
           (float_of_Z ((samples - n_estimates) * correction * Z.of_nat (length (ports config)))).
Proof.
  cbv zeta. intros Hsub Hprod. split; [|split].
  - unfold interleaved_pilots, cfg_nof_antenna_ports, info_port0.
    rewrite andb_true_iff, Nat.eqb_eq, Nat.leb_le. reflexivity.
  - apply even_half_le.
  - pose proof (noise_divisor_no_wrap get_srs_information config Hsub Hprod) as Hdiv.
    unfold estimate, normalized_noise_var. simpl. rewrite Hdiv. reflexivity.
Qed.

Lemma noise_variance_normalisation_witness :
  noise_variance
    (estimate Scenario.get_srs_information Scenario.estimator Scenario.grid_twos
       (Scenario.request [0] Scenario.with_context))
  = fdiv (noise_var (after_coefficients Scenario.get_srs_information Scenario.estimator
                       Scenario.grid_twos (Scenario.request [0] Scenario.with_context)))
         (float_of_Z ((1 * 144 - 1) * 1 * 1)).
Proof.
  apply (noise_variance_normalisation Scenario.get_srs_information Scenario.estimator
           Scenario.grid_twos (Scenario.request [0] Scenario.with_context)).
  - vm_compute. split; [discriminate|reflexivity].
  - vm_compute. reflexivity.
Defined.

(** C7 (construction of the least-squares buffer): for a request with
    at least one symbol (every valid request has one, two or four), after
    the transmit-port loop the view of [temp_lse] for every (transmit
    port, receive port) pair holds the received values of the first
    configured symbol plus those of each subsequent symbol, multiplied
    element-wise by the conjugate of the port's pilot sequence and,
    exactly when more than one symbol is configured, scaled by
    1/num_symbols (the [double] quotient 1.0 / float(num_symbols),
    narrowed to [float]). *)
Theorem least_squares_buffer_construction get_srs_information est grid config :
  1 ≤ nof_symbols (resource config) →
  ∀ i_antenna_port i_rx_port_index,
    i_antenna_port < nof_antenna_ports (resource config) →
    i_rx_port_index < length (ports config) →
    temp_lse (after_antenna_ports get_srs_information est grid config)
      !! (i_rx_port_index, i_antenna_port)
    = Some (least_squares_buffer get_srs_information est grid config
              i_antenna_port i_rx_port_index).
Proof.
  intros Hsym p r Hp Hr. unfold after_antenna_ports.
  apply antenna_port_loop_temp_lse; assumption.
Qed.

Lemma least_squares_buffer_construction_witness :
  let request := Scenario.request_two_symbols [0; 1] Scenario.with_context in
  temp_lse (after_antenna_ports Scenario.get_srs_information Scenario.estimator
              Scenario.grid_two_levels request)
    !! (1, 0)
  = Some (least_squares_buffer Scenario.get_srs_information Scenario.estimator
            Scenario.grid_two_levels request 0 1)
  ∧ least_squares_buffer Scenario.get_srs_information Scenario.estimator
      Scenario.grid_two_levels request 0 1
    = replicate 144 (Scenario.cf_of_Z 3 0).
Proof.
  cbv zeta. split.
  - apply (least_squares_buffer_construction Scenario.get_srs_information
             Scenario.estimator Scenario.grid_two_levels
             (Scenario.request_two_symbols [0; 1] Scenario.with_context)).
    + simpl. lia.
    + simpl. lia.
    + simpl. lia.
  - vm_compute. reflexivity.
Defined.

(** C8 (the phase-shift compensator): the buffer keeps its length (the
    operation is in place), and element [n] is multiplied by the table
    entry at index round(table_size × phase / 2π) mod table_size, with
    phase = n × phase_per_subcarrier + phase_offset, whenever the rounded
    value is representable as an [int]; the table size divides 2^32, so
    the index of a negative phase is the residue of the signed value.  As
    a function of the table and its arguments the result is
    deterministic. *)
Theorem compensate_phase_shift_elements est mean_lse
    phase_shift_subcarrier phase_shift_offset :
  (0 < cexp_table_size est)%Z →
  (cexp_table_size est | 2 ^ 32)%Z →
  length (compensate_phase_shift est mean_lse phase_shift_subcarrier phase_shift_offset)
  = length mean_lse
  ∧ ∀ n x k,
      mean_lse !! n = Some x →
      std_round (fdiv (fmul (float_of_Z (cexp_table_size est))
                            (fadd (fmul (float_of_Z (Z.of_nat n)) phase_shift_subcarrier)
                                  phase_shift_offset))
                      TWOPI) = Some k →
      (INT_MIN ≤ k ≤ INT_MAX)%Z →
      ∃ e,
        cexp_table est !! Z.to_nat (k mod cexp_table_size est) = Some e
        ∧ compensate_phase_shift est mean_lse phase_shift_subcarrier phase_shift_offset !! n
          = Some (cmul e x).
Proof.
  intros Hpos Hdiv. split; [apply compensate_phase_shift_length|].
  intros n x k Hx Hround Hrange.
  assert (Z.to_nat (k mod cexp_table_size est) < length (cexp_table est)) as Hlt.
  { pose proof (Z.mod_pos_bound k _ Hpos) as Hb. unfold cexp_table_size in *. lia. }
  destruct (lookup_lt_is_Some_2 _ _ Hlt) as [e He].
  exists e. split; [exact He|].
  rewrite (compensate_phase_shift_lookup est mean_lse _ _ n x Hx).
  unfold phase_index, scaled_phase.
  rewrite (round_to_int_in_range _ k Hround Hrange).
  rewrite (u32_mod_table k _ Hdiv), He. reflexivity.
Qed.

Lemma compensate_phase_shift_elements_witness :
  ∃ e,
    cexp_table Scenario.estimator !! Z.to_nat ((-1) mod 4) = Some e
    ∧ compensate_phase_shift Scenario.estimator
        [Scenario.cf_of_Z 2 0; Scenario.cf_of_Z 2 0]
        (fneg (fdiv TWOPI (float_of_Z 4))) fzero !! 1
      = Some (cmul e (Scenario.cf_of_Z 2 0)).
Proof.
  apply (compensate_phase_shift_elements Scenario.estimator
           [Scenario.cf_of_Z 2 0; Scenario.cf_of_Z 2 0]
           (fneg (fdiv TWOPI (float_of_Z 4))) fzero).
  - vm_compute. reflexivity.
  - exists (2 ^ 30)%Z. vm_compute. reflexivity.
  - reflexivity.
  - vm_compute. reflexivity.
  - vm_compute. split; discriminate.
Defined.

(** C9 (after aggregation min ≤ estimate ≤ max): the code breaks it.
    On the synthetic scenario the only port reports the estimate 0 inside
    the window [-max_ta, max_ta]; the returned estimate is 0, but the
    returned [min] is the starting value 2^-1022, which is above it. *)
Theorem time_alignment_min_above_estimate :
  let request := Scenario.request [0] Scenario.with_context in
  let result :=
    estimate Scenario.get_srs_information Scenario.estimator Scenario.grid_twos request in
  let port_meas :=
    ta_estimator Scenario.collaborators [] 4 0
      (max_ta Scenario.get_srs_information request) in
  dleb (ta_min port_meas) (ta_time_alignment port_meas) = true
  ∧ dleb (ta_time_alignment port_meas) (ta_max port_meas) = true
  ∧ ta_time_alignment (time_alignment result) = dzero
  ∧ dltb (ta_time_alignment (time_alignment result)) (ta_min (time_alignment result)) = true
  ∧ dleb (ta_min (time_alignment result)) (ta_time_alignment (time_alignment result)) = false.
Proof. cbv zeta. repeat split; vm_compute; reflexivity. Qed.

(** C10 (the divisor of the noise variance): for a structurally valid
    request neither the product num_symbols × sequence_length nor the
    subtraction of n_estimates wraps around, the difference is positive,
    and the divisor (num_symbols × sequence_length − n_estimates) ×
    correction × num_rx_ports is computed without wrap-around and is
    strictly positive. *)
Theorem noise_divisor_positive get_srs_information config
    max_seq_length max_nof_rx_ports :
  valid_request get_srs_information config max_seq_length max_nof_rx_ports →
  (4 * Z.of_nat max_seq_length * 2 * Z.of_nat max_nof_rx_ports < 2 ^ 32)%Z →
  let samples :=
    (Z.of_nat (nof_symbols (resource config))
     * Z.of_nat (sequence_length (get_srs_information (resource config) 0%nat)))%Z in
  let n_estimates := nof_estimates get_srs_information config in
  let correction := correction_factor get_srs_information config in
  u32 (u32 samples - n_estimates) = (samples - n_estimates)%Z
  ∧ (0 < samples - n_estimates)%Z
  ∧ noise_divisor get_srs_information config
    = ((samples - n_estimates) * correction * Z.of_nat (length (ports config)))%Z
  ∧ (0 < noise_divisor get_srs_information config)%Z.
Proof.
  intros Hvalid Hcap. cbv zeta.
  destruct (noise_divisor_exact _ _ _ _ Hvalid Hcap) as (_ & H2 & H3 & H4 & H5).
  auto.
Qed.

Lemma noise_divisor_positive_witness :
  (0 < noise_divisor Scenario.get_srs_information
         (Scenario.request [0%nat; 1%nat] Scenario.with_context))%Z.
Proof.
  apply (noise_divisor_positive Scenario.get_srs_information
           (Scenario.request [0; 1] Scenario.with_context)
           Scenario.max_seq_length Scenario.max_nof_rx_ports).
  - apply scenario_valid; simpl;
      [lia
      |apply NoDup_cons; split;
         [intros Hin; apply list_elem_of_singleton in Hin; discriminate|apply NoDup_singleton]
      |unfold Scenario.max_nof_rx_ports; lia].
  - vm_compute. reflexivity.
Defined.

(** ** Further properties *)

Lemma estimate_time_alignment get_srs_information est grid config :
  1 ≤ nof_symbols (resource config) →
  time_alignment (estimate get_srs_information est grid config)
  = average_time_alignment config
      (foldl combine_time_alignment initial_time_alignment
         (port_measurements get_srs_information est grid config)).
Proof.
  intros Hsym. unfold estimate. cbn [time_alignment].
  rewrite after_coefficients_time_alignment. unfold after_antenna_ports.
  rewrite (antenna_port_loop_time_alignment get_srs_information est grid config _ Hsym).
  reflexivity.
Qed.

(** The returned time alignment aggregates the per-port measurements:
    the estimate is their sum over the number of antenna ports, the
    resolution their running maximum from 0, [max] their running minimum
    from the largest finite double, and [min] their running maximum from
    [std::numeric_limits<double>::min()]. *)
Theorem time_alignment_aggregation get_srs_information est grid config :
  1 ≤ nof_symbols (resource config) →
  let ms := port_measurements get_srs_information est grid config in
  time_alignment (estimate get_srs_information est grid config)
  = {| ta_time_alignment :=
         ddiv (foldl dadd dzero (ta_time_alignment <$> ms))
              (double_of_Z (Z.of_nat (nof_antenna_ports (resource config))));
       ta_resolution := foldl std_max dzero (ta_resolution <$> ms);
       ta_min := foldl std_max numeric_limits_double_min (ta_min <$> ms);
       ta_max := foldl std_min numeric_limits_double_max (ta_max <$> ms) |}.
Proof.
  intros Hsym. cbv zeta.
  rewrite (estimate_time_alignment get_srs_information est grid config Hsym).
  rewrite combine_time_alignment_fold. reflexivity.
Qed.

Lemma time_alignment_aggregation_witness :
  ta_min
    (time_alignment
       (estimate Scenario.get_srs_information Scenario.estimator Scenario.grid_twos
          (Scenario.request [0] Scenario.with_context)))
  = foldl std_max numeric_limits_double_min
      (ta_min <$> port_measurements Scenario.get_srs_information Scenario.estimator
                    Scenario.grid_twos (Scenario.request [0] Scenario.with_context)).
Proof.
  rewrite (time_alignment_aggregation Scenario.get_srs_information Scenario.estimator
             Scenario.grid_twos (Scenario.request [0] Scenario.with_context)).
  - reflexivity.
  - simpl. lia.
Defined.

(** *** The context reaches the result only through the skip decision *)

Lemma without_log_fields (a b : locals) :
  without_log a = without_log b →
  temp_lse a = temp_lse b
  ∧ all_sequences a = all_sequences b
  ∧ temp_noise a = temp_noise b
  ∧ epre a = epre b
  ∧ result_time_alignment a = result_time_alignment b
  ∧ result_channel_matrix a = result_channel_matrix b
  ∧ noise_var a = noise_var b
  ∧ rsrp a = rsrp b.
Proof.
  unfold without_log. intros H. injection H. auto 10.
Qed.

Section ContextIndependence.

Variable get_srs_information : srs_resource_configuration -> nat -> srs_information.
Variable est : srs_estimator_generic_impl.
Variable grid : resource_grid_reader.
Variables (num : nat) (res : srs_resource_configuration) (prts : list nat).
Variables ctx1 ctx2 : option string.

Local Abbreviation config1 :=
  {| numerology := num; resource := res; ports := prts; context := ctx1 |}.
Local Abbreviation config2 :=
  {| numerology := num; resource := res; ports := prts; context := ctx2 |}.

Hypothesis same_decision : is_Some (extract_rnti ctx1) ↔ is_Some (extract_rnti ctx2).

Lemma coefficient_step_context r p st1 st2 :
  without_log st1 = without_log st2 →
  without_log (coefficient_step get_srs_information est config1 r st1 p)
  = without_log (coefficient_step get_srs_information est config2 r st2 p).
Proof.
  intros Heq.
  destruct (without_log_fields _ _ Heq) as (H1 & H2 & H3 & H4 & H5 & H6 & H7 & H8).
  unfold coefficient_step, without_log. cbn [context].
  rewrite H1, H2, H3, H4, H5, H6, H7, H8.
  destruct (extract_rnti ctx1) as [rnti1|], (extract_rnti ctx2) as [rnti2|];
    cbn -[compensate_phase_shift]; try reflexivity.
  - destruct same_decision as [Hd _]. destruct (Hd ltac:(eauto)) as [? [=]].
  - destruct same_decision as [_ Hd]. destruct (Hd ltac:(eauto)) as [? [=]].
Qed.

Lemma coefficient_loop_context r l st1 st2 :
  without_log st1 = without_log st2 →
  without_log (foldl (coefficient_step get_srs_information est config1 r) st1 l)
  = without_log (foldl (coefficient_step get_srs_information est config2 r) st2 l).
Proof.
  revert st1 st2. induction l as [|p l IH]; intros st1 st2 Heq; [exact Heq|].
  cbn [foldl]. apply IH, coefficient_step_context, Heq.
Qed.

Lemma rx_port_coefficients_step_context r st1 st2 :
  without_log st1 = without_log st2 →
  without_log (rx_port_coefficients_step get_srs_information est config1 st1 r)
  = without_log (rx_port_coefficients_step get_srs_information est config2 st2 r).
Proof.
  intros Heq. unfold rx_port_coefficients_step.
  pose proof (coefficient_loop_context r
                (seq 0 (cfg_nof_antenna_ports config1)) st1 st2 Heq) as Hloop.
  destruct (without_log_fields _ _ Hloop) as (H1 & H2 & H3 & H4 & H5 & H6 & H7 & H8).
  unfold without_log. cbn [temp_lse all_sequences temp_noise epre result_time_alignment
                            result_channel_matrix noise_var rsrp csi_log].
  change (cfg_nof_antenna_ports config2) with (cfg_nof_antenna_ports config1).
  rewrite H1, H2, H3, H4, H5, H6, H7, H8. reflexivity.
Qed.

Lemma after_coefficients_context :
  without_log (after_coefficients get_srs_information est grid config1)
  = without_log (after_coefficients get_srs_information est grid config2).
Proof.
  unfold after_coefficients.
  change (nof_rx_ports config2) with (nof_rx_ports config1).
  change (after_time_alignment get_srs_information est grid config2)
    with (after_time_alignment get_srs_information est grid config1).
  assert (∀ l a b, without_log a = without_log b →
            without_log (foldl (rx_port_coefficients_step get_srs_information est config1) a l)
            = without_log (foldl (rx_port_coefficients_step get_srs_information est config2) b l))
    as Hfold.
  { induction l as [|r l IH]; intros a b Hab; [exact Hab|].
    cbn [foldl]. apply IH, rx_port_coefficients_step_context, Hab. }
  apply Hfold. reflexivity.
Qed.

Lemma estimate_context :
  estimate get_srs_information est grid config1
  = estimate get_srs_information est grid config2.
Proof.
  destruct (without_log_fields _ _ after_coefficients_context)
    as (_ & _ & _ & H4 & H5 & H6 & H7 & H8).
  unfold estimate, normalization_factor, noise_std, normalized_noise_var,
    normalized_epre, normalized_rsrp.
  rewrite H4, H5, H6, H7, H8. reflexivity.
Qed.

End ContextIndependence.

(** The context influences the returned value only through the decision
    to skip the collection block: two requests that differ in the context
    alone, and on which an RNTI is extracted for both or for neither,
    return the same result. *)
Theorem estimate_depends_on_skip_decision get_srs_information est grid config ctx :
  (is_Some (extract_rnti (context config)) ↔ is_Some (extract_rnti ctx)) →
  estimate get_srs_information est grid (set_context config ctx)
  = estimate get_srs_information est grid config.
Proof.
  intros Hsame. destruct config as [num res prts ctx0]. unfold set_context. cbn in *.
  symmetry. apply estimate_context, Hsame.
Qed.

Lemma estimate_depends_on_skip_decision_witness :
  estimate Scenario.get_srs_information Scenario.estimator Scenario.grid_twos
    (set_context (Scenario.request [0] Scenario.with_context)
       (Some "sector_id=1 rnti=0x4602"%string))
  = estimate Scenario.get_srs_information Scenario.estimator Scenario.grid_twos
      (Scenario.request [0] Scenario.with_context).
Proof.
  apply (estimate_depends_on_skip_decision Scenario.get_srs_information
           Scenario.estimator Scenario.grid_twos
           (Scenario.request [0] Scenario.with_context)).
  vm_compute. split; intros _; eauto.
Defined.

(** *** The synthetic scenarios of the specification *)

(** Scenario A: one transmit and one receive port, comb 4, sequence
    length 144, one symbol, unit pilots, samples [2+0j], zero timing
    offset: the wideband coefficient before normalisation is [2+0j] and
    the returned RSRP is the conversion of the linear power 4. *)
Theorem scenario_single_symbol :
  let request := Scenario.request [0] Scenario.with_context in
  get_coefficient
    (result_channel_matrix
       (after_coefficients Scenario.get_srs_information Scenario.estimator
          Scenario.grid_twos request)) 0 0
  = Some (Scenario.cf_of_Z 2 0)
  ∧ rsrp_dB (estimate Scenario.get_srs_information Scenario.estimator
               Scenario.grid_twos request)
    = convert_power_to_dB (float_of_Z 4).
Proof. cbv zeta. split; vm_compute; reflexivity. Qed.

(** Scenario B: the same with two symbols of identical samples returns
    the result of the one-symbol case. *)
Theorem scenario_two_symbols :
  estimate Scenario.get_srs_information Scenario.estimator Scenario.grid_twos
    {| numerology := 0;
       resource := Scenario.srs_resource_two_symbols;
       ports := [0];
       context := Scenario.with_context |}
  = estimate Scenario.get_srs_information Scenario.estimator Scenario.grid_twos
      (Scenario.request [0] Scenario.with_context).
Proof. vm_compute. reflexivity. Qed.

(** Interleaved pilots: four antenna ports with the cyclic shift of port
    0 at half of the maximum give [n_estimates = 2] and
    [correction = 2]; with a cyclic shift of zero the same four ports
    give [n_estimates = 4] and [correction = 1]. *)
Theorem scenario_interleaved :
  let request :=
    {| numerology := 0;
       resource := Scenario.srs_resource_four_ports;
       ports := [0];
       context := Scenario.with_context |} in
  interleaved_pilots (fun _ _ => Scenario.info_interleaved) request = true
  ∧ nof_estimates (fun _ _ => Scenario.info_interleaved) request = 2%Z
  ∧ correction_factor (fun _ _ => Scenario.info_interleaved) request = 2%Z
  ∧ noise_divisor (fun _ _ => Scenario.info_interleaved) request = ((1 * 144 - 2) * 2 * 1)%Z
  ∧ interleaved_pilots Scenario.get_srs_information request = false
  ∧ nof_estimates Scenario.get_srs_information request = 4%Z
  ∧ correction_factor Scenario.get_srs_information request = 1%Z.
Proof. cbv zeta. repeat split; vm_compute; reflexivity. Qed.

(** *** The returned bounds are selected bounds *)

Lemma std_max_cases (a b : spec_float) : std_max a b = a ∨ std_max a b = b.
Proof. unfold std_max. destruct (SFltb a b); auto. Qed.

Lemma std_min_cases (a b : spec_float) : std_min a b = a ∨ std_min a b = b.
Proof. unfold std_min. destruct (SFltb b a); auto. Qed.

Lemma foldl_selects {A} (f : A → A → A) (l : list A) (a : A) :
  (∀ x y, f x y = x ∨ f x y = y) → foldl f a l = a ∨ foldl f a l ∈ l.
Proof.
  intros Hf. revert a. induction l as [|x l IH]; intros a; [left; reflexivity|].
  cbn [foldl]. destruct (IH (f a x)) as [Heq|Hin].
  - rewrite Heq. destruct (Hf a x) as [->| ->]; [left; reflexivity|].
    right. apply elem_of_cons. left. reflexivity.
  - right. apply elem_of_cons. right. exact Hin.
Qed.

(** The returned [max] is the largest finite double or the [max] of one
    of the ports, and the returned [min] is the starting value
    [std::numeric_limits<double>::min()] or the [min] of one of the
    ports: the window is never wider than a representable one and never
    invents a bound. *)
Theorem time_alignment_bounds_selected get_srs_information est grid config :
  1 ≤ nof_symbols (resource config) →
  let ms := port_measurements get_srs_information est grid config in
  let result := time_alignment (estimate get_srs_information est grid config) in
  (ta_max result = numeric_limits_double_max ∨ ta_max result ∈ (ta_max <$> ms))
  ∧ (ta_min result = numeric_limits_double_min ∨ ta_min result ∈ (ta_min <$> ms)).
Proof.
  intros Hsym. cbv zeta.
  rewrite (estimate_time_alignment get_srs_information est grid config Hsym).
  rewrite combine_time_alignment_fold. cbn [average_time_alignment ta_max ta_min]. split.
  - apply foldl_selects, std_min_cases.
  - apply foldl_selects, std_max_cases.
Qed.

Lemma time_alignment_bounds_selected_witness :
  let ms :=
    port_measurements Scenario.get_srs_information Scenario.estimator Scenario.grid_twos
      (Scenario.request [0] Scenario.with_context) in
  let result :=
    time_alignment
      (estimate Scenario.get_srs_information Scenario.estimator Scenario.grid_twos
         (Scenario.request [0] Scenario.with_context)) in
  ta_max result = numeric_limits_double_max ∨ ta_max result ∈ (ta_max <$> ms).
Proof.
  apply (time_alignment_bounds_selected Scenario.get_srs_information Scenario.estimator
           Scenario.grid_twos (Scenario.request [0] Scenario.with_context)).
  simpl. lia.
Defined.

(** ** The coefficient loop on the collection path *)

Lemma get_set_coefficient_eq (c : cf_t) (r p nof_rx nof_tx : nat) (m : list (list cf_t)) :
  has_shape m nof_rx nof_tx → r < nof_rx → p < nof_tx →
  get_coefficient (set_coefficient c r p m) r p = Some c.
Proof.
  intros [Hlen Hrows] Hr Hp. unfold get_coefficient, set_coefficient.
  rewrite list_lookup_alter_eq.
  destruct (lookup_lt_is_Some_2 m r) as [row Hrow]; [lia|].
  rewrite Hrow. simpl.
  rewrite Forall_lookup in Hrows. specialize (Hrows r row Hrow).
  apply list_lookup_insert_eq. lia.
Qed.

Lemma get_set_coefficient_ne (c : cf_t) (r p r' p' : nat) (m : list (list cf_t)) :
  (r' ≠ r ∨ p' ≠ p) →
  get_coefficient (set_coefficient c r p m) r' p' = get_coefficient m r' p'.
Proof.
  intros Hne. unfold get_coefficient, set_coefficient.
  destruct (decide (r' = r)) as [->|Hr].
  - rewrite list_lookup_alter_eq. destruct (m !! r) as [row|]; simpl; [|reflexivity].
    apply list_lookup_insert_ne. destruct Hne; congruence.
  - rewrite list_lookup_alter_ne by congruence. reflexivity.
Qed.

Lemma get_view_lookup {K} `{Countable K} (size : nat) (t : gmap K (list cf_t)) (k : K) v :
  t !! k = Some v → get_view size t k = v.
Proof. intros Hk. unfold get_view. rewrite Hk. reflexivity. Qed.

Section CoefficientLoopFacts.

Variable get_srs_information : srs_resource_configuration -> nat -> srs_information.
Variable est : srs_estimator_generic_impl.
Variable grid : resource_grid_reader.
Variable config : srs_estimator_configuration.

Local Abbreviation coefficient_step' := (coefficient_step get_srs_information est config).
Local Abbreviation rx_port_coefficients_step' :=
  (rx_port_coefficients_step get_srs_information est config).
Local Abbreviation size' := (common_sequence_length get_srs_information config).

(** The buffer a pass of the coefficient loop leaves in [temp_lse]. *)
Local Abbreviation compensated' ta v p :=
  (compensate_phase_shift est v
     (phase_shift_subcarrier config ta)
     (phase_shift_offset config (phase_shift_subcarrier config ta)
        (get_srs_information (resource config) p))).

Lemma coefficient_step_temp_lse r st p :
  temp_lse (coefficient_step' r st p)
  = <[(r, p) := compensated' (ta_time_alignment (result_time_alignment st))
                  (get_view size' (temp_lse st) (r, p)) p]> (temp_lse st).
Proof.
  unfold coefficient_step. destruct (extract_rnti (context config)); reflexivity.
Qed.

(** The inner loop compensates the buffers of the pairs it has passed
    and keeps every other view. *)
Lemma coefficient_loop_temp_lse r n st0 :
  let st := foldl (coefficient_step' r) st0 (seq 0 n) in
  let ta := ta_time_alignment (result_time_alignment st0) in
  result_time_alignment st = result_time_alignment st0
  ∧ (∀ p, p < n →
       temp_lse st !! (r, p)
       = Some (compensated' ta (get_view size' (temp_lse st0) (r, p)) p))
  ∧ (∀ r' p', (r' ≠ r ∨ n ≤ p') → temp_lse st !! (r', p') = temp_lse st0 !! (r', p')).
Proof.
  cbv zeta. induction n as [|n IH].
  - cbn [seq foldl]. split; [reflexivity|]. split; [intros p Hp; lia|reflexivity].
  - rewrite seq_S, foldl_app. change (0 + n) with n. cbn [foldl].
    destruct IH as (Hta & Hin & Hout).
    destruct (coefficient_step_time_alignment get_srs_information est config r
                (foldl (coefficient_step' r) st0 (seq 0 n)) n) as [Hta' _].
    split; [rewrite Hta'; exact Hta|].
    rewrite coefficient_step_temp_lse, Hta.
    split.
    + intros p Hp. destruct (decide (p = n)) as [->|Hne].
      * rewrite lookup_insert_eq. unfold get_view at 1.
        rewrite (Hout r n) by (right; lia). reflexivity.
      * rewrite lookup_insert_ne by congruence. apply Hin. lia.
    + intros r' p' Hk. rewrite lookup_insert_ne by (intros [= -> ->]; lia).
      apply Hout. destruct Hk; [left; assumption|right; lia].
Qed.

Lemma rx_port_coefficients_step_temp_lse st r :
  temp_lse (rx_port_coefficients_step' st r)
  = temp_lse (foldl (coefficient_step' r) st (seq 0 (cfg_nof_antenna_ports config)))
  ∧ result_time_alignment (rx_port_coefficients_step' st r)
    = result_time_alignment (foldl (coefficient_step' r) st (seq 0 (cfg_nof_antenna_ports config)))
  ∧ result_channel_matrix (rx_port_coefficients_step' st r)
    = result_channel_matrix
        (foldl (coefficient_step' r) st (seq 0 (cfg_nof_antenna_ports config)))
  ∧ csi_log (rx_port_coefficients_step' st r)
    = csi_log (foldl (coefficient_step' r) st (seq 0 (cfg_nof_antenna_ports config))).
Proof. unfold rx_port_coefficients_step. cbn. auto. Qed.

(** The outer loop compensates the buffers of every pair of the receive
    ports it has passed, each from its value before the loop. *)
Lemma rx_port_coefficients_loop_temp_lse m st0 :
  let st := foldl rx_port_coefficients_step' st0 (seq 0 m) in
  let ta := ta_time_alignment (result_time_alignment st0) in
  result_time_alignment st = result_time_alignment st0
  ∧ (∀ r p, r < m → p < cfg_nof_antenna_ports config →
       temp_lse st !! (r, p)
       = Some (compensated' ta (get_view size' (temp_lse st0) (r, p)) p))
  ∧ (∀ r' p', (m ≤ r' ∨ cfg_nof_antenna_ports config ≤ p') →
       temp_lse st !! (r', p') = temp_lse st0 !! (r', p')).
Proof.
  cbv zeta. induction m as [|m IH].
  - cbn [seq foldl]. split; [reflexivity|]. split; [intros r p Hr; lia|reflexivity].
  - rewrite seq_S, foldl_app. change (0 + m) with m. cbn [foldl].
    destruct IH as (Hta & Hin & Hout).
    set (st1 := foldl rx_port_coefficients_step' st0 (seq 0 m)) in *.
    destruct (rx_port_coefficients_step_temp_lse st1 m) as (-> & -> & _).
    destruct (coefficient_loop_temp_lse m (cfg_nof_antenna_ports config) st1)
      as (Hta1 & Hin1 & Hout1).
    split; [rewrite Hta1; exact Hta|].
    split.
    + intros r p Hr Hp. destruct (decide (r = m)) as [->|Hne].
      * rewrite Hin1 by exact Hp. rewrite Hta. unfold get_view.
        rewrite (Hout m p) by (left; lia). reflexivity.
      * rewrite Hout1 by (left; exact Hne). apply Hin; [lia|exact Hp].
    + intros r' p' Hk. destruct Hk as [Hk|Hk].
      * rewrite Hout1 by (left; lia). apply Hout. left. lia.
      * rewrite Hout1 by (right; exact Hk). apply Hout. right. exact Hk.
Qed.

(** *** With an RNTI extracted *)

Variable rnti_value : Z.
Hypothesis collected : extract_rnti (context config) = Some rnti_value.

Lemma coefficient_step_collected r st p :
  let mean_lse :=
    compensated' (ta_time_alignment (result_time_alignment st))
      (get_view size' (temp_lse st) (r, p)) p in
  result_channel_matrix (coefficient_step' r st p)
  = set_coefficient (srsvec.mean mean_lse) r p (result_channel_matrix st)
  ∧ csi_log (coefficient_step' r st p)
    = csi_log st
      ++ [make_csi_record config rnti_value r p (get_srs_information (resource config) p)
            mean_lse]
  ∧ rsrp (coefficient_step' r st p) = fadd (rsrp st) (cnorm (srsvec.mean mean_lse)).
Proof.
  cbv zeta. unfold coefficient_step. rewrite collected. cbn. auto.
Qed.

Lemma coefficient_loop_collected r n st0 :
  has_shape (result_channel_matrix st0) (nof_rx_ports config) (cfg_nof_antenna_ports config) →
  r < nof_rx_ports config → n ≤ cfg_nof_antenna_ports config →
  let st := foldl (coefficient_step' r) st0 (seq 0 n) in
  let mean_lse p :=
    compensated' (ta_time_alignment (result_time_alignment st0))
      (get_view size' (temp_lse st0) (r, p)) p in
  has_shape (result_channel_matrix st) (nof_rx_ports config) (cfg_nof_antenna_ports config)
  ∧ (∀ p, p < n →
       get_coefficient (result_channel_matrix st) r p = Some (srsvec.mean (mean_lse p)))
  ∧ (∀ r' p', (r' ≠ r ∨ n ≤ p') →
       get_coefficient (result_channel_matrix st) r' p'
       = get_coefficient (result_channel_matrix st0) r' p')
  ∧ csi_log st
    = csi_log st0
      ++ ((fun p => make_csi_record config rnti_value r p
                      (get_srs_information (resource config) p) (mean_lse p))
            <$> seq 0 n).
Proof.
  intros Hshape Hr. cbv zeta. induction n as [|n IH]; intros Hn.
  - cbn [seq foldl fmap list_fmap]. rewrite app_nil_r.
    split; [exact Hshape|]. split; [intros p Hp; lia|]. split; reflexivity.
  - rewrite seq_S, foldl_app, fmap_app. change (0 + n) with n. cbn [foldl fmap list_fmap].
    destruct (IH ltac:(lia)) as (Hsh & Hin & Hout & Hlog).
    destruct (coefficient_loop_temp_lse r n st0) as (Hta & _ & Hkeep).
    cbv zeta in Hta, Hkeep.
    set (st1 := foldl (coefficient_step' r) st0 (seq 0 n)) in *.
    destruct (coefficient_step_collected r st1 n) as (-> & -> & _).
    assert (get_view size' (temp_lse st1) (r, n) = get_view size' (temp_lse st0) (r, n))
      as Hview by (unfold get_view; rewrite (Hkeep r n) by (right; lia); reflexivity).
    rewrite Hta, Hview.
    split; [apply has_shape_set_coefficient, Hsh|].
    split; [|split].
    + intros p Hp. destruct (decide (p = n)) as [->|Hne].
      * eapply get_set_coefficient_eq; [exact Hsh|exact Hr|lia].
      * rewrite get_set_coefficient_ne by (right; exact Hne). apply Hin. lia.
    + intros r' p' Hk. rewrite get_set_coefficient_ne by (destruct Hk; [left|right]; lia).
      apply Hout. destruct Hk; [left; assumption|right; lia].
    + rewrite Hlog, <- app_assoc. reflexivity.
Qed.

Lemma rx_port_coefficients_loop_collected m st0 :
  has_shape (result_channel_matrix st0) (nof_rx_ports config) (cfg_nof_antenna_ports config) →
  m ≤ nof_rx_ports config →
  let st := foldl rx_port_coefficients_step' st0 (seq 0 m) in
  let mean_lse r p :=
    compensated' (ta_time_alignment (result_time_alignment st0))
      (get_view size' (temp_lse st0) (r, p)) p in
  has_shape (result_channel_matrix st) (nof_rx_ports config) (cfg_nof_antenna_ports config)
  ∧ (∀ r p, r < m → p < cfg_nof_antenna_ports config →
       get_coefficient (result_channel_matrix st) r p = Some (srsvec.mean (mean_lse r p)))
  ∧ (∀ r' p', m ≤ r' →
       get_coefficient (result_channel_matrix st) r' p'
       = get_coefficient (result_channel_matrix st0) r' p')
  ∧ csi_log st
    = csi_log st0
      ++ (r ← seq 0 m;
          (fun p => make_csi_record config rnti_value r p
                      (get_srs_information (resource config) p) (mean_lse r p))
            <$> seq 0 (cfg_nof_antenna_ports config)).
Proof.
  intros Hshape. cbv zeta. induction m as [|m IH]; intros Hm.
  - cbn [seq foldl]. rewrite app_nil_r.
    split; [exact Hshape|]. split; [intros r p Hr; lia|]. split; reflexivity.
  - rewrite seq_S, foldl_app, bind_app. change (0 + m) with m. cbn [foldl].
    destruct (IH ltac:(lia)) as (Hsh & Hin & Hout & Hlog).
    destruct (rx_port_coefficients_loop_temp_lse m st0) as (Hta & _ & Hkeep).
    cbv zeta in Hta, Hkeep.
    set (st1 := foldl rx_port_coefficients_step' st0 (seq 0 m)) in *.
    destruct (rx_port_coefficients_step_temp_lse st1 m) as (_ & _ & -> & ->).
    destruct (coefficient_loop_collected m (cfg_nof_antenna_ports config) st1 Hsh
                ltac:(lia) ltac:(lia)) as (Hsh1 & Hin1 & Hout1 & Hlog1).
    cbv zeta in Hin1, Hlog1.
    split; [exact Hsh1|]. split; [|split].
    + intros r p Hr Hp. destruct (decide (r = m)) as [->|Hne].
      * rewrite Hin1 by exact Hp. rewrite Hta. unfold get_view.
        rewrite (Hkeep m p) by (left; lia). reflexivity.
      * rewrite Hout1 by (left; exact Hne). apply Hin; [lia|exact Hp].
    + intros r' p' Hk. rewrite Hout1 by (left; lia). apply Hout. lia.
    + rewrite Hlog1, Hlog, <- app_assoc. f_equal. f_equal.
      cbn [mbind list_bind]. rewrite app_nil_r.
      apply list_fmap_ext. intros i p Hp. apply lookup_seq in Hp as [-> Hp].
      rewrite Hta. unfold get_view. rewrite (Hkeep m (0 + i)) by (left; lia). reflexivity.
Qed.

End CoefficientLoopFacts.

Lemma list_bind_ext_elem {A B} (f g : A → list B) (l : list A) :
  (∀ x, x ∈ l → f x = g x) → l ≫= f = l ≫= g.
Proof.
  induction l as [|x l IH]; intros Hfg; [reflexivity|].
  rewrite !bind_cons. rewrite (Hfg x) by left.
  rewrite IH; [reflexivity|]. intros y Hy. apply Hfg. right. exact Hy.
Qed.

Lemma length_bind_fmap_seq {B} (f : nat → nat → B) (n m : nat) :
  length (r ← seq 0 n; f r <$> seq 0 m) = n * m.
Proof.
  induction n as [|n IH]; [reflexivity|].
  rewrite seq_S, bind_app, length_app, IH. change (0 + n) with n.
  rewrite bind_cons. change ([] ≫= (fun r => f r <$> seq 0 m)) with (@nil B).
  rewrite app_nil_r, length_fmap, length_seq. lia.
Qed.

Section CoefficientLoopResults.

Variable get_srs_information : srs_resource_configuration -> nat -> srs_information.
Variable est : srs_estimator_generic_impl.
Variable grid : resource_grid_reader.
Variable config : srs_estimator_configuration.

Hypothesis has_symbol : 1 ≤ nof_symbols (resource config).

Lemma after_time_alignment_view r p :
  r < length (ports config) → p < nof_antenna_ports (resource config) →
  get_view (common_sequence_length get_srs_information config)
    (temp_lse (after_time_alignment get_srs_information est grid config)) (r, p)
  = least_squares_buffer get_srs_information est grid config p r.
Proof.
  intros Hr Hp. apply get_view_lookup. unfold after_time_alignment. cbn [temp_lse].
  unfold after_antenna_ports. apply antenna_port_loop_temp_lse; assumption.
Qed.


Lemma after_coefficients_collected rnti_value :
  extract_rnti (context config) = Some rnti_value →
  (∀ r p, r < length (ports config) → p < nof_antenna_ports (resource config) →
     get_coefficient
       (result_channel_matrix (after_coefficients get_srs_information est grid config)) r p
     = Some (srsvec.mean (compensated_lse get_srs_information est grid config p r)))
  ∧ csi_log (after_coefficients get_srs_information est grid config)
    = collected_records get_srs_information est grid config rnti_value.
Proof.
  intros Hrnti. unfold after_coefficients.
  assert (has_shape
            (result_channel_matrix (after_time_alignment get_srs_information est grid config))
            (nof_rx_ports config) (cfg_nof_antenna_ports config)) as Hshape.
  { unfold after_time_alignment. cbn [result_channel_matrix].
    destruct (after_antenna_ports_frame get_srs_information est grid config) as (-> & _).
    apply has_shape_new. }
  destruct (rx_port_coefficients_loop_collected get_srs_information est config
              rnti_value Hrnti (nof_rx_ports config)
              (after_time_alignment get_srs_information est grid config) Hshape
              ltac:(lia)) as (_ & Hin & _ & Hlog).
  cbv zeta in Hin, Hlog. split.
  - intros r p Hr Hp. rewrite (Hin r p Hr Hp).
    rewrite after_time_alignment_view by assumption. reflexivity.
  - rewrite Hlog.
    assert (csi_log (after_time_alignment get_srs_information est grid config) = []) as ->.
    { unfold after_time_alignment. cbn [csi_log].
      destruct (after_antenna_ports_frame get_srs_information est grid config)
        as (_ & _ & _ & ->). reflexivity. }
    cbn [app]. unfold collected_records.
    apply list_bind_ext_elem. intros r Hin_r.
    apply list_fmap_ext. intros i p Hp.
    apply elem_of_seq in Hin_r. apply lookup_seq in Hp as [-> Hp].
    rewrite after_time_alignment_view by (unfold nof_rx_ports in *; lia). reflexivity.
Qed.

End CoefficientLoopResults.

(** *** The coefficient loop *)



(** When the collection block extracts an RNTI, every entry of the
    returned channel matrix is the mean of the compensated least-squares
    buffer of its pair, multiplied by the factor 1/noise_std. *)
Theorem channel_coefficient_is_scaled_mean get_srs_information est grid config rnti_value :
  1 ≤ nof_symbols (resource config) →
  extract_rnti (context config) = Some rnti_value →
  ∀ i_rx_port i_antenna_port,
    i_rx_port < length (ports config) →
    i_antenna_port < nof_antenna_ports (resource config) →
    get_coefficient (channel_matrix (estimate get_srs_information est grid config))
      i_rx_port i_antenna_port
    = Some (cscale (normalization_factor get_srs_information est grid config)
              (srsvec.mean
                 (compensated_lse get_srs_information est grid config
                    i_antenna_port i_rx_port))).
Proof.
  intros Hsym Hrnti r p Hr Hp.
  destruct (after_coefficients_collected get_srs_information est grid config Hsym
              rnti_value Hrnti) as [Hin _].
  unfold estimate. cbn [channel_matrix].
  rewrite get_coefficient_scale, (Hin r p Hr Hp). reflexivity.
Qed.

Lemma channel_coefficient_is_scaled_mean_witness :
  get_coefficient
    (channel_matrix (estimate Scenario.get_srs_information Scenario.estimator
                       Scenario.grid_twos (Scenario.request [0] Scenario.with_context)))
    0 0
  = Some (cscale (normalization_factor Scenario.get_srs_information Scenario.estimator
                    Scenario.grid_twos (Scenario.request [0] Scenario.with_context))
            (srsvec.mean
               (compensated_lse Scenario.get_srs_information Scenario.estimator
                  Scenario.grid_twos (Scenario.request [0] Scenario.with_context) 0 0))).
Proof.
  apply (channel_coefficient_is_scaled_mean Scenario.get_srs_information
           Scenario.estimator Scenario.grid_twos
           (Scenario.request [0] Scenario.with_context) 17921).
  - simpl. lia.
  - vm_compute. reflexivity.
  - simpl. lia.
  - simpl. lia.
Defined.



(** ** The collector *)

Lemma all_from_spec check z count :
  all_from check z count = true →
  ∀ r, (z ≤ r < z + Z.of_nat count)%Z → check r = true.
Proof.
  revert z. induction count as [|count IH]; intros z H r Hr; [lia|].
  cbn [all_from] in H. apply andb_true_iff in H as [H0 H1].
  destruct (decide (r = z)) as [->|Hne]; [exact H0|].
  apply (IH (z + 1)%Z H1). lia.
Qed.

Lemma rnti_tag_checked : all_from rnti_tag_ok 0 (Z.to_nat 65536) = true.
Proof. vm_compute. reflexivity. Qed.

Lemma snprintf_0x04x_uint16 (r : Z) :
  (0 ≤ r < 65536)%Z →
  ∃ digits, Collection.snprintf_0x04x 8 r = String "0" (String "x" digits)
            ∧ String.length digits = 4
            ∧ stoul_16 digits = Some r.
Proof.
  intros Hr.
  pose proof (all_from_spec _ _ _ rnti_tag_checked r ltac:(lia)) as H.
  unfold rnti_tag_ok in H.
  destruct (Collection.snprintf_0x04x 8 r) as [|a [|b digits]]; try discriminate.
  - destruct a as [[] [] [] [] [] [] [] []]; discriminate.
  - destruct a as [[] [] [] [] [] [] [] []]; try discriminate;
      destruct b as [[] [] [] [] [] [] [] []]; try discriminate.
    apply andb_true_iff in H as [Hlen Hval].
    exists digits. split; [reflexivity|]. split; [apply Nat.eqb_eq, Hlen|].
    destruct (stoul_16 digits) as [v|]; [|discriminate].
    apply Z.eqb_eq in Hval. rewrite Hval. reflexivity.
Qed.

Lemma string_app_length (a b : string) :
  String.length (a +:+ b) = String.length a + String.length b.
Proof. induction a as [|c a IH]; simpl; [reflexivity|]. rewrite IH. reflexivity. Qed.

Lemma string_app_inj_length (a a' b b' : string) :
  String.length a = String.length a' → a +:+ b = a' +:+ b' → a = a' ∧ b = b'.
Proof.
  revert a'. induction a as [|c a IH]; intros [|c' a'] Hlen Heq; try discriminate.
  - auto.
  - simpl in Hlen, Heq. injection Heq as -> Heq. injection Hlen as Hlen.
    destruct (IH a' Hlen Heq) as [-> ->]. auto.
Qed.

Lemma string_app_inv_tail (a a' b : string) : a +:+ b = a' +:+ b → a = a'.
Proof.
  intros Heq. apply (string_app_inj_length a a' b b); [|exact Heq].
  apply (f_equal String.length) in Heq. rewrite !string_app_length in Heq. lia.
Qed.

(** A data file name carries the RNTI of its collector. *)
Lemma data_filename_rnti (r r' : Z) (s s' : string) (j j' : Z) :
  (0 ≤ r < 65536)%Z → (0 ≤ r' < 65536)%Z →
  Collection.data_filename r s j = Collection.data_filename r' s' j' → r = r'.
Proof.
  intros Hr Hr' Heq. unfold Collection.data_filename in Heq.
  apply (inj (String.append _)) in Heq. apply (inj (String.append _)) in Heq.
  destruct (snprintf_0x04x_uint16 r Hr) as (d & Hd & Hlen & Hval).
  destruct (snprintf_0x04x_uint16 r' Hr') as (d' & Hd' & Hlen' & Hval').
  rewrite Hd, Hd' in Heq. simpl in Heq. injection Heq as Heq.
  apply string_app_inj_length in Heq as [-> _]; [|congruence].
  congruence.
Qed.

Lemma data_filename_counter (r : Z) (s : string) (j j' : Z) :
  Collection.data_filename r s j = Collection.data_filename r s j' → j = j'.
Proof.
  intros Heq. unfold Collection.data_filename in Heq.
  do 6 apply (inj (String.append _)) in Heq.
  apply string_app_inv_tail in Heq. apply (inj pretty) in Heq. exact Heq.
Qed.

Lemma data_filename_not_metadata (r : Z) (s : string) (j : Z) :
  Collection.data_filename r s j ≠ Collection.metadata_path.
Proof.
  unfold Collection.data_filename, Collection.metadata_path. intros Heq.
  apply (inj (String.append _)) in Heq. simpl in Heq. discriminate.
Qed.

Section CollectorSteps.

Import Collection.

Variable env : environment.

Lemma same_data_refl w : same_data w w.
Proof. intros path _. reflexivity. Qed.

Lemma same_data_trans w1 w2 w3 : same_data w1 w2 → same_data w2 w3 → same_data w1 w3.
Proof. intros H12 H23 path Hp. rewrite (H23 path Hp). apply H12, Hp. Qed.

Lemma same_data_tick w : same_data w (tick w).
Proof. intros path _. reflexivity. Qed.

Lemma same_data_file_size w w' path :
  same_data w w' → path ≠ metadata_path → file_size w' path = file_size w path.
Proof. intros H Hp. unfold file_size, appended. rewrite (H path Hp). reflexivity. Qed.

Lemma write_metadata_entry_same_data event c w :
  same_data w (write_metadata_entry env event c w).
Proof.
  intros path Hp. unfold write_metadata_entry.
  destruct (is_open env (clock w) metadata_path); [|reflexivity].
  unfold append_to. cbn [files tick]. rewrite lookup_insert_ne by congruence. reflexivity.
Qed.

Lemma rotate_file_spec c w :
  let c' := (rotate_file env c w).1 in
  rnti c' = rnti c
  ∧ session_start_time c' = session_start_time c
  ∧ initialized c' = initialized c
  ∧ file_counter c' = (file_counter c + 1)%Z
  ∧ current_file_size c' = 0%Z
  ∧ current_filename c'
    = data_filename (rnti c) (session_start_time c) (file_counter c + 1)
  ∧ same_data w (rotate_file env c w).2.
Proof.
  unfold rotate_file. destruct (1 <? file_counter c + 1)%Z; cbn.
  - repeat split. apply write_metadata_entry_same_data.
  - repeat split.
Qed.

Lemma chunks_size_nonneg chunks : (0 ≤ chunks_size chunks)%Z.
Proof.
  induction chunks as [|c chunks IH]; simpl; [lia|].
  destruct c; simpl; lia.
Qed.

Lemma file_size_nonneg w path : (0 ≤ file_size w path)%Z.
Proof.
  unfold file_size. induction (appended w path) as [|c l IH]; simpl; [lia|].
  pose proof (chunks_size_nonneg c). lia.
Qed.

Lemma file_size_absent w path : files w !! path = None → file_size w path = 0%Z.
Proof. intros H. unfold file_size, appended. rewrite H. reflexivity. Qed.

Lemma file_size_append_to w path chunks :
  file_size (append_to path chunks w) path = (file_size w path + chunks_size chunks)%Z.
Proof.
  unfold file_size at 1. unfold appended at 1, append_to. cbn [files].
  rewrite lookup_insert_eq. cbn [default from_option id]. unfold file_size.
  generalize (appended w path). intros l.
  induction l as [|c l IH]; cbn [app foldr]; [lia|]. rewrite IH. lia.
Qed.

Lemma chunks_size_record ts rec :
  chunks_size (record_chunks ts rec) = (16 + 12 * Z.of_nat (length (rec_samples rec)))%Z.
Proof.
  unfold record_chunks. cbn [app chunks_size foldr sizeof].
  induction (rec_samples rec) as [|[[sc sym] h] l IH].
  - simpl. lia.
  - rewrite bind_cons. cbn [app foldr sizeof length].
    fold (chunks_size
            (l ≫= fun '(sc_idx, sym_idx, h_complex) =>
                    [uint16 sc_idx; uint16 sym_idx; float32 (re h_complex);
                     float32 (im h_complex)])) in *.
    lia.
Qed.

Lemma file_size_files w w' path :
  files w' !! path = files w !! path → file_size w' path = file_size w path.
Proof. intros H. unfold file_size, appended. rewrite H. reflexivity. Qed.

(** No file carries the RNTI of a collector that is not initialised. *)
Lemma no_file_of_uninitialized st k session j :
  collector_invariant st → (0 ≤ k < 65536)%Z →
  initialized (default default_collector (rnti_collectors st !! k)) = false →
  files (outside st) !! data_filename k session j = None.
Proof.
  intros Hinv Hk Huninit.
  destruct (files (outside st) !! data_filename k session j) as [content|] eqn:Hfile;
    [|reflexivity].
  destruct (inv_files st Hinv (data_filename k session j) ltac:(eauto)
              (data_filename_not_metadata _ _ _))
    as (k' & c' & j' & Hc' & Hinit' & _ & Hname).
  destruct (inv_keys st Hinv k' c' Hc') as [Hk' _].
  apply data_filename_rnti in Hname; [|assumption..]. subst k'.
  rewrite Hc' in Huninit. cbn in Huninit. congruence.
Qed.

(** No file of an initialised collector has a counter above the
    collector's. *)
Lemma no_file_above_counter st k c j :
  collector_invariant st →
  rnti_collectors st !! k = Some c → initialized c = true →
  (file_counter c < j)%Z →
  files (outside st) !! data_filename k (session_start_time c) j = None.
Proof.
  intros Hinv Hc Hinit Hj.
  destruct (files (outside st) !! data_filename k (session_start_time c) j)
    as [content|] eqn:Hfile; [|reflexivity].
  destruct (inv_files st Hinv _ ltac:(eauto) (data_filename_not_metadata _ _ _))
    as (k' & c' & j' & Hc' & Hinit' & Hj' & Hname).
  destruct (inv_keys st Hinv k c Hc) as [Hk _].
  destruct (inv_keys st Hinv k' c' Hc') as [Hk' _].
  pose proof (data_filename_rnti _ _ _ _ _ _ Hk Hk' Hname) as <-.
  assert (c' = c) as -> by congruence.
  apply data_filename_counter in Hname. lia.
Qed.

(** The first part of the collection block: the collector of the
    record's RNTI is initialised, and agrees with the files, or the call
    throws and has written nothing. *)
Lemma init_phase st k :
  collector_invariant st → (0 ≤ k < 65536)%Z →
  let c0 := default default_collector (rnti_collectors st !! k) in
  match (if initialized c0 then returns (c0, outside st)
         else initialize env k c0 (outside st)) with
  | throws (c, w) =>
      initialized c0 = false ∧ initialized c = false ∧ (0 ≤ file_counter c)%Z
      ∧ files w = files (outside st)
  | returns (c1, w1) =>
      tracks k c1 w1 ∧ same_data (outside st) w1
      ∧ ∀ c, rnti_collectors st !! k = Some c → initialized c = true →
          session_start_time c1 = session_start_time c
          ∧ (file_counter c ≤ file_counter c1)%Z
  end.
Proof.
  intros Hinv Hk c0.
  assert (0 ≤ file_counter c0)%Z as Hcounter.
  { subst c0. destruct (rnti_collectors st !! k) as [c|] eqn:Hc; cbn; [|lia].
    apply (inv_keys st Hinv k c Hc). }
  destruct (initialized c0) eqn:Hinit.
  - assert (rnti_collectors st !! k = Some c0) as Hc0.
    { subst c0. destruct (rnti_collectors st !! k) as [c|]; [reflexivity|discriminate]. }
    destruct (inv_collector st Hinv k c0 Hc0 Hinit) as (Hrnti & Hname & Hsize).
    split; [|split; [apply same_data_refl|]].
    + repeat split; try assumption.
      * rewrite <- Hsize. apply (inv_limit st Hinv). rewrite Hname.
        apply data_filename_not_metadata.
      * intros j Hj. apply no_file_above_counter; assumption.
    + intros c Hc _. assert (c = c0) as -> by congruence. split; [reflexivity|lia].
  - unfold initialize. rewrite Hinit.
    destruct (create_directories env (clock (outside st)) SRS_CSI_OUTPUT_DIR).
    + match goal with
      | |- context [rotate_file env ?c ?w] =>
          pose proof (rotate_file_spec c w) as Hrot;
          destruct (rotate_file env c w) as [c1 w1]
      end.
      cbv zeta in Hrot. cbn [fst snd rnti session_start_time initialized file_counter] in Hrot.
      destruct Hrot as (Hrnti & Hsession & Hinit1 & Hcount & Hsize & Hname & Hsame).
      assert (same_data (outside st) (write_metadata_entry env "session_start" c1 w1))
        as Hsame'.
      { eapply same_data_trans; [|apply write_metadata_entry_same_data].
        eapply same_data_trans; [|exact Hsame].
        eapply same_data_trans; apply same_data_tick. }
      assert (∀ j, files (write_metadata_entry env "session_start" c1 w1)
                     !! data_filename k (session_start_time c1) j = None) as Hfresh.
      { intros j. rewrite (Hsame' _ (data_filename_not_metadata _ _ _)).
        apply no_file_of_uninitialized; assumption. }
      split; [|split; [exact Hsame'|]].
      * unfold tracks. cbn [initialized rnti file_counter current_filename
                             session_start_time current_file_size].
        rewrite Hrnti, Hcount, Hsize, Hname, Hsession.
        split; [reflexivity|]. split; [reflexivity|]. split; [lia|].
        split; [reflexivity|]. split.
        -- apply file_size_absent. rewrite <- Hsession. apply Hfresh.
        -- split; [unfold SRS_CSI_MAX_FILE_SIZE; lia|].
           intros j _. rewrite <- Hsession. apply Hfresh.
      * intros c Hc Hinitc. subst c0. rewrite Hc in Hinit. cbn in Hinit. congruence.
    + cbn. auto.
Qed.

Lemma total_size_fits rec :
  record_fits rec →
  size_t (16 + size_t (Z.of_nat (length (rec_samples rec)) * 12))
  = (16 + 12 * Z.of_nat (length (rec_samples rec)))%Z.
Proof.
  intros [_ Hfit]. unfold size_t, SRS_CSI_MAX_FILE_SIZE in *.
  rewrite (Z.mod_small (Z.of_nat (length (rec_samples rec)) * 12)) by lia.
  rewrite Z.mod_small by lia. lia.
Qed.

(** The check before a write: afterwards the record fits the current
    file. *)
Lemma should_write_spec k c w total :
  tracks k c w → (0 ≤ total ≤ SRS_CSI_MAX_FILE_SIZE)%Z →
  ∃ c' w', should_write env total c w = (true, c', w')
           ∧ tracks k c' w'
           ∧ same_data w w'
           ∧ session_start_time c' = session_start_time c
           ∧ (file_counter c ≤ file_counter c')%Z
           ∧ (current_file_size c' + total ≤ SRS_CSI_MAX_FILE_SIZE)%Z.
Proof.
  intros (Hinit & Hrnti & Hcount & Hname & Hsize & Hlimit & Hfresh) Htotal.
  assert (0 ≤ current_file_size c)%Z as Hpos.
  { rewrite <- Hsize. apply file_size_nonneg. }
  assert (size_t (current_file_size c + total) = (current_file_size c + total)%Z) as Hsum.
  { unfold size_t, SRS_CSI_MAX_FILE_SIZE in *. apply Z.mod_small. lia. }
  unfold should_write. rewrite Hinit, Hsum. cbn [andb].
  destruct (SRS_CSI_MAX_FILE_SIZE <? current_file_size c + total)%Z eqn:Hcmp.
  - pose proof (rotate_file_spec c w) as Hrot.
    destruct (rotate_file env c w) as [c' w']. cbv zeta in Hrot. cbn [fst snd] in Hrot.
    destruct Hrot as (Hrnti' & Hsession' & Hinit' & Hcount' & Hsize' & Hname' & Hsame).
    exists c', w'. split; [reflexivity|].
    assert (files w' !! data_filename k (session_start_time c) (file_counter c + 1) = None)
      as Hnew.
    { rewrite (Hsame _ (data_filename_not_metadata _ _ _)). apply Hfresh. lia. }
    split; [|split; [exact Hsame|split; [exact Hsession'|split; [lia|lia]]]].
    unfold tracks. rewrite Hinit', Hrnti', Hcount', Hsize', Hname', Hsession', Hrnti.
    split; [exact Hinit|]. split; [reflexivity|]. split; [lia|].
    split; [reflexivity|]. split; [apply file_size_absent, Hnew|].
    split; [unfold SRS_CSI_MAX_FILE_SIZE; lia|].
    intros j Hj. rewrite (Hsame _ (data_filename_not_metadata _ _ _)). apply Hfresh. lia.
  - exists c, w. split; [reflexivity|].
    split; [repeat split; assumption|]. split; [apply same_data_refl|].
    split; [reflexivity|]. split; [lia|]. apply Z.ltb_ge in Hcmp. exact Hcmp.
Qed.

(** The second part of the collection block: the record goes to the
    current file of its collector and to no other file, and the collector
    keeps agreeing with the files. *)
Lemma write_phase st rec c1 w1 :
  tracks (rec_rnti rec) c1 w1 → record_fits rec →
  let st' := write_record env rec st c1 w1 in
  ∃ c',
    rnti_collectors st' = <[rec_rnti rec := c']> (rnti_collectors st)
    ∧ tracks (rec_rnti rec) c' (outside st')
    ∧ session_start_time c' = session_start_time c1
    ∧ (file_counter c1 ≤ file_counter c')%Z
    ∧ (∀ path, path ≠ metadata_path → path ≠ current_filename c' →
         files (outside st') !! path = files w1 !! path)
    ∧ (∀ chunks, chunks ∈ appended (outside st') (current_filename c') →
         chunks ∈ appended w1 (current_filename c') ∨ ∃ ts, chunks = record_chunks ts rec).
Proof.
  intros Htracks Hfits. cbv zeta. unfold write_record.
  rewrite (total_size_fits rec Hfits).
  set (total := (16 + 12 * Z.of_nat (length (rec_samples rec)))%Z).
  match goal with
  | |- context [should_write env total ?c w1] =>
      assert (tracks (rec_rnti rec) c w1) as Htracks2 by exact Htracks;
      destruct (should_write_spec (rec_rnti rec) c w1 total Htracks2)
        as (c3 & w3 & -> & Htracks3 & Hsame & Hsession & Hcount & Hroom)
  end.
  { subst total. destruct Hfits as [_ Hfit]. lia. }
  cbn [session_start_time file_counter] in Hsession, Hcount.
  destruct Htracks3 as (Hinit3 & Hrnti3 & Hcount3 & Hname3 & Hsize3 & Hlimit3 & Hfresh3).
  unfold get_filename.
  destruct (is_open env (clock w3) (current_filename c3)).
  - exists (update_size total c3). cbn [rnti_collectors outside].
    split; [reflexivity|].
    assert (0 ≤ current_file_size c3)%Z as Hpos.
    { rewrite <- Hsize3. apply file_size_nonneg. }
    assert (0 ≤ total)%Z as Htotal by (subst total; lia).
    assert (size_t (current_file_size c3 + total) = (current_file_size c3 + total)%Z)
      as Hsum.
    { unfold size_t, SRS_CSI_MAX_FILE_SIZE in *. apply Z.mod_small. lia. }
    split; [|split; [exact Hsession|split; [exact Hcount|split]]].
    + unfold tracks, update_size.
      cbn [initialized rnti file_counter current_filename session_start_time
           current_file_size].
      rewrite Hsum.
      split; [exact Hinit3|]. split; [exact Hrnti3|]. split; [exact Hcount3|].
      split; [exact Hname3|]. split.
      * rewrite file_size_append_to, chunks_size_record.
        fold total. f_equal. exact Hsize3.
      * split; [exact Hroom|]. intros j Hj. unfold append_to. cbn [files tick].
        rewrite lookup_insert_ne; [apply Hfresh3, Hj|].
        rewrite Hname3. intros Heq. apply data_filename_counter in Heq. lia.
    + intros path Hmeta Hpath. unfold append_to. unfold update_size in Hpath.
      cbn [files tick current_filename] in *.
      rewrite lookup_insert_ne by congruence. apply Hsame, Hmeta.
    + intros chunks. unfold update_size. cbn [current_filename].
      unfold appended at 1, append_to. cbn [files tick].
      rewrite lookup_insert_eq. cbn [default from_option id].
      intros Hin. apply elem_of_app in Hin as [Hin|Hin].
      * left. unfold appended in *. cbn [files tick] in Hin.
        rewrite <- (Hsame (current_filename c3)); [exact Hin|].
        rewrite Hname3. apply data_filename_not_metadata.
      * right. apply list_elem_of_singleton in Hin. eauto.
  - exists c3. cbn [rnti_collectors outside].
    split; [reflexivity|].
    split; [repeat split; assumption|].
    split; [exact Hsession|]. split; [exact Hcount|]. split.
    + intros path Hmeta _. cbn [files tick]. apply Hsame, Hmeta.
    + intros chunks Hin. left. unfold appended in *. cbn [files tick] in Hin.
      rewrite <- (Hsame (current_filename c3)); [exact Hin|].
      rewrite Hname3. apply data_filename_not_metadata.
Qed.

Lemma collect_invariant st rec :
  collector_invariant st → record_fits rec →
  collector_invariant (state_after (collect env st rec)).
Proof.
  intros Hinv Hfits. pose proof Hfits as [Hk _].
  pose proof (init_phase st (rec_rnti rec) Hinv Hk) as Hphase. cbv zeta in Hphase.
  unfold collect.
  destruct (if initialized (default default_collector (rnti_collectors st !! rec_rnti rec))
            then returns (default default_collector (rnti_collectors st !! rec_rnti rec),
                          outside st)
            else initialize env (rec_rnti rec)
                   (default default_collector (rnti_collectors st !! rec_rnti rec))
                   (outside st)) as [[c1 w1]|[c w]].
  - destruct Hphase as (Htracks & Hsame & Hold).
    destruct (write_phase st rec c1 w1 Htracks Hfits)
      as (c' & Hreg & Htracks' & Hsession & Hcount & Hother & Hnew).
    cbv zeta in Hreg, Htracks', Hother, Hnew. cbn [state_after].
    set (st' := write_record env rec st c1 w1) in *.
    pose proof Htracks' as (Hinit' & Hrnti' & Hcount' & Hname' & Hsize' & Hlimit' & Hfresh').
    assert (∀ k c, k ≠ rec_rnti rec → rnti_collectors st !! k = Some c →
              initialized c = true → current_filename c ≠ current_filename c') as Hdistinct.
    { intros k c Hne Hc Hinitc Heq.
      destruct (inv_collector st Hinv k c Hc Hinitc) as (_ & Hnamec & _).
      destruct (inv_keys st Hinv k c Hc) as [Hkc _].
      rewrite Hnamec, Hname' in Heq. apply data_filename_rnti in Heq; [|assumption..].
      congruence. }
    split.
    + intros k c. rewrite Hreg. intros Hc.
      destruct (decide (k = rec_rnti rec)) as [->|Hne].
      * rewrite lookup_insert_eq in Hc. injection Hc as <-. split; [exact Hk|exact Hcount'].
      * rewrite lookup_insert_ne in Hc by congruence. apply (inv_keys st Hinv k c Hc).
    + intros k c. rewrite Hreg. intros Hc Hinitc.
      destruct (decide (k = rec_rnti rec)) as [->|Hne].
      * rewrite lookup_insert_eq in Hc. injection Hc as <-. auto.
      * rewrite lookup_insert_ne in Hc by congruence.
        destruct (inv_collector st Hinv k c Hc Hinitc) as (Hrnti & Hname & Hsize).
        split; [exact Hrnti|]. split; [exact Hname|]. rewrite <- Hsize.
        apply file_size_files.
        rewrite Hother.
        -- apply Hsame. rewrite Hname. apply data_filename_not_metadata.
        -- rewrite Hname. apply data_filename_not_metadata.
        -- apply (Hdistinct k c); assumption.
    + intros path Hsome Hmeta. rewrite Hreg.
      destruct (decide (path = current_filename c')) as [->|Hpath].
      * exists (rec_rnti rec), c', (file_counter c').
        rewrite lookup_insert_eq. split; [reflexivity|]. split; [exact Hinit'|].
        split; [lia|exact Hname'].
      * rewrite (Hother path Hmeta Hpath), (Hsame path Hmeta) in Hsome.
        destruct (inv_files st Hinv path Hsome Hmeta) as (k & c & j & Hc & Hinitc & Hj & Hp).
        destruct (decide (k = rec_rnti rec)) as [->|Hne].
        -- exists (rec_rnti rec), c', j. rewrite lookup_insert_eq.
           destruct (Hold c Hc Hinitc) as [Hs Hcnt].
           split; [reflexivity|]. split; [exact Hinit'|]. split; [lia|].
           rewrite Hsession, Hs. exact Hp.
        -- exists k, c, j. rewrite lookup_insert_ne by congruence. auto.
    + intros path Hmeta.
      destruct (decide (path = current_filename c')) as [->|Hpath].
      * rewrite Hsize'. exact Hlimit'.
      * rewrite (file_size_files (outside st) _ path).
        -- apply (inv_limit st Hinv path Hmeta).
        -- rewrite (Hother path Hmeta Hpath). apply Hsame, Hmeta.
    + intros path chunks Hmeta Hin.
      destruct (decide (path = current_filename c')) as [->|Hpath].
      * destruct (Hnew chunks Hin) as [Hin1|[ts ->]].
        -- apply (inv_records st Hinv _ chunks Hmeta).
           unfold appended in *. rewrite <- (Hsame _ Hmeta). exact Hin1.
        -- exists ts, rec, (session_start_time c'), (file_counter c').
           split; [reflexivity|exact Hname'].
      * apply (inv_records st Hinv path chunks Hmeta).
        unfold appended in *.
        rewrite (Hother path Hmeta Hpath), (Hsame path Hmeta) in Hin. exact Hin.
  - destruct Hphase as (Huninit & Hinit & Hcount & Hfiles). cbn [state_after].
    split; cbn [rnti_collectors outside].
    + intros k c'. intros Hc.
      destruct (decide (k = rec_rnti rec)) as [->|Hne].
      * rewrite lookup_insert_eq in Hc. injection Hc as <-. split; [exact Hk|exact Hcount].
      * rewrite lookup_insert_ne in Hc by congruence. apply (inv_keys st Hinv k c' Hc).
    + intros k c' Hc Hinitc.
      destruct (decide (k = rec_rnti rec)) as [->|Hne].
      * rewrite lookup_insert_eq in Hc. injection Hc as <-. congruence.
      * rewrite lookup_insert_ne in Hc by congruence.
        destruct (inv_collector st Hinv k c' Hc Hinitc) as (Hrnti & Hname & Hsize).
        split; [exact Hrnti|]. split; [exact Hname|]. rewrite <- Hsize.
        apply file_size_files. rewrite Hfiles. reflexivity.
    + intros path Hsome Hmeta. rewrite Hfiles in Hsome.
      destruct (inv_files st Hinv path Hsome Hmeta) as (k & c' & j & Hc & Hinitc & Hj & Hp).
      exists k, c', j. rewrite lookup_insert_ne; [auto|].
      intros <-. rewrite Hc in Huninit. cbn in Huninit. congruence.
    + intros path Hmeta. rewrite (file_size_files (outside st) w path).
      * apply (inv_limit st Hinv path Hmeta).
      * rewrite Hfiles. reflexivity.
    + intros path chunks Hmeta Hin. apply (inv_records st Hinv path chunks Hmeta).
      unfold appended in *. rewrite Hfiles in Hin. exact Hin.
Qed.

Lemma collect_all_invariant recs st :
  collector_invariant st → Forall record_fits recs →
  collector_invariant (state_after (collect_all env st recs)).
Proof.
  revert st. induction recs as [|rec recs IH]; intros st Hinv Hfits; [exact Hinv|].
  apply Forall_cons in Hfits as [Hfit Hfits]. cbn [collect_all].
  pose proof (collect_invariant st rec Hinv Hfit) as Hstep.
  destruct (collect env st rec) as [st'|st']; cbn [state_after] in *.
  - apply IH; assumption.
  - exact Hstep.
Qed.

End CollectorSteps.

Lemma process_start_invariant : collector_invariant process_start.
Proof.
  split; unfold process_start; cbn.
  - intros k c Hc. rewrite lookup_empty in Hc. discriminate.
  - intros k c Hc. rewrite lookup_empty in Hc. discriminate.
  - intros path [x Hx]. rewrite lookup_empty in Hx. discriminate.
  - intros path _. unfold Collection.file_size, Collection.appended. cbn.
    rewrite lookup_empty. cbn. unfold Collection.SRS_CSI_MAX_FILE_SIZE. lia.
  - intros path chunks _. unfold Collection.appended. cbn. rewrite lookup_empty. cbn.
    intros Hin. apply elem_of_nil in Hin. destruct Hin.
Qed.

(** ** The RNTI tag and the context parser *)

Lemma substring_all (s : string) : String.substring 0 (String.length s) s = s.
Proof. induction s as [|c s IH]; simpl; [reflexivity|]. rewrite IH. reflexivity. Qed.

Lemma substring_skip (a b : string) (n m : nat) :
  String.substring (String.length a + n) m (a +:+ b) = String.substring n m b.
Proof. induction a as [|c a IH]; simpl; [reflexivity|]. exact IH. Qed.

Lemma index_rnti_token (pfx rest : string) :
  free_of "n" pfx = true →
  String.index 0 "rnti=0x" (pfx +:+ "rnti=0x" +:+ rest) = Some (String.length pfx).
Proof.
  induction pfx as [|a pfx IH]; intros Hfree.
  - destruct rest; reflexivity.
  - cbn [free_of] in Hfree. apply andb_true_iff in Hfree as [Ha Hfree].
    change (String a pfx +:+ "rnti=0x" +:+ rest)
      with (String a (pfx +:+ "rnti=0x" +:+ rest)).
    cbn [String.index]. rewrite (IH Hfree).
    assert (String.prefix "rnti=0x" (String a (pfx +:+ "rnti=0x" +:+ rest)) = false) as ->;
      [|reflexivity].
    cbn [String.prefix]. destruct (ascii_dec "r" a) as [_|_]; [|reflexivity].
    destruct pfx as [|b pfx].
    + reflexivity.
    + cbn [free_of] in Hfree. apply andb_true_iff in Hfree as [Hb _].
      change (String b pfx +:+ "rnti=0x" +:+ rest)
        with (String b (pfx +:+ "rnti=0x" +:+ rest)).
      cbn [String.prefix]. destruct (ascii_dec "n" b) as [<-|_]; [discriminate|reflexivity].
Qed.

Lemma extract_rnti_of_tag (pfx : string) (r : Z) :
  free_of "n" pfx = true → (0 < r < 65536)%Z →
  extract_rnti (Some (pfx +:+ "rnti=" +:+ Collection.snprintf_0x04x 8 r)) = Some r.
Proof.
  intros Hfree Hr.
  destruct (snprintf_0x04x_uint16 r ltac:(lia)) as (digits & -> & Hlen & Hval).
  change (pfx +:+ "rnti=" +:+ String "0" (String "x" digits))
    with (pfx +:+ "rnti=0x" +:+ digits).
  unfold extract_rnti. rewrite (index_rnti_token pfx digits Hfree).
  unfold rnti_hex_at. rewrite substring_skip.
  rewrite !string_app_length.
  replace (String.length pfx + (String.length "rnti=0x" + String.length digits)
           - (String.length pfx + 7)) with (String.length digits)
    by (change (String.length "rnti=0x") with 7; lia).
  change (String.substring 7 (String.length digits) ("rnti=0x" +:+ digits))
    with (String.substring 0 (String.length digits) digits).
  rewrite substring_all, Hval. cbv zeta.
  rewrite (Z.mod_small r) by lia.
  destruct (r =? 0)%Z eqn:Hz; [apply Z.eqb_eq in Hz; lia|reflexivity].
Qed.

Lemma extract_rnti_range (context : option string) (rnti_value : Z) :
  extract_rnti context = Some rnti_value → (0 < rnti_value < 65536)%Z.
Proof.
  unfold extract_rnti. destruct context as [s|]; [|discriminate].
  destruct (String.index 0 "rnti=0x" s) as [pos|]; [|discriminate].
  destruct (stoul_16 (rnti_hex_at s pos)) as [v|]; [|discriminate].
  cbv zeta. destruct (v mod 2 ^ 16 =? 0)%Z eqn:Hz; [discriminate|].
  intros [= <-]. apply Z.eqb_neq in Hz.
  pose proof (Z.mod_pos_bound v (2 ^ 16) ltac:(lia)). lia.
Qed.

(** ** When the collection throws *)

Section CollectorOutcome.

Import Collection.

Variable env : environment.

Lemma write_record_initialized rec st c1 w1 :
  initialized c1 = true →
  ∃ c', rnti_collectors (write_record env rec st c1 w1)
        = <[rec_rnti rec := c']> (rnti_collectors st)
        ∧ initialized c' = true.
Proof.
  intros Hinit. unfold write_record, should_write. cbn [initialized current_file_size].
  rewrite Hinit. cbn [andb].
  match goal with
  | |- context [if ?b then _ else _] => destruct b
  end.
  - match goal with
    | |- context [rotate_file env ?c ?w] =>
        pose proof (rotate_file_spec env c w) as Hrot;
        destruct (rotate_file env c w) as [c3 w3]
    end.
    cbv zeta in Hrot. cbn [fst snd initialized] in Hrot.
    destruct Hrot as (_ & _ & Hinit3 & _).
    destruct (is_open env (clock w3) (get_filename c3)); cbn [rnti_collectors].
    + eexists. split; [reflexivity|]. cbn. congruence.
    + eexists. split; [reflexivity|]. congruence.
  - match goal with
    | |- context [is_open env ?t ?p] => destruct (is_open env t p)
    end; cbn [rnti_collectors]; eexists; (split; [reflexivity|]); cbn;
      first [reflexivity|exact Hinit].
Qed.

(** One record: the block throws exactly when the collector of the
    record's RNTI is not initialised and the directory cannot be
    created; the collector is initialised whenever the block returns. *)
Lemma collect_outcome st rec :
  let c0 := default default_collector (rnti_collectors st !! rec_rnti rec) in
  if initialized c0 || create_directories env (clock (outside st)) SRS_CSI_OUTPUT_DIR
  then ∃ st' c, collect env st rec = returns st'
                ∧ rnti_collectors st' !! rec_rnti rec = Some c
                ∧ initialized c = true
  else ∃ st', collect env st rec = throws st'
              ∧ files (outside st') = files (outside st).
Proof.
  cbv zeta. unfold collect.
  destruct (initialized (default default_collector (rnti_collectors st !! rec_rnti rec)))
    eqn:Hinit; cbn [orb].
  - destruct (write_record_initialized rec st _ (outside st) Hinit) as (c' & Hreg & Hinit').
    eexists _, c'. split; [reflexivity|]. rewrite Hreg, lookup_insert_eq. auto.
  - unfold initialize. rewrite Hinit.
    destruct (create_directories env (clock (outside st)) SRS_CSI_OUTPUT_DIR).
    + match goal with
      | |- context [rotate_file env ?c ?w] => destruct (rotate_file env c w) as [c1 w1]
      end.
      match goal with
      | |- context [write_record env rec st ?c ?w] =>
          destruct (write_record_initialized rec st c w eq_refl) as (c' & Hreg & Hinit')
      end.
      eexists _, c'. split; [reflexivity|]. rewrite Hreg, lookup_insert_eq. auto.
    + eexists. split; reflexivity.
Qed.

Lemma collect_all_initialized k recs st :
  Forall (fun rec => rec_rnti rec = k) recs →
  initialized (default default_collector (rnti_collectors st !! k)) = true →
  ∃ st', collect_all env st recs = returns st'.
Proof.
  revert st. induction recs as [|rec recs IH]; intros st Hall Hinit; [eauto|].
  apply Forall_cons in Hall as [Hrec Hall]. cbn [collect_all].
  pose proof (collect_outcome st rec) as Hout. cbv zeta in Hout.
  rewrite Hrec, Hinit in Hout. cbn [orb] in Hout.
  destruct Hout as (st' & c & -> & Hc & Hinitc).
  apply IH; [exact Hall|]. rewrite Hc. exact Hinitc.
Qed.

(** The records of one call share their RNTI, so only the first of
    them can throw. *)
Lemma collect_all_outcome k rec recs st :
  Forall (fun rec => rec_rnti rec = k) (rec :: recs) →
  let c0 := default default_collector (rnti_collectors st !! k) in
  if initialized c0 || create_directories env (clock (outside st)) SRS_CSI_OUTPUT_DIR
  then ∃ st', collect_all env st (rec :: recs) = returns st'
  else ∃ st', collect_all env st (rec :: recs) = throws st'
              ∧ files (outside st') = files (outside st).
Proof.
  intros Hall. apply Forall_cons in Hall as [Hrec Hall]. cbv zeta. cbn [collect_all].
  pose proof (collect_outcome st rec) as Hout. cbv zeta in Hout. rewrite Hrec in Hout.
  destruct (initialized (default default_collector (rnti_collectors st !! k))
            || create_directories env (clock (outside st)) SRS_CSI_OUTPUT_DIR).
  - destruct Hout as (st' & c & -> & Hc & Hinitc).
    apply (collect_all_initialized k); [exact Hall|]. rewrite Hc. exact Hinitc.
  - destruct Hout as (st' & -> & Hfiles). eauto.
Qed.

End CollectorOutcome.

(** ** The records of a call and the collector *)

Section RecordsOfCall.

Variable get_srs_information : srs_resource_configuration -> nat -> srs_information.
Variable est : srs_estimator_generic_impl.
Variable grid : resource_grid_reader.
Variable config : srs_estimator_configuration.

Lemma length_received_symbol p r l :
  length (received_symbol get_srs_information grid config p r l)
  = sequence_length (get_srs_information (resource config) p).
Proof. unfold received_symbol, grid_get. rewrite length_fmap, length_seq. reflexivity. Qed.

Lemma length_summed_symbols p r :
  length (summed_symbols get_srs_information grid config p r)
  = sequence_length (get_srs_information (resource config) p).
Proof.
  unfold summed_symbols.
  apply (foldl_invariant
           (fun raw => length raw = sequence_length (get_srs_information (resource config) p))).
  - apply length_received_symbol.
  - intros raw l Hraw. unfold srsvec.add.
    rewrite length_zip_with, length_received_symbol, Hraw. lia.
Qed.

Lemma length_least_squares_buffer p r :
  length (least_squares_buffer get_srs_information est grid config p r)
  = sequence_length (get_srs_information (resource config) p)
    `min` length (pilot_sequence get_srs_information est config p).
Proof.
  unfold least_squares_buffer.
  destruct (1 <? nof_symbols (resource config)); unfold srsvec.sc_prod, srsvec.prod_conj;
    rewrite ?length_fmap, length_zip_with, length_summed_symbols; reflexivity.
Qed.

Lemma length_compensated_lse p r :
  length (compensated_lse get_srs_information est grid config p r)
  = sequence_length (get_srs_information (resource config) p)
    `min` length (pilot_sequence get_srs_information est config p).
Proof.
  unfold compensated_lse. rewrite compensate_phase_shift_length.
  apply length_least_squares_buffer.
Qed.

Lemma length_rec_samples rnti_value r p info mean_lse :
  length (rec_samples (make_csi_record config rnti_value r p info mean_lse))
  = length mean_lse.
Proof. unfold make_csi_record. cbn [rec_samples]. apply length_imap. Qed.

Lemma collected_records_elem rnti_value rec :
  rec ∈ collected_records get_srs_information est grid config rnti_value →
  ∃ r p, r < length (ports config) ∧ p < nof_antenna_ports (resource config)
         ∧ rec = make_csi_record config rnti_value r p
                   (get_srs_information (resource config) p)
                   (compensated_lse get_srs_information est grid config p r).
Proof.
  unfold collected_records. intros Hin.
  apply list_elem_of_bind in Hin as (r & Hin & Hr).
  apply list_elem_of_fmap in Hin as (p & -> & Hp).
  apply elem_of_seq in Hr, Hp. exists r, p. split; [lia|]. split; [lia|reflexivity].
Qed.

Hypothesis has_symbol : 1 ≤ nof_symbols (resource config).

(** Every record of a call carries the RNTI of the context. *)
Lemma estimate_csi_log_rnti rnti_value :
  extract_rnti (context config) = Some rnti_value →
  Forall (fun rec => rec_rnti rec = rnti_value)
         (estimate_csi_log get_srs_information est grid config).
Proof.
  intros Hrnti. unfold estimate_csi_log.
  destruct (after_coefficients_collected get_srs_information est grid config has_symbol
              rnti_value Hrnti) as [_ ->].
  apply Forall_forall. intros rec Hin.
  apply collected_records_elem in Hin as (r & p & _ & _ & ->). reflexivity.
Qed.

Lemma estimate_csi_log_skipped :
  extract_rnti (context config) = None →
  estimate_csi_log get_srs_information est grid config = [].
Proof.
  intros Hskip. unfold estimate_csi_log.
  destruct (after_coefficients_skipped get_srs_information est grid config Hskip)
    as (_ & _ & _ & ->).
  destruct (after_antenna_ports_frame get_srs_information est grid config)
    as (_ & _ & _ & ->). reflexivity.
Qed.

(** Every record of a call fits a file when the sequences do. *)
Lemma estimate_csi_log_fits :
  (∀ p, (16 + 12 * Z.of_nat (sequence_length (get_srs_information (resource config) p))
         ≤ Collection.SRS_CSI_MAX_FILE_SIZE)%Z) →
  Forall record_fits (estimate_csi_log get_srs_information est grid config).
Proof.
  intros Hlen.
  destruct (extract_rnti (context config)) as [rnti_value|] eqn:Hrnti;
    [|rewrite estimate_csi_log_skipped by exact Hrnti; constructor].
  unfold estimate_csi_log.
  destruct (after_coefficients_collected get_srs_information est grid config has_symbol
              rnti_value Hrnti) as [_ ->].
  apply Forall_forall. intros rec Hin.
  apply collected_records_elem in Hin as (r & p & _ & _ & ->).
  split.
  - cbn [make_csi_record rec_rnti]. pose proof (extract_rnti_range _ _ Hrnti). lia.
  - rewrite length_rec_samples, length_compensated_lse. specialize (Hlen p). lia.
Qed.

End RecordsOfCall.

(** The requests whose records fit a file: at least one symbol, and
    sequences of at most (100 MB - 16) / 12 samples. *)
Lemma serve_invariant get_srs_information est env requests st :
  Forall (fun request =>
            1 ≤ nof_symbols (resource request.2)
            ∧ ∀ p, (16 + 12 * Z.of_nat (sequence_length
                                          (get_srs_information (resource request.2) p))
                    ≤ Collection.SRS_CSI_MAX_FILE_SIZE)%Z) requests →
  collector_invariant st →
  collector_invariant (serve get_srs_information est env st requests).
Proof.
  revert st. induction requests as [|[grid config] requests IH]; intros st Hreq Hinv;
    [exact Hinv|].
  apply Forall_cons in Hreq as [[Hsym Hlen] Hreq]. cbn [fst snd] in Hsym, Hlen.
  unfold serve. cbn [foldl]. apply IH; [exact Hreq|].
  unfold estimate_and_collect. cbn [fst snd].
  pose proof (collect_all_invariant env
                (estimate_csi_log get_srs_information est grid config) st Hinv
                (estimate_csi_log_fits get_srs_information est grid config Hsym Hlen))
    as Hstep.
  destruct (Collection.collect_all env st
              (estimate_csi_log get_srs_information est grid config)); exact Hstep.
Qed.

Lemma serve_fits_invariant get_srs_information est env requests :
  Forall (request_fits get_srs_information) requests →
  collector_invariant (serve get_srs_information est env process_start requests).
Proof.
  intros Hfit. apply serve_invariant; [|apply process_start_invariant].
  eapply Forall_impl; [exact Hfit|]. intros request H. exact H.
Qed.

Lemma host_requests_fit : Forall (request_fits Scenario.get_srs_information) Host.requests.
Proof.
  repeat constructor. intros p. cbn. unfold Collection.SRS_CSI_MAX_FILE_SIZE. lia.
Qed.

Lemma host_data_file_not_metadata : Host.data_file ≠ Collection.metadata_path.
Proof. apply data_filename_not_metadata. Qed.

(** *** The files of the collector *)

(** "Rotation: New file created when current file reaches 100MB".  On
    any host and for any sequence of calls whose records fit a file, the
    process appends at most 100 MB to each data file. *)
Theorem data_files_stay_within_limit get_srs_information est env requests path :
  Forall (request_fits get_srs_information) requests →
  path ≠ Collection.metadata_path →
  (Collection.file_size
     (Collection.outside (serve get_srs_information est env process_start requests)) path
   ≤ Collection.SRS_CSI_MAX_FILE_SIZE)%Z.
Proof.
  intros Hfit Hpath.
  apply (inv_limit _ (serve_fits_invariant get_srs_information est env requests Hfit)).
  exact Hpath.
Qed.

Lemma data_files_stay_within_limit_witness :
  (Collection.file_size
     (Collection.outside
        (serve Scenario.get_srs_information Scenario.estimator Host.writable
           process_start Host.requests))
     Host.data_file
   ≤ Collection.SRS_CSI_MAX_FILE_SIZE)%Z.
Proof.
  apply (data_files_stay_within_limit Scenario.get_srs_information Scenario.estimator
           Host.writable Host.requests Host.data_file).
  - apply host_requests_fit.
  - apply host_data_file_not_metadata.
Defined.

(** The size tracker is exact: after any sequence of calls whose
    records fit a file, an initialised collector stored under an RNTI
    carries that RNTI, its current file is named after the RNTI, the
    session and the file counter, and [current_file_size] is the number
    of bytes the process has appended to that file. *)
Theorem size_tracker_is_exact get_srs_information est env requests rnti_value :
  Forall (request_fits get_srs_information) requests →
  let st := serve get_srs_information est env process_start requests in
  let collector :=
    default Collection.default_collector (Collection.rnti_collectors st !! rnti_value) in
  Collection.initialized collector = true →
  Collection.rnti collector = rnti_value
  ∧ Collection.get_filename collector
    = Collection.data_filename rnti_value (Collection.session_start_time collector)
        (Collection.file_counter collector)
  ∧ Collection.file_size (Collection.outside st) (Collection.get_filename collector)
    = Collection.current_file_size collector.
Proof.
  intros Hfit st collector Hinit.
  pose proof (serve_fits_invariant get_srs_information est env requests Hfit) as Hinv.
  fold st in Hinv. subst collector.
  destruct (Collection.rnti_collectors st !! rnti_value) as [c|] eqn:Hc;
    [|discriminate].
  apply (inv_collector st Hinv rnti_value c Hc Hinit).
Qed.

Lemma size_tracker_is_exact_witness :
  let st :=
    serve Scenario.get_srs_information Scenario.estimator Host.writable
      process_start Host.requests in
  let collector :=
    default Collection.default_collector (Collection.rnti_collectors st !! 17921%Z) in
  Collection.rnti collector = 17921%Z
  ∧ Collection.get_filename collector
    = Collection.data_filename 17921 (Collection.session_start_time collector)
        (Collection.file_counter collector)
  ∧ Collection.file_size (Collection.outside st) (Collection.get_filename collector)
    = Collection.current_file_size collector.
Proof.
  apply (size_tracker_is_exact Scenario.get_srs_information Scenario.estimator
           Host.writable Host.requests 17921).
  - apply host_requests_fit.
  - vm_compute. reflexivity.
Defined.

(** "One per RNTI (thread-safe via separate files)": after any
    sequence of calls whose records fit a file, every data file consists
    of whole records (a 16-byte header and 12 bytes per tone), all of the
    RNTI the name of the file carries. *)
Theorem data_files_hold_records_of_their_rnti get_srs_information est env requests path :
  Forall (request_fits get_srs_information) requests →
  path ≠ Collection.metadata_path →
  Forall (fun chunks =>
            ∃ ts rec session counter,
              chunks = Collection.record_chunks ts rec
              ∧ path = Collection.data_filename (rec_rnti rec) session counter)
         (Collection.appended
            (Collection.outside (serve get_srs_information est env process_start requests))
            path).
Proof.
  intros Hfit Hpath. apply Forall_forall. intros chunks Hin.
  apply (inv_records _ (serve_fits_invariant get_srs_information est env requests Hfit)
           path chunks Hpath Hin).
Qed.

Lemma data_files_hold_records_of_their_rnti_witness :
  Forall (fun chunks =>
            ∃ ts rec session counter,
              chunks = Collection.record_chunks ts rec
              ∧ Host.data_file = Collection.data_filename (rec_rnti rec) session counter)
         (Collection.appended
            (Collection.outside
               (serve Scenario.get_srs_information Scenario.estimator Host.writable
                  process_start Host.requests))
            Host.data_file).
Proof.
  apply (data_files_hold_records_of_their_rnti Scenario.get_srs_information
           Scenario.estimator Host.writable Host.requests Host.data_file).
  - apply host_requests_fit.
  - apply host_data_file_not_metadata.
Defined.

(** Two collectors whose RNTIs are [uint16_t] values rotate to the same
    file name only when they carry the same RNTI, and then, within one
    session, only from the same file counter: collectors of different
    RNTIs never share a file, and a collector that rotates again never
    gets the name it had. *)
Theorem rotated_file_name_identifies_collector env1 env2 c1 c2 w1 w2 :
  (0 ≤ Collection.rnti c1 < 65536)%Z →
  (0 ≤ Collection.rnti c2 < 65536)%Z →
  let rotated1 := (Collection.rotate_file env1 c1 w1).1 in
  let rotated2 := (Collection.rotate_file env2 c2 w2).1 in
  (Collection.get_filename rotated1 = Collection.get_filename rotated2 →
   Collection.rnti c1 = Collection.rnti c2
   ∧ (Collection.session_start_time c1 = Collection.session_start_time c2 →
      Collection.file_counter c1 = Collection.file_counter c2))
  ∧ (Collection.rnti c1 ≠ Collection.rnti c2 →
     String.eqb (Collection.get_filename rotated1) (Collection.get_filename rotated2)
     = false)
  ∧ String.eqb
      (Collection.get_filename (Collection.rotate_file env2 rotated1 w2).1)
      (Collection.get_filename rotated1)
    = false.
Proof.
  intros H1 H2. cbv zeta. unfold Collection.get_filename.
  destruct (rotate_file_spec env2 (Collection.rotate_file env1 c1 w1).1 w2)
    as (_ & _ & _ & _ & _ & -> & _).
  destruct (rotate_file_spec env1 c1 w1) as (-> & -> & _ & -> & _ & -> & _).
  destruct (rotate_file_spec env2 c2 w2) as (_ & _ & _ & _ & _ & -> & _).
  assert (Collection.data_filename (Collection.rnti c1) (Collection.session_start_time c1)
            (Collection.file_counter c1 + 1)
          = Collection.data_filename (Collection.rnti c2)
              (Collection.session_start_time c2) (Collection.file_counter c2 + 1) →
          Collection.rnti c1 = Collection.rnti c2
          ∧ (Collection.session_start_time c1 = Collection.session_start_time c2 →
             Collection.file_counter c1 = Collection.file_counter c2)) as Hsame.
  { intros Heq. pose proof (data_filename_rnti _ _ _ _ _ _ H1 H2 Heq) as Hrnti.
    split; [exact Hrnti|]. intros Hsession. rewrite Hrnti, Hsession in Heq.
    apply data_filename_counter in Heq. lia. }
  split; [exact Hsame|]. split.
  - intros Hne. apply String.eqb_neq. intros Heq. apply Hne, Hsame, Heq.
  - apply String.eqb_neq. intros Heq. apply data_filename_counter in Heq. lia.
Qed.

Lemma rotated_file_name_identifies_collector_witness :
  let rotated1 :=
    (Collection.rotate_file Host.writable (Host.collector_of 17921)
       (Collection.outside Host.after_two_ues)).1 in
  let rotated2 :=
    (Collection.rotate_file Host.writable (Host.collector_of 17922)
       (Collection.outside Host.after_two_ues)).1 in
  Collection.initialized (Host.collector_of 17921) = true
  ∧ Collection.initialized (Host.collector_of 17922) = true
  ∧ Collection.packet_counter (Host.collector_of 17921) = 3%Z
  ∧ String.eqb (Collection.get_filename rotated1) (Collection.get_filename rotated2)
    = false
  ∧ String.eqb
      (Collection.get_filename
         (Collection.rotate_file Host.writable rotated1
            (Collection.outside Host.after_two_ues)).1)
      (Collection.get_filename rotated1)
    = false.
Proof.
  cbv zeta.
  split; [vm_compute; reflexivity|]. split; [vm_compute; reflexivity|].
  split; [vm_compute; reflexivity|].
  assert ((0 ≤ Collection.rnti (Host.collector_of 17921) < 65536)%Z) as H1
    by (vm_compute; split; [discriminate|reflexivity]).
  assert ((0 ≤ Collection.rnti (Host.collector_of 17922) < 65536)%Z) as H2
    by (vm_compute; split; [discriminate|reflexivity]).
  destruct (rotated_file_name_identifies_collector Host.writable Host.writable
              (Host.collector_of 17921) (Host.collector_of 17922)
              (Collection.outside Host.after_two_ues)
              (Collection.outside Host.after_two_ues) H1 H2) as (_ & Hne & Hagain).
  split; [|exact Hagain].
  apply Hne. vm_compute. discriminate.
Defined.

(** The tag a collector puts into its file names reads back as its
    RNTI: a context that ends in [rnti=] and the tag, after a prefix
    without the letter n (as in "sector_id=0 "), yields the RNTI of the
    tag, for every RNTI but zero. *)
Theorem rnti_tag_round_trip (prefix : string) (rnti_value : Z) :
  free_of "n" prefix = true → (0 < rnti_value < 65536)%Z →
  extract_rnti (Some (prefix +:+ "rnti=" +:+ Collection.snprintf_0x04x 8 rnti_value))
  = Some rnti_value.
Proof. apply extract_rnti_of_tag. Qed.

Lemma rnti_tag_round_trip_witness :
  extract_rnti (Some ("sector_id=0 " +:+ "rnti=" +:+ Collection.snprintf_0x04x 8 17921))
  = Some 17921%Z.
Proof.
  apply (rnti_tag_round_trip "sector_id=0 " 17921).
  - reflexivity.
  - lia.
Defined.

(** [estimate] throws exactly when the context yields an RNTI, there
    is at least one (receive port, transmit port) pair, the collector of
    that RNTI is not initialised and the output directory cannot be
    created; it then has appended nothing.  In every other case it
    returns the estimate. *)
Theorem estimate_throws_exactly_when get_srs_information est env st grid config :
  1 ≤ nof_symbols (resource config) →
  let call := estimate_and_collect get_srs_information est env st grid config in
  (call.1 = None
   ↔ ∃ rnti_value,
       extract_rnti (context config) = Some rnti_value
       ∧ 0 < length (ports config) * nof_antenna_ports (resource config)
       ∧ Collection.initialized
           (default Collection.default_collector
              (Collection.rnti_collectors st !! rnti_value)) = false
       ∧ Collection.create_directories env (Collection.clock (Collection.outside st))
           Collection.SRS_CSI_OUTPUT_DIR = false)
  ∧ (call.1 = None →
     Collection.files (Collection.outside call.2) = Collection.files (Collection.outside st))
  ∧ (call.1 ≠ None → call.1 = Some (estimate get_srs_information est grid config)).
Proof.
  intros Hsym. cbv zeta. unfold estimate_and_collect.
  destruct (extract_rnti (context config)) as [rnti_value|] eqn:Hrnti.
  - pose proof (estimate_csi_log_rnti get_srs_information est grid config Hsym
                  rnti_value Hrnti) as Hall.
    assert (length (estimate_csi_log get_srs_information est grid config)
            = length (ports config) * nof_antenna_ports (resource config)) as Hlen.
    { unfold estimate_csi_log.
      destruct (after_coefficients_collected get_srs_information est grid config Hsym
                  rnti_value Hrnti) as [_ ->].
      unfold collected_records. apply length_bind_fmap_seq. }
    destruct (estimate_csi_log get_srs_information est grid config) as [|rec recs].
    + cbn [Collection.collect_all fst snd]. cbn [length] in Hlen.
      split; [split|split].
      * discriminate.
      * intros (v & _ & Hpos & _). lia.
      * discriminate.
      * reflexivity.
    + pose proof (collect_all_outcome env rnti_value rec recs st Hall) as Hout.
      cbv zeta in Hout. cbn [length] in Hlen.
      destruct (Collection.initialized
                  (default Collection.default_collector
                     (Collection.rnti_collectors st !! rnti_value))) eqn:Hinit;
        cbn [orb] in Hout.
      * destruct Hout as (st' & ->). cbn [fst snd].
        split; [split|split].
        -- discriminate.
        -- intros (v & [= <-] & _ & Hv & _). congruence.
        -- discriminate.
        -- reflexivity.
      * destruct (Collection.create_directories env
                    (Collection.clock (Collection.outside st))
                    Collection.SRS_CSI_OUTPUT_DIR) eqn:Hdir.
        -- destruct Hout as (st' & ->). cbn [fst snd].
           split; [split|split].
           ++ discriminate.
           ++ intros (v & _ & _ & _ & Hv). congruence.
           ++ discriminate.
           ++ reflexivity.
        -- destruct Hout as (st' & -> & Hfiles). cbn [fst snd].
           split; [split|split].
           ++ intros _. exists rnti_value. repeat split; [lia|exact Hinit].
           ++ reflexivity.
           ++ intros _. exact Hfiles.
           ++ intros H. destruct H. reflexivity.
  - rewrite (estimate_csi_log_skipped get_srs_information est grid config Hrnti).
    cbn [Collection.collect_all fst snd].
    split; [split|split].
    + discriminate.
    + intros (v & Hv & _). discriminate.
    + discriminate.
    + reflexivity.
Qed.

Lemma estimate_throws_exactly_when_witness :
  (estimate_and_collect Scenario.get_srs_information Scenario.estimator Host.read_only
     process_start Scenario.grid_twos (Scenario.request [0] Scenario.with_context)).1
  = None.
Proof.
  apply (estimate_throws_exactly_when Scenario.get_srs_information Scenario.estimator
           Host.read_only process_start Scenario.grid_twos
           (Scenario.request [0] Scenario.with_context)).
  - simpl. lia.
  - exists 17921%Z. split; [vm_compute; reflexivity|].
    split; [simpl; lia|]. split; reflexivity.
Defined.

(** *** What the context cannot reach *)

Lemma after_coefficients_epre get_srs_information est grid config :
  epre (after_coefficients get_srs_information est grid config)
  = epre (after_antenna_ports get_srs_information est grid config).
Proof.
  unfold after_coefficients.
  apply (foldl_invariant
           (fun a => epre a = epre (after_antenna_ports get_srs_information est grid config))).
  - reflexivity.
  - intros a x Ha. unfold rx_port_coefficients_step. cbn [epre].
    apply (foldl_invariant
             (fun b => epre b
                       = epre (after_antenna_ports get_srs_information est grid config)));
      [exact Ha|].
    intros b y Hb.
    destruct (coefficient_step_time_alignment get_srs_information est config x b y)
      as [_ ->].
    exact Hb.
Qed.

(** Whatever the context is, and whether or not it makes the
    collection block skip the coefficients, the returned time alignment
    and the returned EPRE are those of the request: both are complete
    before the loop that reads the context. *)
Theorem time_alignment_and_epre_ignore_context get_srs_information est grid config ctx :
  let with_ctx := estimate get_srs_information est grid (set_context config ctx) in
  let result := estimate get_srs_information est grid config in
  time_alignment with_ctx = time_alignment result
  ∧ epre_dB with_ctx = epre_dB result.
Proof.
  cbv zeta. destruct config as [num res prts ctx0]. unfold set_context.
  cbn [numerology resource ports context].
  unfold estimate, normalized_epre. cbn [time_alignment epre_dB].
  rewrite !after_coefficients_time_alignment, !after_coefficients_epre.
  split; reflexivity.
Qed.

(** *** The size of a record *)

(** When the sequence generator fills the span it is given and the
    antenna ports share the sequence length, every record of a call holds
    one sample per tone of the sequence, and takes 16 + 12 × sequence
    length bytes in the file. *)
Theorem record_size_is_sequence_length get_srs_information est grid config :
  1 ≤ nof_symbols (resource config) →
  (∀ size u v alpha n_cs_max,
     length (sequence_generator (deps est) size u v alpha n_cs_max) = size) →
  (∀ i_antenna_port, i_antenna_port < nof_antenna_ports (resource config) →
     sequence_length (get_srs_information (resource config) i_antenna_port)
     = common_sequence_length get_srs_information config) →
  Forall (fun rec =>
            length (rec_samples rec) = common_sequence_length get_srs_information config
            ∧ ∀ ts, Collection.chunks_size (Collection.record_chunks ts rec)
                    = (16 + 12 * Z.of_nat (common_sequence_length get_srs_information config))%Z)
         (estimate_csi_log get_srs_information est grid config).
Proof.
  intros Hsym Hgen Hcommon.
  destruct (extract_rnti (context config)) as [rnti_value|] eqn:Hrnti;
    [|rewrite estimate_csi_log_skipped by exact Hrnti; constructor].
  unfold estimate_csi_log.
  destruct (after_coefficients_collected get_srs_information est grid config Hsym
              rnti_value Hrnti) as [_ ->].
  apply Forall_forall. intros rec Hin.
  apply collected_records_elem in Hin as (r & p & _ & Hp & ->).
  assert (length (rec_samples
                    (make_csi_record config rnti_value r p
                       (get_srs_information (resource config) p)
                       (compensated_lse get_srs_information est grid config p r)))
          = common_sequence_length get_srs_information config) as Hlen.
  { rewrite length_rec_samples, length_compensated_lse. unfold pilot_sequence.
    rewrite Hgen, (Hcommon p Hp). unfold common_sequence_length, common_info. lia. }
  split; [exact Hlen|]. intros ts. rewrite chunks_size_record, Hlen. reflexivity.
Qed.

Lemma record_size_is_sequence_length_witness :
  let request := Scenario.request [0; 1] Scenario.with_context in
  let size := common_sequence_length Scenario.get_srs_information request in
  Forall (fun rec =>
            length (rec_samples rec) = size
            ∧ ∀ ts, Collection.chunks_size (Collection.record_chunks ts rec)
                    = (16 + 12 * Z.of_nat size)%Z)
         (estimate_csi_log Scenario.get_srs_information Scenario.estimator
            Scenario.grid_twos request).
Proof.
  apply (record_size_is_sequence_length Scenario.get_srs_information Scenario.estimator
           Scenario.grid_twos (Scenario.request [0; 1] Scenario.with_context)).
  - simpl. lia.
  - intros size u v alpha n_cs_max. simpl. apply length_replicate.
  - intros i_antenna_port _. reflexivity.
Defined.

(** ** RSRP and EPRE *)

Lemma foldl_ext_elem {A B} (f g : A → B → A) (a : A) (l : list B) :
  (∀ acc x, x ∈ l → f acc x = g acc x) → foldl f a l = foldl g a l.
Proof.
  revert a. induction l as [|x l IH]; intros a Hfg; [reflexivity|].
  cbn [foldl]. rewrite (Hfg a x) by left. apply IH.
  intros acc y Hy. apply Hfg. right. exact Hy.
Qed.

Section PowerFacts.

Variable get_srs_information : srs_resource_configuration -> nat -> srs_information.
Variable est : srs_estimator_generic_impl.
Variable grid : resource_grid_reader.
Variable config : srs_estimator_configuration.

Local Abbreviation symbol_step'' := (symbol_step get_srs_information grid config).
Local Abbreviation rx_port_step'' := (rx_port_step get_srs_information grid config).
Local Abbreviation antenna_port_step'' :=
  (antenna_port_step get_srs_information est grid config).
Local Abbreviation coefficient_step'' := (coefficient_step get_srs_information est config).
Local Abbreviation rx_port_coefficients_step'' :=
  (rx_port_coefficients_step get_srs_information est config).
Local Abbreviation size'' := (common_sequence_length get_srs_information config).
Local Abbreviation compensated'' ta v p :=
  (compensate_phase_shift est v
     (phase_shift_subcarrier config ta)
     (phase_shift_offset config (phase_shift_subcarrier config ta)
        (get_srs_information (resource config) p))).

(** The symbol loop adds the average power of each received sequence
    to [epre] for the antenna ports that feed the noise helper, and
    nothing for the others. *)
Lemma symbol_loop_epre info p rx_port (l : list nat) mean_lse noise_help epre0 :
  (foldl (symbol_step'' info p rx_port) (mean_lse, noise_help, epre0) l).2
  = if feeds_noise get_srs_information config p
    then foldl (fun acc i_symbol =>
                  fadd acc
                    (srsvec.average_power
                       (grid_get grid (sequence_length info) rx_port i_symbol
                          (mapping_initial_subcarrier info) (info_comb_size info))))
               epre0 l
    else epre0.
Proof.
  revert mean_lse noise_help epre0.
  induction l as [|i_symbol l IH]; intros mean_lse noise_help epre0.
  - cbn [foldl snd]. destruct (feeds_noise get_srs_information config p); reflexivity.
  - cbn [foldl].
    destruct (symbol_step'' info p rx_port (mean_lse, noise_help, epre0) i_symbol)
      as [[mean_lse' noise_help'] epre'] eqn:Hstep.
    rewrite IH. unfold symbol_step in Hstep.
    destruct (feeds_noise get_srs_information config p); injection Hstep as _ _ <-;
      reflexivity.
Qed.

Lemma rx_port_step_epre p st port_lse r sequence :
  epre (rx_port_step'' (get_srs_information (resource config) p) sequence p
          (st, port_lse) r).1
  = if feeds_noise get_srs_information config p
    then foldl (fun acc i_symbol =>
                  fadd acc
                    (srsvec.average_power
                       (received_symbol get_srs_information grid config p r i_symbol)))
               (epre st)
               (seq (start_symbol (resource config)) (nof_symbols (resource config)))
    else epre st.
Proof.
  unfold rx_port_step.
  pose proof (symbol_loop_epre (get_srs_information (resource config) p) p
                (default 0 (ports config !! r))
                (seq (cfg_start_symbol config) (cfg_nof_symbols config))
                (get_view size'' (temp_lse st) (r, p))
                (get_view size'' (temp_noise st)
                   (noise_parity get_srs_information config p, r))
                (epre st)) as Hepre.
  destruct (foldl _ _ _) as [[mean_lse noise_help] epre']. cbn [snd] in Hepre.
  cbn [fst epre]. exact Hepre.
Qed.

Lemma rx_port_loop_epre p n st port_lse sequence :
  epre (foldl (rx_port_step'' (get_srs_information (resource config) p) sequence p)
              (st, port_lse) (seq 0 n)).1
  = if feeds_noise get_srs_information config p
    then foldl (fun acc r =>
                  foldl (fun acc i_symbol =>
                           fadd acc
                             (srsvec.average_power
                                (received_symbol get_srs_information grid config
                                   p r i_symbol)))
                        acc
                        (seq (start_symbol (resource config))
                             (nof_symbols (resource config))))
               (epre st) (seq 0 n)
    else epre st.
Proof.
  induction n as [|n IH].
  - cbn [seq foldl fst]. destruct (feeds_noise get_srs_information config p); reflexivity.
  - rewrite seq_S, !foldl_app. change (0 + n) with n. cbn [foldl].
    destruct (foldl _ (st, port_lse) (seq 0 n)) as [st1 port_lse1]. cbn [fst] in IH.
    rewrite rx_port_step_epre, IH.
    destruct (feeds_noise get_srs_information config p); reflexivity.
Qed.

Lemma antenna_port_step_epre st p :
  epre (antenna_port_step'' st p)
  = if feeds_noise get_srs_information config p
    then foldl (fun acc r =>
                  foldl (fun acc i_symbol =>
                           fadd acc
                             (srsvec.average_power
                                (received_symbol get_srs_information grid config
                                   p r i_symbol)))
                        acc
                        (seq (start_symbol (resource config))
                             (nof_symbols (resource config))))
               (epre st) (seq 0 (length (ports config)))
    else epre st.
Proof.
  unfold antenna_port_step.
  match goal with
  | |- context [foldl (rx_port_step'' ?info ?sequence p) (?st0, ?pl) (seq 0 ?n)] =>
      pose proof (rx_port_loop_epre p n st0 pl sequence) as Hloop;
      destruct (foldl (rx_port_step'' info sequence p) (st0, pl) (seq 0 n))
        as [st1 port_lse1]
  end.
  cbn [fst epre] in Hloop. cbn [epre]. exact Hloop.
Qed.

Lemma antenna_port_loop_epre n st0 :
  epre (foldl antenna_port_step'' st0 (seq 0 n))
  = foldl (fun acc p =>
             if feeds_noise get_srs_information config p
             then
               foldl (fun acc r =>
                        foldl (fun acc i_symbol =>
                                 fadd acc
                                   (srsvec.average_power
                                      (received_symbol get_srs_information grid config
                                         p r i_symbol)))
                              acc
                              (seq (start_symbol (resource config))
                                   (nof_symbols (resource config))))
                     acc (seq 0 (length (ports config)))
             else acc)
          (epre st0) (seq 0 n).
Proof.
  induction n as [|n IH]; [reflexivity|].
  rewrite seq_S, !foldl_app. change (0 + n) with n. cbn [foldl].
  rewrite antenna_port_step_epre, IH. reflexivity.
Qed.

Lemma after_antenna_ports_epre :
  epre (after_antenna_ports get_srs_information est grid config)
  = received_power get_srs_information grid config.
Proof. unfold after_antenna_ports. rewrite antenna_port_loop_epre. reflexivity. Qed.

(** With an RNTI extracted, the inner loop adds the squared magnitude
    of the coefficient of each pair it passes to [rsrp]. *)
Lemma coefficient_loop_rsrp rnti_value r n st0 :
  extract_rnti (context config) = Some rnti_value →
  rsrp (foldl (coefficient_step'' r) st0 (seq 0 n))
  = foldl (fun acc p =>
             fadd acc
               (cnorm (srsvec.mean
                         (compensated'' (ta_time_alignment (result_time_alignment st0))
                            (get_view size'' (temp_lse st0) (r, p)) p))))
          (rsrp st0) (seq 0 n).
Proof.
  intros Hrnti. induction n as [|n IH]; [reflexivity|].
  rewrite seq_S, !foldl_app. change (0 + n) with n. cbn [foldl].
  destruct (coefficient_loop_temp_lse get_srs_information est config r n st0)
    as (Hta & _ & Hkeep).
  cbv zeta in Hta, Hkeep.
  destruct (coefficient_step_collected get_srs_information est config rnti_value Hrnti r
              (foldl (coefficient_step'' r) st0 (seq 0 n)) n) as (_ & _ & ->).
  rewrite IH, Hta. unfold get_view. rewrite (Hkeep r n) by (right; lia). reflexivity.
Qed.

Lemma rx_port_coefficients_loop_rsrp rnti_value m st0 :
  extract_rnti (context config) = Some rnti_value →
  rsrp (foldl rx_port_coefficients_step'' st0 (seq 0 m))
  = foldl (fun acc r =>
             foldl (fun acc p =>
                      fadd acc
                        (cnorm (srsvec.mean
                                  (compensated''
                                     (ta_time_alignment (result_time_alignment st0))
                                     (get_view size'' (temp_lse st0) (r, p)) p))))
                   acc (seq 0 (cfg_nof_antenna_ports config)))
          (rsrp st0) (seq 0 m).
Proof.
  intros Hrnti. induction m as [|m IH]; [reflexivity|].
  rewrite seq_S, !foldl_app. change (0 + m) with m. cbn [foldl].
  destruct (rx_port_coefficients_loop_temp_lse get_srs_information est config m st0)
    as (Hta & _ & Hkeep).
  cbv zeta in Hta, Hkeep.
  set (st1 := foldl rx_port_coefficients_step'' st0 (seq 0 m)) in *.
  unfold rx_port_coefficients_step at 1. cbn [rsrp].
  rewrite (coefficient_loop_rsrp rnti_value m (cfg_nof_antenna_ports config) st1 Hrnti).
  rewrite IH, Hta.
  apply foldl_ext_elem. intros acc p Hp. apply elem_of_seq in Hp.
  unfold get_view. rewrite (Hkeep m p) by (left; lia). reflexivity.
Qed.

End PowerFacts.

(** The returned EPRE is the mean received power: the average powers
    of the received sequences of the antenna ports that feed the noise
    helper, over all receive ports and symbols, divided by the number of
    symbols × correction factor × number of receive ports.  Neither the
    pilots nor the context take part in it. *)
Theorem epre_is_mean_received_power get_srs_information est grid config :
  epre_dB (estimate get_srs_information est grid config)
  = convert_power_to_dB
      (fdiv (received_power get_srs_information grid config)
            (float_of_Z
               (u32 (u32 (Z.of_nat (nof_symbols (resource config))
                          * correction_factor get_srs_information config)
                     * Z.of_nat (length (ports config)))))).
Proof.
  unfold estimate, normalized_epre. cbn [epre_dB].
  rewrite after_coefficients_epre, after_antenna_ports_epre. reflexivity.
Qed.

(** When the collection block extracts an RNTI, the returned RSRP is
    the mean coefficient power: the squared magnitudes of the wideband
    coefficients of all pairs, before their normalisation, divided by the
    number of antenna ports × number of receive ports. *)
Theorem rsrp_is_mean_coefficient_power get_srs_information est grid config rnti_value :
  1 ≤ nof_symbols (resource config) →
  extract_rnti (context config) = Some rnti_value →
  rsrp_dB (estimate get_srs_information est grid config)
  = convert_power_to_dB
      (fdiv (coefficient_power get_srs_information est grid config)
            (float_of_Z
               (u32 (Z.of_nat (nof_antenna_ports (resource config))
                     * Z.of_nat (length (ports config)))))).
Proof.
  intros Hsym Hrnti. unfold estimate, normalized_rsrp. cbn [rsrp_dB].
  f_equal. f_equal. unfold after_coefficients.
  rewrite (rx_port_coefficients_loop_rsrp get_srs_information est config rnti_value
             (nof_rx_ports config)
             (after_time_alignment get_srs_information est grid config) Hrnti).
  assert (rsrp (after_time_alignment get_srs_information est grid config) = fzero) as ->.
  { unfold after_time_alignment. cbn [rsrp].
    destruct (after_antenna_ports_frame get_srs_information est grid config)
      as (_ & _ & -> & _). reflexivity. }
  unfold coefficient_power. apply foldl_ext_elem. intros acc r Hr.
  apply elem_of_seq in Hr. apply foldl_ext_elem. intros acc' p Hp.
  apply elem_of_seq in Hp.
  rewrite (after_time_alignment_view get_srs_information est grid config Hsym r p)
    by (unfold nof_rx_ports, cfg_nof_antenna_ports in *; lia).
  reflexivity.
Qed.

Lemma rsrp_is_mean_coefficient_power_witness :
  let request := Scenario.request [0; 1] Scenario.with_context in
  rsrp_dB (estimate Scenario.get_srs_information Scenario.estimator Scenario.grid_twos
             request)
  = convert_power_to_dB
      (fdiv (coefficient_power Scenario.get_srs_information Scenario.estimator
               Scenario.grid_twos request)
            (float_of_Z
               (u32 (Z.of_nat (nof_antenna_ports (resource request))
                     * Z.of_nat (length (ports request)))))).
Proof.
  apply (rsrp_is_mean_coefficient_power Scenario.get_srs_information Scenario.estimator
           Scenario.grid_twos (Scenario.request [0; 1] Scenario.with_context) 17921).
  - simpl. lia.
  - vm_compute. reflexivity.
Defined.

(** ** The noise helper through both loop nests *)

Lemma foldl_unchanged {A B} (f : A → B → A) (a : A) (l : list B) :
  (∀ acc x, x ∈ l → f acc x = acc) → foldl f a l = a.
Proof.
  revert a. induction l as [|x l IH]; intros a Hf; [reflexivity|].
  cbn [foldl]. rewrite (Hf a x) by left. apply IH.
  intros acc y Hy. apply Hf. right. exact Hy.
Qed.

Section NoiseFacts.

Variable get_srs_information : srs_resource_configuration -> nat -> srs_information.
Variable est : srs_estimator_generic_impl.
Variable grid : resource_grid_reader.
Variable config : srs_estimator_configuration.

Local Abbreviation symbol_step3 := (symbol_step get_srs_information grid config).
Local Abbreviation rx_port_step3 := (rx_port_step get_srs_information grid config).
Local Abbreviation antenna_port_step3 :=
  (antenna_port_step get_srs_information est grid config).
Local Abbreviation coefficient_step3 := (coefficient_step get_srs_information est config).
Local Abbreviation rx_port_coefficients_step3 :=
  (rx_port_coefficients_step get_srs_information est config).
Local Abbreviation size3 := (common_sequence_length get_srs_information config).
Local Abbreviation parity3 := (noise_parity get_srs_information config).
Local Abbreviation feeds3 := (feeds_noise get_srs_information config).
Local Abbreviation added3 := (symbols_added get_srs_information grid config).

Lemma symbol_loop_noise info p rx_port (l : list nat) mean_lse noise_help epre0 :
  (foldl (symbol_step3 info p rx_port) (mean_lse, noise_help, epre0) l).1.2
  = if feeds3 p
    then foldl (fun acc i_symbol =>
                  srsvec.add (grid_get grid (sequence_length info) rx_port i_symbol
                                (mapping_initial_subcarrier info) (info_comb_size info))
                             acc)
               noise_help l
    else noise_help.
Proof.
  revert mean_lse noise_help epre0.
  induction l as [|i_symbol l IH]; intros mean_lse noise_help epre0.
  - cbn [foldl fst snd]. destruct (feeds3 p); reflexivity.
  - cbn [foldl].
    destruct (symbol_step3 info p rx_port (mean_lse, noise_help, epre0) i_symbol)
      as [[mean_lse' noise_help'] epre'] eqn:Hstep.
    rewrite IH. unfold symbol_step in Hstep.
    destruct (feeds3 p); injection Hstep as _ <- _; reflexivity.
Qed.

Lemma rx_port_step_noise p st port_lse r sequence :
  temp_noise (rx_port_step3 (get_srs_information (resource config) p) sequence p
                (st, port_lse) r).1
  = <[(parity3 p, r) :=
        if feeds3 p
        then added3 p r (get_view size3 (temp_noise st) (parity3 p, r))
        else get_view size3 (temp_noise st) (parity3 p, r)]> (temp_noise st).
Proof.
  unfold rx_port_step.
  pose proof (symbol_loop_noise (get_srs_information (resource config) p) p
                (default 0 (ports config !! r))
                (seq (cfg_start_symbol config) (cfg_nof_symbols config))
                (get_view size3 (temp_lse st) (r, p))
                (get_view size3 (temp_noise st) (parity3 p, r))
                (epre st)) as Hnoise.
  destruct (foldl _ _ _) as [[mean_lse noise_help] epre']. cbn [fst snd] in Hnoise.
  cbn [fst temp_noise]. rewrite Hnoise. reflexivity.
Qed.

Lemma get_view_insert {K} `{Countable K} (size : nat) (t : gmap K (list cf_t)) (k k' : K) v :
  get_view size (<[k := v]> t) k' = if decide (k = k') then v else get_view size t k'.
Proof.
  unfold get_view. destruct (decide (k = k')) as [->|Hne].
  - rewrite lookup_insert_eq. reflexivity.
  - rewrite lookup_insert_ne by exact Hne. reflexivity.
Qed.

(** The receive-port loop of antenna port [p]: the views of the
    receive ports it has passed take the symbols of [p] when [p] feeds
    the noise helper; every other view stays. *)
Lemma rx_port_loop_noise p n st port_lse sequence q r :
  get_view size3
    (temp_noise (foldl (rx_port_step3 (get_srs_information (resource config) p) sequence p)
                       (st, port_lse) (seq 0 n)).1)
    (q, r)
  = if feeds3 p && (parity3 p =? q) && (r <? n)
    then added3 p r (get_view size3 (temp_noise st) (q, r))
    else get_view size3 (temp_noise st) (q, r).
Proof.
  induction n as [|n IH].
  - cbn [seq foldl fst]. rewrite andb_false_r. reflexivity.
  - rewrite seq_S, foldl_app. change (0 + n) with n. cbn [foldl].
    destruct (foldl _ (st, port_lse) (seq 0 n)) as [st1 port_lse1]. cbn [fst] in IH.
    rewrite rx_port_step_noise, get_view_insert.
    destruct (decide ((parity3 p, n) = (q, r))) as [[= Hq Hr]|Hne].
    + subst q r.
      assert (get_view size3 (temp_noise st1) (parity3 p, n)
              = get_view size3 (temp_noise st) (parity3 p, n)) as ->.
      { rewrite IH. rewrite Nat.ltb_irrefl, andb_false_r. reflexivity. }
      rewrite Nat.eqb_refl.
      replace (n <? S n) with true by (symmetry; apply Nat.ltb_lt; lia).
      rewrite !andb_true_r. reflexivity.
    + rewrite IH.
      destruct (feeds3 p); cbn [andb]; [|reflexivity].
      destruct (parity3 p =? q) eqn:Hq; cbn [andb]; [|reflexivity].
      apply Nat.eqb_eq in Hq.
      assert (r ≠ n) as Hr by congruence.
      replace (r <? S n) with (r <? n); [reflexivity|].
      destruct (r <? n) eqn:H1; symmetry.
      * apply Nat.ltb_lt in H1. apply Nat.ltb_lt. lia.
      * apply Nat.ltb_ge in H1. apply Nat.ltb_ge. lia.
Qed.

Lemma antenna_port_step_noise st p q r :
  get_view size3 (temp_noise (antenna_port_step3 st p)) (q, r)
  = (if feeds3 p && (parity3 p =? q) && (r <? nof_rx_ports config)
     then added3 p r (get_view size3 (temp_noise st) (q, r))
     else get_view size3 (temp_noise st) (q, r))
  ∧ all_sequences (antenna_port_step3 st p)
    = <[p := pilot_sequence get_srs_information est config p]> (all_sequences st).
Proof.
  unfold antenna_port_step.
  match goal with
  | |- context [foldl (rx_port_step3 ?info ?sequence p) (?st0, ?pl) (seq 0 ?n)] =>
      pose proof (rx_port_loop_noise p n st0 pl sequence q r) as Hloop;
      destruct (rx_port_loop_frame get_srs_information grid config info sequence p
                  (st0, pl) (seq 0 n)) as (_ & _ & _ & _ & _ & Hseq);
      destruct (foldl (rx_port_step3 info sequence p) (st0, pl) (seq 0 n))
        as [st1 port_lse1]
  end.
  cbn [fst temp_noise all_sequences] in Hloop, Hseq. cbn [temp_noise all_sequences].
  split; [exact Hloop|exact Hseq].
Qed.

Lemma antenna_port_loop_noise n st0 q r :
  r < nof_rx_ports config →
  get_view size3 (temp_noise (foldl antenna_port_step3 st0 (seq 0 n))) (q, r)
  = foldl (fun acc p => if feeds3 p && (parity3 p =? q) then added3 p r acc else acc)
          (get_view size3 (temp_noise st0) (q, r)) (seq 0 n).
Proof.
  intros Hr. induction n as [|n IH]; [reflexivity|].
  rewrite seq_S, !foldl_app. change (0 + n) with n. cbn [foldl].
  destruct (antenna_port_step_noise (foldl antenna_port_step3 st0 (seq 0 n)) n q r)
    as [-> _].
  rewrite IH. replace (r <? nof_rx_ports config) with true
    by (symmetry; apply Nat.ltb_lt; exact Hr).
  rewrite andb_true_r. reflexivity.
Qed.

Lemma antenna_port_loop_sequences n st0 p :
  p < n →
  all_sequences (foldl antenna_port_step3 st0 (seq 0 n)) !! p
  = Some (pilot_sequence get_srs_information est config p).
Proof.
  induction n as [|n IH]; intros Hp; [lia|].
  rewrite seq_S, foldl_app. change (0 + n) with n. cbn [foldl].
  destruct (antenna_port_step_noise (foldl antenna_port_step3 st0 (seq 0 n)) n 0 0)
    as [_ ->].
  destruct (decide (p = n)) as [->|Hne].
  - apply lookup_insert_eq.
  - rewrite lookup_insert_ne by congruence. apply IH. lia.
Qed.

Lemma interleaved_four_ports :
  interleaved_pilots get_srs_information config = true →
  nof_antenna_ports (resource config) = 4.
Proof.
  unfold interleaved_pilots, cfg_nof_antenna_ports. intros H.
  apply andb_true_iff in H as [H _]. apply Nat.eqb_eq in H. exact H.
Qed.

(** After the transmit-port loop the view of a fed parity holds the
    symbols of its antenna port. *)
Lemma after_antenna_ports_noise q r :
  0 < nof_antenna_ports (resource config) →
  fed_parity get_srs_information config q → r < length (ports config) →
  get_view size3 (temp_noise (after_antenna_ports get_srs_information est grid config))
    (q, r)
  = noise_sum get_srs_information grid config q r.
Proof.
  intros Hports Hq Hr. unfold after_antenna_ports.
  rewrite antenna_port_loop_noise by exact Hr.
  unfold noise_sum. cbn [initial_locals temp_noise]. unfold get_view at 1.
  rewrite lookup_empty. cbn [default from_option id].
  unfold cfg_nof_antenna_ports.
  destruct (interleaved_pilots get_srs_information config) eqn:Hint.
  - rewrite (interleaved_four_ports Hint). unfold feeds_noise, noise_parity.
    rewrite Hint. destruct Hq as [->|[_ ->]]; reflexivity.
  - destruct Hq as [->|[? _]]; [|congruence].
    destruct (nof_antenna_ports (resource config)) as [|n]; [lia|].
    assert (feeds3 0 && (parity3 0 =? 0) = true) as Hzero
      by (unfold feeds_noise, noise_parity; rewrite Hint; reflexivity).
    cbn [seq foldl]. rewrite Hzero.
    apply foldl_unchanged. intros acc p Hp. apply elem_of_seq in Hp.
    unfold feeds_noise. rewrite Hint.
    destruct p as [|p]; [lia|]. reflexivity.
Qed.

End NoiseFacts.

Section ResidualFacts.

Variable get_srs_information : srs_resource_configuration -> nat -> srs_information.
Variable est : srs_estimator_generic_impl.
Variable grid : resource_grid_reader.
Variable config : srs_estimator_configuration.
Variable rnti_value : Z.
Hypothesis collected : extract_rnti (context config) = Some rnti_value.

Local Abbreviation coefficient_step4 := (coefficient_step get_srs_information est config).
Local Abbreviation rx_port_coefficients_step4 :=
  (rx_port_coefficients_step get_srs_information est config).
Local Abbreviation size4 := (common_sequence_length get_srs_information config).
Local Abbreviation parity4 := (noise_parity get_srs_information config).
Local Abbreviation feeds4 := (feeds_noise get_srs_information config).
Local Abbreviation slope4 st :=
  (phase_shift_subcarrier config (ta_time_alignment (result_time_alignment st))).
Local Abbreviation offset4 st p :=
  (phase_shift_offset config (slope4 st) (get_srs_information (resource config) p)).

(** The signal recovered for a pair, from the state before the loops. *)
Local Abbreviation recovered4 st r p :=
  (srsvec.sc_prod_c (get_view size4 (all_sequences st) p%nat)
     (cscale (float_of_Z (Z.of_nat (cfg_nof_symbols config)))
        (srsvec.mean
           (compensate_phase_shift est (get_view size4 (temp_lse st) (r%nat, p%nat))
              (slope4 st) (offset4 st p))))).

(** One pass of the inner loop, read on the view of one parity. *)
Local Abbreviation noise_step4 st r q :=
  (fun noise_help p =>
     if parity4 p =? q
     then srsvec.subtract
            (if feeds4 p
             then compensate_phase_shift est noise_help (slope4 st) (offset4 st p)
             else noise_help)
            (recovered4 st r p)
     else noise_help).

Lemma coefficient_step_noise r st p :
  temp_noise (coefficient_step4 r st p)
  = <[(parity4 p, r) :=
        noise_step4 st r (parity4 p) (get_view size4 (temp_noise st) (parity4 p, r)) p]>
      (temp_noise st)
  ∧ all_sequences (coefficient_step4 r st p) = all_sequences st
  ∧ noise_var (coefficient_step4 r st p) = noise_var st.
Proof.
  unfold coefficient_step. rewrite collected. cbn [temp_noise all_sequences noise_var].
  rewrite Nat.eqb_refl. auto.
Qed.

Lemma coefficient_loop_noise r n st0 :
  let st := foldl (coefficient_step4 r) st0 (seq 0 n) in
  (∀ q r',
     get_view size4 (temp_noise st) (q, r')
     = if decide (r' = r)
       then foldl (noise_step4 st0 r q) (get_view size4 (temp_noise st0) (q, r)) (seq 0 n)
       else get_view size4 (temp_noise st0) (q, r'))
  ∧ all_sequences st = all_sequences st0
  ∧ noise_var st = noise_var st0.
Proof.
  cbv zeta. induction n as [|n IH].
  - cbn [seq foldl]. split; [|auto]. intros q r'.
    destruct (decide (r' = r)) as [->|_]; reflexivity.
  - rewrite seq_S, !foldl_app. change (0 + n) with n. cbn [foldl].
    destruct IH as (Hview & Hseq & Hvar).
    destruct (coefficient_loop_temp_lse get_srs_information est config r n st0)
      as (Hta & _ & Hkeep).
    cbv zeta in Hta, Hkeep.
    set (st1 := foldl (coefficient_step4 r) st0 (seq 0 n)) in *.
    destruct (coefficient_step_noise r st1 n) as (-> & -> & ->).
    split; [|split; [exact Hseq|exact Hvar]].
    intros q r'. rewrite get_view_insert.
    assert (get_view size4 (temp_lse st1) (r, n) = get_view size4 (temp_lse st0) (r, n))
      as Hlse by (unfold get_view; rewrite (Hkeep r n) by (right; lia); reflexivity).
    destruct (decide ((parity4 n, r) = (q, r'))) as [[= Hq Hr]|Hne].
    + subst q r'. rewrite decide_True by reflexivity.
      rewrite (Hview (parity4 n) r), decide_True by reflexivity.
      rewrite foldl_app. cbn [foldl].
      rewrite Hta, Hseq, Hlse. reflexivity.
    + rewrite (Hview q r'). destruct (decide (r' = r)) as [->|Hr]; [|reflexivity].
      assert (parity4 n ≠ q) as Hq by congruence.
      rewrite foldl_app. cbn [foldl].
      apply Nat.eqb_neq in Hq. rewrite Hq. reflexivity.
Qed.

(** The residual powers one pass of the outer loop adds. *)
Local Abbreviation noise_terms4 st :=
  (fun acc r =>
     let acc' :=
       fadd acc
         (residual_power
            (foldl (noise_step4 st r 0) (get_view size4 (temp_noise st) (0, r))
                   (seq 0 (cfg_nof_antenna_ports config)))) in
     if interleaved_pilots get_srs_information config
     then fadd acc'
            (residual_power
               (foldl (noise_step4 st r 1) (get_view size4 (temp_noise st) (1, r))
                      (seq 0 (cfg_nof_antenna_ports config))))
     else acc').

Lemma rx_port_coefficients_step_noise st r :
  noise_var (rx_port_coefficients_step4 st r) = noise_terms4 st (noise_var st) r
  ∧ (∀ q r', r' ≠ r →
       get_view size4 (temp_noise (rx_port_coefficients_step4 st r)) (q, r')
       = get_view size4 (temp_noise st) (q, r'))
  ∧ all_sequences (rx_port_coefficients_step4 st r) = all_sequences st.
Proof.
  unfold rx_port_coefficients_step. cbn [noise_var temp_noise all_sequences].
  destruct (coefficient_loop_noise r (cfg_nof_antenna_ports config) st)
    as (Hview & Hseq & Hvar).
  cbv zeta in Hview, Hseq, Hvar.
  rewrite Hvar, (Hview 0 r), (Hview 1 r), !decide_True by reflexivity.
  split; [reflexivity|]. split; [|exact Hseq].
  intros q r' Hr. rewrite (Hview q r'), decide_False by exact Hr. reflexivity.
Qed.

Lemma rx_port_coefficients_loop_noise m st0 :
  let st := foldl rx_port_coefficients_step4 st0 (seq 0 m) in
  noise_var st = foldl (noise_terms4 st0) (noise_var st0) (seq 0 m)
  ∧ (∀ q r', m ≤ r' →
       get_view size4 (temp_noise st) (q, r') = get_view size4 (temp_noise st0) (q, r'))
  ∧ all_sequences st = all_sequences st0.
Proof.
  cbv zeta. induction m as [|m IH].
  - cbn [seq foldl]. auto.
  - rewrite seq_S, !foldl_app. change (0 + m) with m. cbn [foldl].
    destruct IH as (Hvar & Hview & Hseq).
    destruct (rx_port_coefficients_loop_temp_lse get_srs_information est config m st0)
      as (Hta & _ & Hkeep).
    cbv zeta in Hta, Hkeep.
    set (st1 := foldl rx_port_coefficients_step4 st0 (seq 0 m)) in *.
    destruct (rx_port_coefficients_step_noise st1 m) as (-> & Hview1 & ->).
    split; [|split; [|exact Hseq]].
    + rewrite Hvar, Hta, Hseq, !(Hview _ m) by lia.
      assert (∀ p, get_view size4 (temp_lse st1) (m, p)
                   = get_view size4 (temp_lse st0) (m, p)) as Hlse.
      { intros p. unfold get_view. rewrite (Hkeep m p) by (left; lia). reflexivity. }
      assert (∀ q, foldl (fun noise_help p =>
                            if parity4 p =? q
                            then srsvec.subtract
                                   (if feeds4 p
                                    then compensate_phase_shift est noise_help
                                           (slope4 st0) (offset4 st0 p)
                                    else noise_help)
                                   (srsvec.sc_prod_c (get_view size4 (all_sequences st0) p)
                                      (cscale (float_of_Z (Z.of_nat (cfg_nof_symbols config)))
                                         (srsvec.mean
                                            (compensate_phase_shift est
                                               (get_view size4 (temp_lse st1) (m, p))
                                               (slope4 st0) (offset4 st0 p)))))
                            else noise_help)
                         (get_view size4 (temp_noise st0) (q, m))
                         (seq 0 (cfg_nof_antenna_ports config))
                   = foldl (noise_step4 st0 m q) (get_view size4 (temp_noise st0) (q, m))
                           (seq 0 (cfg_nof_antenna_ports config))) as Hfold.
      { intros q. apply foldl_ext_elem. intros acc p _. rewrite Hlse. reflexivity. }
      rewrite !Hfold. reflexivity.
    + intros q r' Hr. rewrite Hview1 by lia. apply Hview. lia.
Qed.

End ResidualFacts.

Section ResidualResults.

Variable get_srs_information : srs_resource_configuration -> nat -> srs_information.
Variable est : srs_estimator_generic_impl.
Variable grid : resource_grid_reader.
Variable config : srs_estimator_configuration.

Local Abbreviation parity5 := (noise_parity get_srs_information config).
Local Abbreviation feeds5 := (feeds_noise get_srs_information config).

(** Only the first antenna port of a parity feeds the noise helper, so
    the compensation of the helper comes before every subtraction. *)
Lemma noise_fold_compensates_first (C : nat → list cf_t → list cf_t) (R : nat → list cf_t)
    (q : nat) (z : list cf_t) :
  fed_parity get_srs_information config q →
  0 < nof_antenna_ports (resource config) →
  foldl (fun acc p =>
           if parity5 p =? q
           then srsvec.subtract (if feeds5 p then C p acc else acc) (R p)
           else acc)
        z (seq 0 (nof_antenna_ports (resource config)))
  = foldl (fun acc p => if parity5 p =? q then srsvec.subtract acc (R p) else acc)
          (C q z) (seq 0 (nof_antenna_ports (resource config))).
Proof.
  intros Hq Hports.
  destruct (interleaved_pilots get_srs_information config) eqn:Hint.
  - rewrite (interleaved_four_ports get_srs_information config Hint).
    unfold feeds_noise, noise_parity. rewrite Hint.
    destruct Hq as [->|[_ ->]]; reflexivity.
  - destruct Hq as [->|[? _]]; [|congruence].
    destruct (nof_antenna_ports (resource config)) as [|n]; [lia|].
    assert ((parity5 0 =? 0) = true) as Hparity
      by (unfold noise_parity; rewrite Hint; reflexivity).
    assert (feeds5 0 = true) as Hfeeds by reflexivity.
    cbn [seq foldl]. rewrite Hparity, Hfeeds.
    apply foldl_ext_elem. intros acc p Hp. apply elem_of_seq in Hp.
    assert (feeds5 p = false) as ->; [|reflexivity].
    unfold feeds_noise. rewrite Hint. destruct p as [|p]; [lia|reflexivity].
Qed.

Hypothesis has_symbol : 1 ≤ nof_symbols (resource config).
Hypothesis has_port : 0 < nof_antenna_ports (resource config).
Variable rnti_value : Z.
Hypothesis collected : extract_rnti (context config) = Some rnti_value.

Lemma after_coefficients_noise_var :
  noise_var (after_coefficients get_srs_information est grid config)
  = residual_noise_power get_srs_information est grid config.
Proof.
  unfold after_coefficients.
  destruct (rx_port_coefficients_loop_noise get_srs_information est config rnti_value
              collected (nof_rx_ports config)
              (after_time_alignment get_srs_information est grid config)) as (-> & _ & _).
  assert (noise_var (after_time_alignment get_srs_information est grid config) = fzero)
    as ->.
  { unfold after_time_alignment. cbn [noise_var].
    destruct (after_antenna_ports_frame get_srs_information est grid config)
      as (_ & -> & _). reflexivity. }
  unfold residual_noise_power.
  assert (∀ q r, fed_parity get_srs_information config q → r < length (ports config) →
            foldl (fun noise_help p =>
                     if parity5 p =? q
                     then srsvec.subtract
                            (if feeds5 p
                             then compensate_phase_shift est noise_help
                                    (phase_shift_subcarrier config
                                       (ta_time_alignment
                                          (result_time_alignment
                                             (after_time_alignment get_srs_information
                                                est grid config))))
                                    (phase_shift_offset config
                                       (phase_shift_subcarrier config
                                          (ta_time_alignment
                                             (result_time_alignment
                                                (after_time_alignment get_srs_information
                                                   est grid config))))
                                       (get_srs_information (resource config) p))
                             else noise_help)
                            (srsvec.sc_prod_c
                               (get_view (common_sequence_length get_srs_information config)
                                  (all_sequences
                                     (after_time_alignment get_srs_information est grid
                                        config)) p)
                               (cscale (float_of_Z (Z.of_nat (cfg_nof_symbols config)))
                                  (srsvec.mean
                                     (compensate_phase_shift est
                                        (get_view
                                           (common_sequence_length get_srs_information config)
                                           (temp_lse
                                              (after_time_alignment get_srs_information est
                                                 grid config)) (r, p))
                                        (phase_shift_subcarrier config
                                           (ta_time_alignment
                                              (result_time_alignment
                                                 (after_time_alignment get_srs_information
                                                    est grid config))))
                                        (phase_shift_offset config
                                           (phase_shift_subcarrier config
                                              (ta_time_alignment
                                                 (result_time_alignment
                                                    (after_time_alignment
                                                       get_srs_information est grid
                                                       config))))
                                           (get_srs_information (resource config) p))))))
                     else noise_help)
                  (get_view (common_sequence_length get_srs_information config)
                     (temp_noise (after_time_alignment get_srs_information est grid config))
                     (q, r))
                  (seq 0 (cfg_nof_antenna_ports config))
            = noise_residual get_srs_information est grid config q r) as Hresidual.
  { intros q r Hq Hr.
    assert (get_view (common_sequence_length get_srs_information config)
              (temp_noise (after_time_alignment get_srs_information est grid config)) (q, r)
            = noise_sum get_srs_information grid config q r) as ->.
    { unfold after_time_alignment. cbn [temp_noise].
      apply after_antenna_ports_noise; assumption. }
    unfold noise_residual, cfg_nof_antenna_ports. cbv zeta.
    rewrite <- (noise_fold_compensates_first
                  (fun p noise_help =>
                     compensate_phase_shift est noise_help
                       (phase_shift_subcarrier config
                          (final_time_alignment get_srs_information est grid config))
                       (phase_shift_offset config
                          (phase_shift_subcarrier config
                             (final_time_alignment get_srs_information est grid config))
                          (get_srs_information (resource config) p)))
                  (fun p => recovered_signal get_srs_information est grid config p r)
                  q _ Hq has_port).
    apply foldl_ext_elem. intros acc p Hp. apply elem_of_seq in Hp.
    rewrite (after_time_alignment_view get_srs_information est grid config has_symbol r p)
      by lia.
    assert (get_view (common_sequence_length get_srs_information config)
              (all_sequences (after_time_alignment get_srs_information est grid config)) p
            = pilot_sequence get_srs_information est config p) as ->.
    { apply get_view_lookup. unfold after_time_alignment. cbn [all_sequences].
      unfold after_antenna_ports. apply antenna_port_loop_sequences.
      unfold cfg_nof_antenna_ports. lia. }
    reflexivity. }
  apply foldl_ext_elem. intros acc r Hr. apply elem_of_seq in Hr.
  unfold nof_rx_ports in Hr. cbv zeta.
  rewrite (Hresidual 0 r) by (first [left; reflexivity|lia]).
  destruct (interleaved_pilots get_srs_information config) eqn:Hint; [|reflexivity].
  rewrite (Hresidual 1 r) by (first [right; split; [exact Hint|reflexivity]|lia]).
  reflexivity.
Qed.

End ResidualResults.

(** When the collection block extracts an RNTI, the returned noise
    variance is the residual power over the divisor of C6: for every
    receive port, the received sequences of antenna port 0 added up over
    the symbols, compensated with the phase of that port, minus the
    recovered signal (pilot sequence × nof_symbols × coefficient) of every
    antenna port; with interleaved pilots the same once more for the odd
    antenna ports, fed by antenna port 1. *)
Theorem noise_variance_is_residual_power get_srs_information est grid config rnti_value :
  1 ≤ nof_symbols (resource config) →
  0 < nof_antenna_ports (resource config) →
  extract_rnti (context config) = Some rnti_value →
  noise_variance (estimate get_srs_information est grid config)
  = fdiv (residual_noise_power get_srs_information est grid config)
         (float_of_Z (noise_divisor get_srs_information config)).
Proof.
  intros Hsym Hport Hrnti. unfold estimate, normalized_noise_var. cbn [noise_variance].
  rewrite (after_coefficients_noise_var get_srs_information est grid config Hsym Hport
             rnti_value Hrnti).
  reflexivity.
Qed.

Lemma noise_variance_is_residual_power_witness :
  let request := Scenario.request [0; 1] Scenario.with_context in
  noise_variance (estimate Scenario.get_srs_information Scenario.estimator
                    Scenario.grid_twos request)
  = fdiv (residual_noise_power Scenario.get_srs_information Scenario.estimator
            Scenario.grid_twos request)
         (float_of_Z (noise_divisor Scenario.get_srs_information request)).
Proof.
  apply (noise_variance_is_residual_power Scenario.get_srs_information Scenario.estimator
           Scenario.grid_twos (Scenario.request [0; 1] Scenario.with_context) 17921).
  - simpl. lia.
  - simpl. lia.
  - vm_compute. reflexivity.
Defined.

(** ** The returned value when the collection is skipped *)

Section SkippedResults.

Variable get_srs_information : srs_resource_configuration -> nat -> srs_information.
Variable est : srs_estimator_generic_impl.
Variable grid : resource_grid_reader.
Variable config : srs_estimator_configuration.
Hypothesis skipped : extract_rnti (context config) = None.

Local Abbreviation coefficient_step6 := (coefficient_step get_srs_information est config).
Local Abbreviation rx_port_coefficients_step6 :=
  (rx_port_coefficients_step get_srs_information est config).
Local Abbreviation size6 := (common_sequence_length get_srs_information config).

Lemma coefficient_loop_skipped r l st :
  temp_noise (foldl (coefficient_step6 r) st l) = temp_noise st
  ∧ noise_var (foldl (coefficient_step6 r) st l) = noise_var st.
Proof.
  apply (foldl_invariant
           (fun a => temp_noise a = temp_noise st ∧ noise_var a = noise_var st)).
  - auto.
  - intros a x [H1 H2].
    destruct (coefficient_step_skipped get_srs_information est config r a x skipped)
      as (_ & _ & -> & _ & ->).
    auto.
Qed.

Lemma rx_port_coefficients_loop_noise_skipped m st0 :
  let st := foldl rx_port_coefficients_step6 st0 (seq 0 m) in
  temp_noise st = temp_noise st0
  ∧ noise_var st
    = foldl (fun acc r =>
               let acc' :=
                 fadd acc (residual_power (get_view size6 (temp_noise st0) (0, r))) in
               if interleaved_pilots get_srs_information config
               then fadd acc' (residual_power (get_view size6 (temp_noise st0) (1, r)))
               else acc')
            (noise_var st0) (seq 0 m).
Proof.
  cbv zeta. induction m as [|m IH]; [cbn [seq foldl]; auto|].
  rewrite seq_S, !foldl_app. change (0 + m) with m. cbn [foldl].
  destruct IH as [Hnoise Hvar].
  set (st1 := foldl rx_port_coefficients_step6 st0 (seq 0 m)) in *.
  unfold rx_port_coefficients_step at 1 2. cbn [temp_noise noise_var].
  destruct (coefficient_loop_skipped m (seq 0 (cfg_nof_antenna_ports config)) st1)
    as [-> ->].
  rewrite Hnoise, Hvar. auto.
Qed.

Lemma after_coefficients_noise_var_skipped :
  0 < nof_antenna_ports (resource config) →
  noise_var (after_coefficients get_srs_information est grid config)
  = unreduced_noise_power get_srs_information grid config.
Proof.
  intros Hport. unfold after_coefficients.
  destruct (rx_port_coefficients_loop_noise_skipped (nof_rx_ports config)
              (after_time_alignment get_srs_information est grid config)) as [_ ->].
  assert (noise_var (after_time_alignment get_srs_information est grid config) = fzero)
    as ->.
  { unfold after_time_alignment. cbn [noise_var].
    destruct (after_antenna_ports_frame get_srs_information est grid config)
      as (_ & -> & _). reflexivity. }
  unfold unreduced_noise_power.
  apply foldl_ext_elem. intros acc r Hr. apply elem_of_seq in Hr.
  unfold nof_rx_ports in Hr. unfold after_time_alignment. cbn [temp_noise]. cbv zeta.
  rewrite (after_antenna_ports_noise get_srs_information est grid config 0 r Hport)
    by (first [left; reflexivity|lia]).
  destruct (interleaved_pilots get_srs_information config) eqn:Hint; [|reflexivity].
  rewrite (after_antenna_ports_noise get_srs_information est grid config 1 r Hport)
    by (first [right; split; [exact Hint|reflexivity]|lia]).
  reflexivity.
Qed.

End SkippedResults.

(** When the collection block is skipped (no context, no parseable
    RNTI, or the RNTI zero), the returned noise variance is the power of
    the summed received sequences themselves over the divisor, nothing
    having been subtracted, and the returned RSRP is the conversion of a
    zero power. *)
Theorem skipped_estimate_counts_signal_as_noise get_srs_information est grid config :
  0 < nof_antenna_ports (resource config) →
  extract_rnti (context config) = None →
  noise_variance (estimate get_srs_information est grid config)
  = fdiv (unreduced_noise_power get_srs_information grid config)
         (float_of_Z (noise_divisor get_srs_information config))
  ∧ rsrp_dB (estimate get_srs_information est grid config)
    = convert_power_to_dB
        (fdiv fzero
              (float_of_Z
                 (u32 (Z.of_nat (nof_antenna_ports (resource config))
                       * Z.of_nat (length (ports config)))))).
Proof.
  intros Hport Hskip. unfold estimate, normalized_noise_var, normalized_rsrp.
  cbn [noise_variance rsrp_dB].
  rewrite (after_coefficients_noise_var_skipped get_srs_information est grid config
             Hskip Hport).
  destruct (after_coefficients_skipped get_srs_information est grid config Hskip)
    as (_ & -> & _).
  destruct (after_antenna_ports_frame get_srs_information est grid config)
    as (_ & _ & -> & _).
  split; reflexivity.
Qed.

Lemma skipped_estimate_counts_signal_as_noise_witness :
  let request := Scenario.request [0; 1] Scenario.without_context in
  noise_variance (estimate Scenario.get_srs_information Scenario.estimator
                    Scenario.grid_twos request)
  = fdiv (unreduced_noise_power Scenario.get_srs_information Scenario.grid_twos request)
         (float_of_Z (noise_divisor Scenario.get_srs_information request))
  ∧ rsrp_dB (estimate Scenario.get_srs_information Scenario.estimator
               Scenario.grid_twos request)
    = convert_power_to_dB
        (fdiv fzero
              (float_of_Z
                 (u32 (Z.of_nat (nof_antenna_ports (resource request))
                       * Z.of_nat (length (ports request)))))).
Proof.
  apply (skipped_estimate_counts_signal_as_noise Scenario.get_srs_information
           Scenario.estimator Scenario.grid_twos
           (Scenario.request [0; 1] Scenario.without_context)).
  - simpl. lia.
  - reflexivity.
Defined.

(** C6 (the returned noise variance is the accumulated squared residual
    over the divisor): the code breaks it on every request whose
    collection block is skipped.  The comment before the division says
    that [noise_var] "contains the sum of all the squared errors between
    the received signal and the reconstructed one"; a skipped pass leaves
    the loop before anything is reconstructed or subtracted.  On the
    synthetic scenario (noiseless samples [2+0j], one antenna port, one
    receive port, pilots not interleaved, n_estimates 1, correction 1)
    the squared residual is zero and the divisor is (1 × 144 − 1) × 1 × 1:
    with the context that carries an RNTI the returned noise variance is
    that quotient, zero; without a context it is 576/143, the power of
    the received signal itself. *)
Theorem noise_variance_not_residual_without_rnti :
  let absent := Scenario.request [0] Scenario.without_context in
  let present := Scenario.request [0] Scenario.with_context in
  let returned request :=
    noise_variance
      (estimate Scenario.get_srs_information Scenario.estimator Scenario.grid_twos request) in
  let residual request :=
    residual_noise_power Scenario.get_srs_information Scenario.estimator
      Scenario.grid_twos request in
  let claimed request := fdiv (residual request) (float_of_Z ((1 * 144 - 1) * 1 * 1)) in
  interleaved_pilots Scenario.get_srs_information absent = false
  ∧ nof_estimates Scenario.get_srs_information absent = 1%Z
  ∧ correction_factor Scenario.get_srs_information absent = 1%Z
  ∧ noise_divisor Scenario.get_srs_information absent = ((1 * 144 - 1) * 1 * 1)%Z
  ∧ residual absent = fzero
  ∧ residual present = fzero
  ∧ returned present = claimed present
  ∧ claimed absent = fzero
  ∧ returned absent = fdiv (float_of_Z 576) (float_of_Z 143)
  ∧ fltb (claimed absent) (returned absent) = true.
Proof. cbv zeta. repeat split; vm_compute; reflexivity. Qed.
